(** * Deception services: a shallow embedding of the honeypots and of the
    decoy API, and the properties of their protocol dialogs.

    The development follows the five listeners of the repository:

    - [SSH]   : src/honeypots/ssh/honeypot.py
    - [HTTP]  : src/honeypots/http/honeypot.py
    - [SMTP]  : src/honeypots/smtp/honeypot.py
    - [MySQL] : src/honeypots/database/honeypot.py
    - [API]   : src/ecommerce/api/server.py

    Conventions.  A Python [str] is a [string]; a character stands for the
    code point of the same number, so the text model covers U+0000..U+00FF
    and the character tables below are the Unicode ones restricted to that
    range.  A Python [bytes] is a [list byte].  Lengths and clock readings
    are in [Z].  A socket is modelled by the script of what its reads and
    drains return, and by the list of buffers written to it. *)

From Stdlib Require Import ZArith List String Ascii Bool Lia.
From Stdlib Require Import Strings.Byte DecimalString.
From stdpp Require Import base strings gmap list.
Import ListNotations.

Open Scope string_scope.

(* ===================================================================== *)
(** * Python strings *)
(* ===================================================================== *)

Module Py.

Definition code (c : ascii) : N := N_of_ascii c.

Definition in_range (lo hi : N) (c : ascii) : bool :=
  ((lo <=? code c) && (code c <=? hi))%N.

Definition is_code (n : N) (c : ascii) : bool := (code c =? n)%N.

(** [str.isspace] on one character: TAB..CR, FS..US, SPACE, NEL, NBSP. *)
Definition isspace (c : ascii) : bool :=
  in_range 9 13 c || in_range 28 32 c || is_code 133 c || is_code 160 c.

Definition isdigit_ascii (c : ascii) : bool := in_range 48 57 c.

Definition isalpha_ascii (c : ascii) : bool :=
  in_range 65 90 c || in_range 97 122 c.

(** [str.isalnum] on one character (letters, decimal digits, and the
    superscripts and vulgar fractions that count as numeric). *)
Definition isalnum_char (c : ascii) : bool :=
  isdigit_ascii c || isalpha_ascii c
  || is_code 170 c || is_code 178 c || is_code 179 c || is_code 181 c
  || is_code 185 c || is_code 186 c || in_range 188 190 c
  || in_range 192 214 c || in_range 216 246 c || in_range 248 255 c.

Definition lower_char (c : ascii) : ascii :=
  if in_range 65 90 c || (in_range 192 222 c && negb (is_code 215 c))
  then ascii_of_N (code c + 32) else c.

(** [str.upper] can lengthen the text: the sharp s becomes "SS".  The two
    letters whose capital lies above U+00FF (micro sign, y with
    diaeresis) are kept; no comparison below is against such a capital. *)
Definition upper_char (c : ascii) : string :=
  if is_code 223 c then "SS"
  else if in_range 97 122 c || (in_range 224 254 c && negb (is_code 247 c))
  then String (ascii_of_N (code c - 32)) ""
  else String c "".

Fixpoint lower (s : string) : string :=
  match s with
  | "" => ""
  | String c r => String (lower_char c) (lower r)
  end.

Fixpoint upper (s : string) : string :=
  match s with
  | "" => ""
  | String c r => upper_char c ++ upper r
  end.

Fixpoint forallb_str (p : ascii -> bool) (s : string) : bool :=
  match s with
  | "" => true
  | String c r => p c && forallb_str p r
  end.

Definition nonempty (s : string) : bool :=
  match s with "" => false | _ => true end.

(** [s.isalnum()]: every character alphanumeric, and at least one. *)
Definition isalnum (s : string) : bool :=
  nonempty s && forallb_str isalnum_char s.

Definition len (s : string) : Z := Z.of_nat (String.length s).

Definition startswith (s p : string) : bool := String.prefix p s.

Fixpoint lstrip_with (p : ascii -> bool) (s : string) : string :=
  match s with
  | "" => ""
  | String c r => if p c then lstrip_with p r else s
  end.

Fixpoint rstrip_with (p : ascii -> bool) (s : string) : string :=
  match s with
  | "" => ""
  | String c r =>
      match rstrip_with p r with
      | "" => if p c then "" else String c ""
      | r' => String c r'
      end
  end.

Definition strip_with (p : ascii -> bool) (s : string) : string :=
  rstrip_with p (lstrip_with p s).

Definition lstrip : string -> string := lstrip_with isspace.
Definition strip : string -> string := strip_with isspace.

Fixpoint mem_char (c : ascii) (cs : string) : bool :=
  match cs with
  | "" => false
  | String d r => Ascii.eqb c d || mem_char c r
  end.

(** [s.strip(chars)] *)
Definition strip_chars (chars s : string) : string :=
  strip_with (fun c => mem_char c chars) s.

(** [sub in s] *)
Fixpoint contains (s sub : string) : bool :=
  String.prefix sub s
  || match s with
     | "" => false
     | String _ r => contains r sub
     end.

(** [s.find(sub)], with [None] for -1. *)
Fixpoint find (s sub : string) : option nat :=
  if String.prefix sub s then Some 0%nat
  else match s with
       | "" => None
       | String _ r => option_map S (find r sub)
       end.

(** [s[a:b]] for non-negative bounds. *)
Definition slice (a b : nat) (s : string) : string :=
  String.substring a (b - a) s.

(** [s[a:]] *)
Fixpoint drop (a : nat) (s : string) : string :=
  match a, s with
  | O, _ => s
  | S _, "" => ""
  | S a', String _ r => drop a' r
  end.

(** [s[:b]] *)
Definition take (b : nat) (s : string) : string := String.substring 0 b s.

Definition join (sep : string) (l : list string) : string :=
  String.concat sep l.

(** [s.split(sep)] for a non-empty separator: [skip] counts the
    characters of a separator still to be passed over, [acc] is the field
    being read. *)
Fixpoint split_go (sep s : string) (skip : nat) (acc : string)
  : list string :=
  match s with
  | "" => [acc]
  | String c r =>
      match skip with
      | S k => split_go sep r k acc
      | O =>
          if String.prefix sep s
          then acc :: split_go sep r (String.length sep - 1) ""
          else split_go sep r 0 (acc ++ String c "")
      end
  end.

Definition split (sep s : string) : list string := split_go sep s 0 "".

(** [s.split(sep, 1)] when the separator occurs: the text before its
    first occurrence and the text after it. *)
Definition split_once (sep s : string) : option (string * string) :=
  match find s sep with
  | Some i => Some (take i s, drop (i + String.length sep) s)
  | None => None
  end.

(** [s.split()]: the maximal runs of non-space characters. *)
Fixpoint split_ws_go (s : string) (acc : string) : list string :=
  match s with
  | "" => match acc with "" => [] | _ => [acc] end
  | String c r =>
      if isspace c
      then match acc with
           | "" => split_ws_go r ""
           | _ => acc :: split_ws_go r ""
           end
      else split_ws_go r (acc ++ String c "")
  end.

Definition split_ws (s : string) : list string := split_ws_go s "".

(** Texts that contain the double quote are written with a backquote in
    its place; [q] puts the double quote back. *)
Definition dquote : ascii := ascii_of_N 34.

Fixpoint q (s : string) : string :=
  match s with
  | "" => ""
  | String c r => String (if Ascii.eqb c "`" then dquote else c) (q r)
  end.

Definition CR : string := String (ascii_of_N 13) "".
Definition LF : string := String (ascii_of_N 10) "".
Definition CRLF : string := CR ++ LF.
Definition NUL : string := String (ascii_of_N 0) "".

End Py.

(* ===================================================================== *)
(** * Regular expressions ([re.compile], [pattern.search]) *)
(* ===================================================================== *)

Module Re.

(** An item of a character set, or a class escape. *)
Inductive citem : Type :=
| CChar (c : ascii)
| CRange (lo hi : ascii)
| CSpace                      (* \s *)
| CWord                       (* \w *)
| CDigit.                     (* \d *)

Inductive regex : Type :=
| Void
| Eps
| Lit (c : ascii)
| Dot                         (* any character but the line feed *)
| Cls (i : citem)
| CSet (neg : bool) (items : list citem)
| Cat (r1 r2 : regex)
| Alt (r1 r2 : regex)
| Star (r : regex).

(** A compiled pattern: the expression and the IGNORECASE flag. *)
Record pattern : Type := Pattern { expr : regex; ignorecase : bool }.

(** ** Parsing the pattern source *)

Definition escape_atom (c : ascii) : option regex :=
  if Ascii.eqb c "s" then Some (Cls CSpace)
  else if Ascii.eqb c "w" then Some (Cls CWord)
  else if Ascii.eqb c "d" then Some (Cls CDigit)
  else if Ascii.eqb c "n" then Some (Lit (ascii_of_N 10))
  else if Ascii.eqb c "r" then Some (Lit (ascii_of_N 13))
  else if Ascii.eqb c "t" then Some (Lit (ascii_of_N 9))
  else if Py.isalpha_ascii c || Py.isdigit_ascii c then None
  else Some (Lit c).

Definition escape_item (c : ascii) : option citem :=
  match escape_atom c with
  | Some (Cls i) => Some i
  | Some (Lit d) => Some (CChar d)
  | _ => None
  end.

(** The items of a set, up to the closing bracket. *)
Fixpoint p_set (n : nat) (s : string) (acc : list citem)
  : option (list citem * string) :=
  match n with
  | O => None
  | S n' =>
      match s with
      | "" => None
      | String "]" rest => Some (acc, rest)
      | String "\" (String c rest) =>
          match escape_item c with
          | Some i => p_set n' rest (acc ++ [i])
          | None => None
          end
      | String lo (String "-" (String hi rest)) =>
          if Ascii.eqb hi "]" then p_set n' (String "-" (String hi rest))
                                     (acc ++ [CChar lo])
          else if Ascii.eqb hi "\" then None
          else p_set n' rest (acc ++ [CRange lo hi])
      | String c rest => p_set n' rest (acc ++ [CChar c])
      end
  end.

Definition p_quant (a : regex) (s : string) : regex * string :=
  match s with
  | String "*" rest => (Star a, rest)
  | String "+" rest => (Cat a (Star a), rest)
  | String "?" rest => (Alt a Eps, rest)
  | _ => (a, s)
  end.

Definition unsupported (c : ascii) : bool :=
  Py.mem_char c "^${}*+?".

Fixpoint p_alt (n : nat) (s : string) : option (regex * string) :=
  match n with
  | O => None
  | S n' =>
      match p_seq n' s with
      | Some (r, String "|" rest) =>
          match p_alt n' rest with
          | Some (r2, rest') => Some (Alt r r2, rest')
          | None => None
          end
      | res => res
      end
  end
with p_seq (n : nat) (s : string) : option (regex * string) :=
  match n with
  | O => None
  | S n' =>
      match s with
      | "" => Some (Eps, "")
      | String "|" _ | String ")" _ => Some (Eps, s)
      | _ =>
          match p_atom n' s with
          | Some (a, rest) =>
              let (a', rest') := p_quant a rest in
              match p_seq n' rest' with
              | Some (Eps, rest'') => Some (a', rest'')
              | Some (r, rest'') => Some (Cat a' r, rest'')
              | None => None
              end
          | None => None
          end
      end
  end
with p_atom (n : nat) (s : string) : option (regex * string) :=
  match n with
  | O => None
  | S n' =>
      match s with
      | "" => None
      | String "(" (String "?" _) => None
      | String "(" rest =>
          match p_alt n' rest with
          | Some (r, String ")" rest') => Some (r, rest')
          | _ => None
          end
      | String "[" (String "]" _)
      | String "[" (String "^" (String "]" _)) => None
      | String "[" (String "^" rest) =>
          match p_set n' rest [] with
          | Some (items, rest') => Some (CSet true items, rest')
          | None => None
          end
      | String "[" rest =>
          match p_set n' rest [] with
          | Some (items, rest') => Some (CSet false items, rest')
          | None => None
          end
      | String "\" (String c rest) =>
          match escape_atom c with
          | Some a => Some (a, rest)
          | None => None
          end
      | String "\" "" => None
      | String "." rest => Some (Dot, rest)
      | String c rest =>
          if unsupported c then None else Some (Lit c, rest)
      end
  end.

(** [re.compile(src, re.IGNORECASE)]; [None] when the source uses syntax
    outside the fragment above (anchors, counted repeats, group
    modifiers, a bracket as first member of a set), which none of the
    HTTP pattern lists does. *)
Definition compile (ic : bool) (src : string) : option pattern :=
  match p_alt (2 * String.length src + 4) src with
  | Some (r, "") => Some (Pattern r ic)
  | _ => None
  end.

(** ** Matching *)

Definition upper1 (c : ascii) : ascii :=
  if Py.in_range 97 122 c
     || (Py.in_range 224 254 c && negb (Py.is_code 247 c))
  then ascii_of_N (Py.code c - 32) else c.

Definition between (lo hi x : ascii) : bool :=
  ((Py.code lo <=? Py.code x) && (Py.code x <=? Py.code hi))%N.

Definition item_matches (ic : bool) (i : citem) (x : ascii) : bool :=
  match i with
  | CChar c =>
      if ic then Ascii.eqb (Py.lower_char x) (Py.lower_char c)
      else Ascii.eqb x c
  | CRange lo hi =>
      between lo hi x
      || (ic && (between lo hi (Py.lower_char x)
                 || between lo hi (upper1 x)))
  | CSpace => Py.isspace x
  | CWord => Py.isalnum_char x || Ascii.eqb x "_"
  | CDigit => Py.isdigit_ascii x
  end.

Definition set_matches (ic neg : bool) (items : list citem) (x : ascii)
  : bool :=
  xorb neg (existsb (fun i => item_matches ic i x) items).

Fixpoint nullable (r : regex) : bool :=
  match r with
  | Void => false
  | Eps => true
  | Lit _ | Dot | Cls _ | CSet _ _ => false
  | Cat r1 r2 => nullable r1 && nullable r2
  | Alt r1 r2 => nullable r1 || nullable r2
  | Star _ => true
  end.

Definition cat (r1 r2 : regex) : regex :=
  match r1, r2 with
  | Void, _ | _, Void => Void
  | Eps, _ => r2
  | _, _ => Cat r1 r2
  end.

Definition alt (r1 r2 : regex) : regex :=
  match r1, r2 with
  | Void, _ => r2
  | _, Void => r1
  | _, _ => Alt r1 r2
  end.

Definition step (b : bool) : regex := if b then Eps else Void.

(** The residual of [r] after reading [x]. *)
Fixpoint deriv (ic : bool) (x : ascii) (r : regex) : regex :=
  match r with
  | Void | Eps => Void
  | Lit c => step (item_matches ic (CChar c) x)
  | Dot => step (negb (Py.is_code 10 x))
  | Cls i => step (item_matches ic i x)
  | CSet neg items => step (set_matches ic neg items x)
  | Cat r1 r2 =>
      alt (cat (deriv ic x r1) r2)
          (if nullable r1 then deriv ic x r2 else Void)
  | Alt r1 r2 => alt (deriv ic x r1) (deriv ic x r2)
  | Star r1 => cat (deriv ic x r1) (Star r1)
  end.

Definition is_void (r : regex) : bool :=
  match r with Void => true | _ => false end.

(** Some prefix of [s] is matched by [r]. *)
Fixpoint match_prefix (ic : bool) (r : regex) (s : string) : bool :=
  nullable r
  || match s with
     | "" => false
     | String x rest =>
         let d := deriv ic x r in
         if is_void d then false else match_prefix ic d rest
     end.

(** [pattern.search(s)] as a truth value: a match starts somewhere. *)
Fixpoint search_re (ic : bool) (r : regex) (s : string) : bool :=
  match_prefix ic r s
  || match s with
     | "" => false
     | String _ rest => search_re ic r rest
     end.

Definition search (p : pattern) (s : string) : bool :=
  search_re (ignorecase p) (expr p) s.

(** ** The language of an expression *)

(** [matches ic r s]: the text [s] is in the language of [r], letters
    compared without case when [ic] is set.  The matcher above is proved
    to decide it. *)
Inductive matches (ic : bool) : regex -> string -> Prop :=
| MEps : matches ic Eps ""
| MLit (c x : ascii) :
    item_matches ic (CChar c) x = true -> matches ic (Lit c) (String x "")
| MDot (x : ascii) :
    Py.is_code 10 x = false -> matches ic Dot (String x "")
| MCls (i : citem) (x : ascii) :
    item_matches ic i x = true -> matches ic (Cls i) (String x "")
| MSet (neg : bool) (items : list citem) (x : ascii) :
    set_matches ic neg items x = true ->
    matches ic (CSet neg items) (String x "")
| MCat (r1 r2 : regex) (s1 s2 : string) :
    matches ic r1 s1 -> matches ic r2 s2 -> matches ic (Cat r1 r2) (s1 ++ s2)
| MAltL (r1 r2 : regex) (s : string) :
    matches ic r1 s -> matches ic (Alt r1 r2) s
| MAltR (r1 r2 : regex) (s : string) :
    matches ic r2 s -> matches ic (Alt r1 r2) s
| MStarNil (r : regex) : matches ic (Star r) ""
| MStarApp (r : regex) (s1 s2 : string) :
    matches ic r s1 -> matches ic (Star r) s2 ->
    matches ic (Star r) (s1 ++ s2).

(** Some part of [s] is in the language of the pattern. *)
Definition found (p : pattern) (s : string) : Prop :=
  exists before hit after,
    s = before ++ hit ++ after /\ matches (ignorecase p) (expr p) hit.

(** [any(p.search(s) for p in ps)], as the [for ... if ...: return] loops
    of the classifiers compute it. *)
Definition any_search (ps : list pattern) (s : string) : bool :=
  existsb (fun p => search p s) ps.

(** ** Patterns that end with the anchor [$] *)

(** The text before a final dollar that no backslash escapes; [escaped]
    tells whether the character at the head is escaped. *)
Fixpoint final_anchor (s : string) (escaped : bool) : option string :=
  match s with
  | "" => None
  | String c "" =>
      if negb escaped && Ascii.eqb c "$" then Some "" else None
  | String c r =>
      option_map (String c)
        (final_anchor r (negb escaped && Ascii.eqb c "\"))
  end.

(** A compiled pattern that may be anchored at the end of the text. *)
Record anchored : Type := Anchored { body : pattern; at_end : bool }.

(** [re.compile] for a source that is either in the fragment of
    [compile], or a sequence of that fragment (no alternative at top
    level) followed by [$]. *)
Definition compile_anchored (ic : bool) (src : string) : option anchored :=
  match final_anchor src false with
  | Some before =>
      match p_seq (2 * String.length before + 4) before with
      | Some (r, "") => Some (Anchored (Pattern r ic) true)
      | _ => None
      end
  | None => option_map (fun p => Anchored p false) (compile ic src)
  end.

(** The whole of [s] is matched by [r]. *)
Fixpoint full_match (ic : bool) (r : regex) (s : string) : bool :=
  match s with
  | "" => nullable r
  | String x rest =>
      let d := deriv ic x r in
      if is_void d then false else full_match ic d rest
  end.

(** Some suffix of [s] is matched by [r]. *)
Fixpoint match_suffix (ic : bool) (r : regex) (s : string) : bool :=
  full_match ic r s
  || match s with
     | "" => false
     | String _ rest => match_suffix ic r rest
     end.

(** The text without its last character, when that is a line feed. *)
Fixpoint chop_newline (s : string) : option string :=
  match s with
  | "" => None
  | String c "" => if Py.is_code 10 c then Some "" else None
  | String c r => option_map (String c) (chop_newline r)
  end.

(** [pattern.search(s)] as a truth value.  Without MULTILINE the anchor
    holds at the end of the text, and before a line feed that ends it. *)
Definition search_anchored (p : anchored) (s : string) : bool :=
  if at_end p then
    match_suffix (ignorecase (body p)) (expr (body p)) s
    || match chop_newline s with
       | Some s' => match_suffix (ignorecase (body p)) (expr (body p)) s'
       | None => false
       end
  else search (body p) s.

(** Some part of [s] is in the language of the pattern and, for an
    anchored pattern, ends where the anchor holds. *)
Definition found_anchored (p : anchored) (s : string) : Prop :=
  if at_end p then
    exists before hit,
      (s = before ++ hit \/ s = before ++ hit ++ Py.LF)
      /\ matches (ignorecase (body p)) (expr (body p)) hit
  else found (body p) s.

End Re.

(* ===================================================================== *)
(** * Exceptions and dictionaries *)
(* ===================================================================== *)

(** The exception classes that the modelled code can meet. *)
Inductive exn : Type :=
| ValueError
| TypeError
| AttributeError
| JSONDecodeError
| TimeoutError
| ConnectionResetError
| UnicodeDecodeError.

(** The result of a call that may raise. *)
Inductive result (A : Type) : Type :=
| Ret (a : A)
| Raise (e : exn).
Arguments Ret {A} a.
Arguments Raise {A} e.

(** A [dict] in insertion order: assigning to a key that is present
    replaces its value in place, a new key goes to the end. *)
Module Dict.
Section Dict.
Context {V : Type}.
Definition t : Type := list (string * V).

Fixpoint set (k : string) (v : V) (d : t) : t :=
  match d with
  | [] => [(k, v)]
  | (k', v') :: r =>
      if String.eqb k k' then (k, v) :: r else (k', v') :: set k v r
  end.

Fixpoint get (k : string) (d : t) : option V :=
  match d with
  | [] => None
  | (k', v') :: r => if String.eqb k k' then Some v' else get k r
  end.

Definition get_default (k : string) (dflt : V) (d : t) : V :=
  match get k d with Some v => v | None => dflt end.

Definition keys (d : t) : list string := map fst d.
Definition values (d : t) : list V := map snd d.
Definition mem (k : string) (d : t) : bool :=
  match get k d with Some _ => true | None => false end.
End Dict.
Arguments t V : clear implicits.
End Dict.

(* ===================================================================== *)
(** * Reference instance of [urllib.parse.urlparse(...).path] *)
(* ===================================================================== *)

(** The listeners are parametrised by the URL splitter of the runtime.
    [Urllib.urlparse_path] is the instance on which concrete requests are
    run.  It follows the algorithm of CPython's [urlsplit] and [urlparse];
    [None] stands for the [ValueError] raised on an authority with an
    unmatched bracket.  The validation of a bracketed host and of a
    non-ASCII authority is not part of it. *)
Module Urllib.

Fixpoint filter_str (p : ascii -> bool) (s : string) : string :=
  match s with
  | "" => ""
  | String c r => if p c then String c (filter_str p r) else filter_str p r
  end.

Definition c0_or_space (c : ascii) : bool := Py.in_range 0 32 c.

Definition unsafe (c : ascii) : bool :=
  Py.is_code 9 c || Py.is_code 10 c || Py.is_code 13 c.

Definition scheme_char (c : ascii) : bool :=
  Py.isalpha_ascii c || Py.isdigit_ascii c || Py.mem_char c "+-.".

Definition uses_params : list string :=
  [""; "ftp"; "hdl"; "prospero"; "http"; "imap"; "https"; "shttp"; "rtsp";
   "rtspu"; "sip"; "sips"; "mms"; "sftp"; "tel"].

Definition first_is_alpha (s : string) : bool :=
  match s with String c _ => Py.isalpha_ascii c | "" => false end.

Definition split_scheme (url : string) : string * string :=
  match Py.find url ":" with
  | Some (S i) =>
      if first_is_alpha url && Py.forallb_str scheme_char (Py.take (S i) url)
      then (Py.lower (Py.take (S i) url), Py.drop (S (S i)) url)
      else ("", url)
  | _ => ("", url)
  end.

(** The text before the first character satisfying [p], and the text
    from that character on. *)
Fixpoint break_at (p : ascii -> bool) (s : string) : string * string :=
  match s with
  | "" => ("", "")
  | String c r =>
      if p c then ("", s)
      else let (a, b) := break_at p r in (String c a, b)
  end.

Definition split_netloc (url : string) : string * string :=
  if Py.startswith url "//"
  then break_at (fun c => Py.mem_char c "/?#") (Py.drop 2 url)
  else ("", url).

Fixpoint cut_params (s : string) : string :=
  match s with
  | "" => ""
  | String c r =>
      if Py.contains r "/" then String c (cut_params r)
      else if Ascii.eqb c ";" then ""
      else String c (cut_params r)
  end.

Definition urlparse_path (url0 : string) : option string :=
  let url := filter_str (fun c => negb (unsafe c))
               (Py.lstrip_with c0_or_space url0) in
  let (scheme, url) := split_scheme url in
  let (netloc, url) := split_netloc url in
  if xorb (Py.contains netloc "[") (Py.contains netloc "]") then None
  else
    let url := fst (break_at (fun c => Ascii.eqb c "#") url) in
    let url := fst (break_at (fun c => Ascii.eqb c "?") url) in
    Some (if existsb (String.eqb scheme) uses_params
          then cut_params url else url).

End Urllib.

(* ===================================================================== *)
(** * The HTTP honeypot (src/honeypots/http/honeypot.py) *)
(* ===================================================================== *)

Module HTTP.

(** The event of one request (its timestamp is left out). *)
Record HTTPEvent : Type := {
  event_type : string;
  source_ip : string;
  source_port : Z;
  method : string;
  path : string;
  headers : Dict.t string;
  body : string;
  user_agent : string;
  attack_type : string;
  session_id : string
}.

Definition SQL_INJECTION_PATTERNS : list string := [
  "(\%27)|(\')|(\-\-)|(\%23)|(#)";
  "((\%3D)|(=))[^\n]*((\%27)|(\')|(\-\-)|(\%3B)|(;))";
  "\w*((\%27)|(\'))((\%6F)|o|(\%4F))((\%72)|r|(\%52))";
  "((\%27)|(\'))union";
  "exec(\s|\+)+(s|x)p\w+";
  "UNION\s+SELECT";
  "SELECT\s+.*\s+FROM";
  "INSERT\s+INTO";
  "DELETE\s+FROM";
  "DROP\s+TABLE";
  "UPDATE\s+.*\s+SET";
  "OR\s+1\s*=\s*1";
  "OR\s+'[^']*'\s*=\s*'[^']*'"
].

Definition XSS_PATTERNS : list string := [
  "<script[^>]*>";
  "javascript:";
  "onerror\s*=";
  "onload\s*=";
  "onclick\s*=";
  "<iframe";
  "<img[^>]+onerror"
].

Definition PATH_TRAVERSAL_PATTERNS : list string := [
  "\.\./";
  "\.\.\\";
  "/etc/passwd";
  "/etc/shadow";
  "c:\\windows";
  "boot\.ini"
].

Definition SUSPICIOUS_PATHS : list string := [
  "/admin"; "/wp-admin"; "/wp-login.php"; "/phpmyadmin"; "/phpMyAdmin";
  "/.env"; "/config.php"; "/wp-config.php"; "/xmlrpc.php"; "/.git";
  "/.svn"; "/backup"; "/db"; "/sql"; "/shell"; "/cmd"; "/console";
  "/manager"; "/actuator"; "/api/v1/pods"; "/metrics"
].

(** What the logger receives for a request, or for an exception caught
    at the session boundary. *)
Inductive log_entry : Type :=
| LogInfo (session method path source_ip user_agent : string)
| LogWarning (session method path source_ip user_agent attack : string)
| LogError (e : exn).

Record HTTPHoneypot : Type := {
  max_connections : Z;
  active_connections : Z;
  events : list HTTPEvent;
  sql_patterns : list Re.pattern;
  xss_patterns : list Re.pattern;
  path_patterns : list Re.pattern;
  fake_services : Dict.t string;
  total_requests : Z;
  attacks_detected : Z
}.

(** ** Canned responses *)

Definition decimal (n : nat) : string :=
  NilEmpty.string_of_uint (Nat.to_uint n).

Definition _build_response (status_code : nat) (status_text body : string)
  : string :=
  let content_type :=
    if Py.startswith body "{" then "application/json" else "text/html" in
  "HTTP/1.1 " ++ decimal status_code ++ " " ++ status_text ++ Py.CRLF
  ++ "Content-Type: " ++ content_type ++ Py.CRLF
  ++ "Content-Length: " ++ decimal (String.length body) ++ Py.CRLF
  ++ "Server: Apache/2.4.41 (Ubuntu)" ++ Py.CRLF
  ++ "Connection: close" ++ Py.CRLF
  ++ Py.CRLF
  ++ body.

Definition _get_index_page : string :=
  "<!DOCTYPE html>" ++ Py.LF
  ++ "<html><head><title>Welcome</title></head>" ++ Py.LF
  ++ "<body><h1>Welcome to our service</h1><p>Please log in to continue.</p></body></html>".

Definition _get_login_page : string :=
  "<!DOCTYPE html>" ++ Py.LF
  ++ "<html><head><title>Admin Login</title></head>" ++ Py.LF
  ++ "<body><h1>Admin Login</h1>" ++ Py.LF
  ++ Py.q "<form method=`post`><input name=`user` placeholder=`Username`><input name=`pass` type=`password`><button>Login</button></form></body></html>".

Definition _get_wordpress_admin : string :=
  "<!DOCTYPE html>" ++ Py.LF
  ++ "<html><head><title>WordPress &rsaquo; Log In</title></head>" ++ Py.LF
  ++ Py.q "<body class=`login`><div id=`login`>" ++ Py.LF
  ++ Py.q "<h1><a href=`https://wordpress.org/`>WordPress</a></h1>" ++ Py.LF
  ++ Py.q "<form method=`post`><p><label>Username<input name=`log` type=`text`></label></p>" ++ Py.LF
  ++ Py.q "<p><label>Password<input name=`pwd` type=`password`></label></p>" ++ Py.LF
  ++ Py.q "<p><input type=`submit` value=`Log In`></p></form></div></body></html>".

Definition _get_phpmyadmin_page : string :=
  "<!DOCTYPE html>" ++ Py.LF
  ++ "<html><head><title>phpMyAdmin</title></head>" ++ Py.LF
  ++ Py.q "<body><div id=`pma_header`><h1>phpMyAdmin</h1></div>" ++ Py.LF
  ++ Py.q "<form method=`post`><input name=`pma_username` placeholder=`Username`>" ++ Py.LF
  ++ Py.q "<input name=`pma_password` type=`password`><button>Go</button></form></body></html>".

Definition _load_fake_services : Dict.t string := [
  ("/", _build_response 200 "OK" _get_index_page);
  ("/health", _build_response 200 "OK" (Py.q "{`status`: `healthy`}"));
  ("/ready", _build_response 200 "OK" (Py.q "{`ready`: true}"));
  ("/robots.txt",
    _build_response 200 "OK"
      ("User-agent: *" ++ Py.LF ++ "Disallow: /admin" ++ Py.LF
       ++ "Disallow: /api"));
  ("/admin", _build_response 401 "Unauthorized" _get_login_page);
  ("/wp-admin", _build_response 200 "OK" _get_wordpress_admin);
  ("/phpmyadmin", _build_response 200 "OK" _get_phpmyadmin_page);
  ("/api",
    _build_response 200 "OK"
      (Py.q "{`version`: `1.0`, `endpoints`: [`/users`, `/products`]}"))
].

Definition not_found : string :=
  _build_response 404 "Not Found"
    "<html><body><h1>404 Not Found</h1></body></html>".

(** [[re.compile(p, re.IGNORECASE) for p in srcs]]; [None] when a source
    does not compile. *)
Definition compile_all (srcs : list string) : option (list Re.pattern) :=
  mapM (Re.compile true) srcs.

(** [HTTPHoneypot.__init__] *)
Definition init (max_conn : Z) : option HTTPHoneypot :=
  sql ← compile_all SQL_INJECTION_PATTERNS;
  xss ← compile_all XSS_PATTERNS;
  pth ← compile_all PATH_TRAVERSAL_PATTERNS;
  Some {| max_connections := max_conn;
          active_connections := 0;
          events := [];
          sql_patterns := sql;
          xss_patterns := xss;
          path_patterns := pth;
          fake_services := _load_fake_services;
          total_requests := 0;
          attacks_detected := 0 |}.

(** ** Request parsing *)

(** The header loop of [parse_request]: [i] is the index of the line at
    the head of [lines]; the result is the dictionary and [body_start]
    (0 when no blank line was met). *)
Fixpoint parse_headers (lines : list string) (i : nat)
  (hdrs : Dict.t string) : Dict.t string * nat :=
  match lines with
  | [] => (hdrs, 0%nat)
  | line :: rest =>
      if String.eqb line "" then (hdrs, S i)
      else
        parse_headers rest (S i)
          match Py.split_once ": " line with
          | Some (key, value) => Dict.set key value hdrs
          | None => hdrs
          end
  end.

Definition parse_request (data : string)
  : option (string * string * Dict.t string * string) :=
  let lines := Py.split Py.CRLF data in
  match lines with
  | [] => None
  | line0 :: others =>
      match Py.split " " line0 with
      | m :: p :: _ =>
          let (hdrs, body_start) := parse_headers others 1 [] in
          let body :=
            if (body_start <? length lines)%nat
            then Py.join Py.CRLF (List.skipn body_start lines)
            else "" in
          Some (m, p, hdrs, body)
      | _ => None
      end
  end.

Section WithRuntime.

(** [urlparse(path).path], or [None] when [urlparse] raises. *)
Variable urlparse_path : string -> option string.

Definition full_input (path : string) (hdrs : Dict.t string)
  (body : string) : string :=
  path ++ " " ++ body ++ " " ++ Py.join " " (Dict.values hdrs).

(** ** The classifier *)
Definition detect_attack (hp : HTTPHoneypot) (path : string)
  (hdrs : Dict.t string) (body : string) : result string :=
  let input := full_input path hdrs body in
  if Re.any_search (sql_patterns hp) input then Ret "sql_injection"
  else if Re.any_search (xss_patterns hp) input then Ret "xss"
  else if Re.any_search (path_patterns hp) path then Ret "path_traversal"
  else
    match urlparse_path path with
    | None => Raise ValueError
    | Some p =>
        let parsed_path := Py.lower p in
        if existsb (fun suspicious =>
                      Py.contains parsed_path (Py.lower suspicious))
             SUSPICIOUS_PATHS
        then Ret "reconnaissance"
        else Ret ""
    end.

(** ** Response selection *)
Definition get_response (hp : HTTPHoneypot) (path : string)
  : result string :=
  match urlparse_path path with
  | None => Raise ValueError
  | Some parsed_path =>
      match Dict.get parsed_path (fake_services hp) with
      | Some r => Ret r
      | None =>
          match
            List.find
              (fun kv => Py.startswith parsed_path (fst kv)
                         && negb (String.eqb (fst kv) "/"))
              (fake_services hp)
          with
          | Some kv => Ret (snd kv)
          | None => Ret not_found
          end
      end
  end.

(** ** One connection *)

(** What [reader.read(8192)] yields within the deadline: a buffer
    (given by its decoding, errors ignored), end of stream, the
    deadline, or a broken connection. *)
Inductive read_result : Type :=
| Recv (text : string)
| Eof
| TimedOut
| Broken.

Record connection : Type := {
  client_ip : string;
  client_port : Z;
  session : string;            (* the session id drawn for it *)
  request : read_result;
  flushed : bool               (* the drain of the response returns *)
}.

Record outcome : Type := {
  after : HTTPHoneypot;
  sent : list string;          (* buffers written, in order *)
  logged : list log_entry;
  closed : bool
}.

Definition with_active (hp : HTTPHoneypot) (n : Z) : HTTPHoneypot :=
  {| max_connections := max_connections hp;
     active_connections := n;
     events := events hp;
     sql_patterns := sql_patterns hp;
     xss_patterns := xss_patterns hp;
     path_patterns := path_patterns hp;
     fake_services := fake_services hp;
     total_requests := total_requests hp;
     attacks_detected := attacks_detected hp |}.

Definition count_request (hp : HTTPHoneypot) : HTTPHoneypot :=
  {| max_connections := max_connections hp;
     active_connections := active_connections hp;
     events := events hp;
     sql_patterns := sql_patterns hp;
     xss_patterns := xss_patterns hp;
     path_patterns := path_patterns hp;
     fake_services := fake_services hp;
     total_requests := total_requests hp + 1;
     attacks_detected := attacks_detected hp |}.

Definition record_event (hp : HTTPHoneypot) (ev : HTTPEvent)
  : HTTPHoneypot :=
  {| max_connections := max_connections hp;
     active_connections := active_connections hp;
     events := events hp ++ [ev];
     sql_patterns := sql_patterns hp;
     xss_patterns := xss_patterns hp;
     path_patterns := path_patterns hp;
     fake_services := fake_services hp;
     total_requests := total_requests hp;
     attacks_detected :=
       if Py.nonempty (attack_type ev) then attacks_detected hp + 1
       else attacks_detected hp |}.

(** The [try] block of [handle_connection]: the state, the buffers
    written and the log lines it leaves behind. *)
Definition serve (hp : HTTPHoneypot) (c : connection)
  : HTTPHoneypot * list string * list log_entry :=
  match request c with
  | Eof | TimedOut => (hp, [], [])
  | Broken => (hp, [], [LogError ConnectionResetError])
  | Recv text =>
      match parse_request text with
      | None => (hp, [], [])
      | Some (m, p, hdrs, b) =>
          let hp := count_request hp in
          match detect_attack hp p hdrs b with
          | Raise e => (hp, [], [LogError e])
          | Ret attack =>
              let ua := Dict.get_default "User-Agent" "" hdrs in
              let ev :=
                {| event_type := "http_request";
                   source_ip := client_ip c;
                   source_port := client_port c;
                   method := m;
                   path := p;
                   headers := hdrs;
                   body := Py.take 1000 b;
                   user_agent := ua;
                   attack_type := attack;
                   session_id := session c |} in
              let line :=
                if Py.nonempty attack
                then LogWarning (session c) m p (client_ip c)
                       (Py.take 100 ua) attack
                else LogInfo (session c) m p (client_ip c)
                       (Py.take 100 ua) in
              let hp := record_event hp ev in
              match get_response hp p with
              | Raise e => (hp, [], [line; LogError e])
              | Ret response =>
                  if flushed c then (hp, [response], [line])
                  else (hp, [response],
                        [line; LogError ConnectionResetError])
              end
          end
      end
  end.

(** [HTTPHoneypot.handle_connection] *)
Definition handle_connection (hp : HTTPHoneypot) (c : connection)
  : outcome :=
  if (max_connections hp <=? active_connections hp)%Z
  then {| after := hp; sent := []; logged := []; closed := true |}
  else
    let hp1 := with_active hp (active_connections hp + 1) in
    let '(hp2, out, lines) := serve hp1 c in
    {| after := with_active hp2 (active_connections hp2 - 1);
       sent := out;
       logged := lines;
       closed := true |}.

End WithRuntime.

(** [HTTPHoneypot.get_metrics] *)
Definition get_metrics (hp : HTTPHoneypot) : Dict.t Z := [
  ("total_requests", total_requests hp);
  ("active_connections", active_connections hp);
  ("attacks_detected", attacks_detected hp)
].

End HTTP.

(* ===================================================================== *)
(** * The SSH honeypot (src/honeypots/ssh/honeypot.py) *)
(* ===================================================================== *)

Module SSH.

Local Open Scope Z_scope.
Local Open Scope list_scope.

(** The event of one login attempt (its timestamp is left out). *)
Record SSHEvent : Type := {
  event_type : string;
  source_ip : string;
  source_port : Z;
  username : string;
  password : string;
  command : string;
  session_id : string;
  success : bool
}.

(** The lines handed to the logger (the password digest of
    [login_attempt] is left out). *)
Inductive log_entry : Type :=
| ConnectionOpened (session ip : string) (port : Z)
| ClientVersion (session version : string)
| LoginAttempt (session user : string) (attempt : Z)
| IpBanned (ip : string) (duration : Z)
| Timeout (session : string)
| ConnectionReset (session : string)
| Error (session : string) (e : exn)
| ConnectionClosed (session : string).

Record SSHHoneypot : Type := {
  max_connections : Z;
  ban_time : Z;
  active_connections : Z;
  banned_ips : gmap string Z;
  events : list SSHEvent;
  total_connections : Z;
  failed_logins : Z;
  successful_logins : Z
}.

(** [SSHHoneypot.__init__] *)
Definition init (max_conn ban : Z) : SSHHoneypot :=
  {| max_connections := max_conn;
     ban_time := ban;
     active_connections := 0;
     banned_ips := ∅;
     events := [];
     total_connections := 0;
     failed_logins := 0;
     successful_logins := 0 |}.

Definition SSH_MSG_KEXINIT : Z := 20.
Definition SSH_MSG_USERAUTH_FAILURE : Z := 51.
Definition max_attempts : Z := 3.

Definition server_version : list byte :=
  list_byte_of_string
    ("SSH-2.0-OpenSSH_8.9p1 Ubuntu-3ubuntu0.1" ++ Py.CRLF)%string.

(** ** Bytes *)

Definition byte_of_Z (n : Z) : byte :=
  match Byte.of_N (Z.to_N (n mod 256)) with
  | Some b => b
  | None => x00
  end.

Definition Z_of_byte (b : byte) : Z := Z.of_N (Byte.to_N b).

(** [struct.pack(">I", n)], for [0 <= n < 2^32] (the arguments here are
    lengths of a few hundred at most). *)
Definition pack_be32 (n : Z) : list byte :=
  [byte_of_Z (n / 16777216); byte_of_Z (n / 65536);
   byte_of_Z (n / 256); byte_of_Z n].

(** [struct.pack("B", n)], for [0 <= n < 256]. *)
Definition pack_u8 (n : Z) : list byte := [byte_of_Z n].

Definition blen (b : list byte) : Z := Z.of_nat (length b).

(** [os.urandom]: the bytes are drawn from a stream, which each call
    advances. *)
Definition entropy : Type := nat -> byte.

Definition urandom (e : entropy) (n : Z) : list byte * entropy :=
  let k := Z.to_nat n in
  (map e (seq 0 k), fun i => e (k + i)%nat).

(** ** Packets *)

Definition kex_algorithms : list byte :=
  list_byte_of_string "curve25519-sha256,ecdh-sha2-nistp256".
Definition host_key_algorithms : list byte :=
  list_byte_of_string "ssh-ed25519,ssh-rsa".
Definition encryption : list byte :=
  list_byte_of_string "aes256-ctr,aes128-ctr".
Definition mac : list byte :=
  list_byte_of_string "hmac-sha2-256,hmac-sha1".
Definition compression : list byte := list_byte_of_string "none".
Definition languages : list byte := list_byte_of_string "".

Definition kexinit_payload (cookie : list byte) : list byte :=
  [byte_of_Z SSH_MSG_KEXINIT] ++ cookie
  ++ concat
       (map (fun algo => pack_be32 (blen algo) ++ algo)
          [kex_algorithms; host_key_algorithms; encryption; encryption;
           mac; mac; compression; compression; languages; languages])
  ++ [x00]
  ++ [x00; x00; x00; x00].

(** [SSHHoneypot.build_kexinit] *)
Definition build_kexinit (e : entropy) : list byte * entropy :=
  let (cookie, e) := urandom e 16 in
  let payload := kexinit_payload cookie in
  let packet_len := blen payload + 1 in
  let padding_len := 8 - ((packet_len + 4) mod 8) in
  let padding_len :=
    if padding_len <? 4 then padding_len + 8 else padding_len in
  let (padding, e) := urandom e padding_len in
  (pack_be32 (packet_len + padding_len) ++ pack_u8 padding_len
   ++ payload ++ padding, e).

Definition auth_failure_payload : list byte :=
  [byte_of_Z SSH_MSG_USERAUTH_FAILURE]
  ++ pack_be32 17
  ++ list_byte_of_string "password,keyboard"
  ++ [byte_of_Z 0].

(** [SSHHoneypot.build_auth_failure] *)
Definition build_auth_failure (e : entropy) : list byte * entropy :=
  let payload := auth_failure_payload in
  let packet_len := blen payload + 1 in
  let padding_len := 8 - ((packet_len + 4) mod 8) in
  let padding_len :=
    if padding_len <? 4 then padding_len + 8 else padding_len in
  let (padding, e) := urandom e padding_len in
  (pack_be32 (packet_len + padding_len) ++ pack_u8 padding_len
   ++ payload ++ padding, e).

(** Reading a packet back, as a peer does: the length field, the padding
    length, the payload and the padding; [None] when the buffer is not
    exactly one packet. *)
Record packet : Type := {
  packet_length : Z;
  padding_length : Z;
  payload : list byte;
  padding : list byte
}.

Definition unpack_be32 (b : list byte) : option Z :=
  match b with
  | [b3; b2; b1; b0] =>
      Some (Z_of_byte b3 * 16777216 + Z_of_byte b2 * 65536
            + Z_of_byte b1 * 256 + Z_of_byte b0)
  | _ => None
  end.

Definition read_packet (buf : list byte) : option packet :=
  match unpack_be32 (firstn 4 buf), skipn 4 buf with
  | Some len, pad :: rest =>
      let p := Z_of_byte pad in
      let n := len - 1 - p in
      if (0 <=? n) && (blen rest =? len - 1)
      then Some {| packet_length := len;
                   padding_length := p;
                   payload := firstn (Z.to_nat n) rest;
                   padding := skipn (Z.to_nat n) rest |}
      else None
  | _, _ => None
  end.

(** ** The credential extractor *)

(** The loop body of [parse_auth_packet], on the pair
    [(username, password)]. *)
Definition scan_part (acc : string * string) (part : string)
  : string * string :=
  let (username, password) := acc in
  if Py.nonempty part && (Py.len part <? 64) then
    if negb (Py.nonempty username) && Py.isalnum part
    then (part, password)
    else if Py.nonempty username && negb (Py.nonempty password)
    then (username, part)
    else acc
  else acc.

(** [SSHHoneypot.parse_auth_packet], from the decoded text on. *)
Definition parse_auth_packet (text : string) : option (string * string) :=
  let parts := Py.split Py.NUL text in
  let (username, password) := fold_left scan_part parts ("", "") in
  if Py.nonempty username then Some (username, password) else None.

(** ** The ban table *)

(** [SSHHoneypot.is_banned], at clock reading [now]. *)
Definition is_banned (hp : SSHHoneypot) (ip : string) (now : Z)
  : bool * SSHHoneypot :=
  match banned_ips hp !! ip with
  | Some until =>
      if now <? until then (true, hp)
      else (false,
            {| max_connections := max_connections hp;
               ban_time := ban_time hp;
               active_connections := active_connections hp;
               banned_ips := delete ip (banned_ips hp);
               events := events hp;
               total_connections := total_connections hp;
               failed_logins := failed_logins hp;
               successful_logins := successful_logins hp |})
  | None => (false, hp)
  end.

(** [SSHHoneypot.ban_ip], at clock reading [now]. *)
Definition ban_ip (hp : SSHHoneypot) (ip : string) (now : Z)
  : SSHHoneypot * log_entry :=
  ({| max_connections := max_connections hp;
      ban_time := ban_time hp;
      active_connections := active_connections hp;
      banned_ips := <[ip := now + ban_time hp]> (banned_ips hp);
      events := events hp;
      total_connections := total_connections hp;
      failed_logins := failed_logins hp;
      successful_logins := successful_logins hp |},
   IpBanned ip (ban_time hp)).

(** ** One session *)

(** What [reader.read(4096)] yields within the 60 s deadline.  A buffer
    is given by its decoding; [flushed] tells whether the drain of the
    reply written for it returns (it is consulted only when a reply is
    written). *)
Inductive read_result : Type :=
| Recv (text : string) (flushed : bool)
| Eof
| TimedOut
| Reset.

(** What [reader.readline()] yields for the client banner within 30 s.
    At end of stream it yields the empty line. *)
Inductive banner_result : Type :=
| Banner (text : string)
| BannerTimedOut
| BannerFailed (e : exn).

Record peer : Type := {
  client_ip : string;
  client_port : Z;
  session : string;              (* the session id drawn for it *)
  t_accept : Z;                  (* the clock when admission is checked *)
  t_ban : Z;                     (* the clock when the loop is left *)
  version_flushed : bool;        (* the drain of the server banner *)
  client_version : banner_result;
  kexinit_flushed : bool         (* the drain of KEXINIT *)
}.

(** The honeypot, the entropy left, the buffers written and the lines
    logged so far. *)
Record world : Type := {
  hp : SSHHoneypot;
  rng : entropy;
  sent : list (list byte);
  logged : list log_entry
}.

Definition write (w : world) (buf : list byte) (e : entropy) : world :=
  {| hp := hp w; rng := e; sent := sent w ++ [buf];
     logged := logged w |}.

Definition log (w : world) (l : log_entry) : world :=
  {| hp := hp w; rng := rng w; sent := sent w;
     logged := logged w ++ [l] |}.

Definition set_hp (w : world) (h : SSHHoneypot) : world :=
  {| hp := h; rng := rng w; sent := sent w; logged := logged w |}.

(** [self.events.append(event); self.failed_logins += 1] *)
Definition record_attempt (h : SSHHoneypot) (ev : SSHEvent)
  : SSHHoneypot :=
  {| max_connections := max_connections h;
     ban_time := ban_time h;
     active_connections := active_connections h;
     banned_ips := banned_ips h;
     events := events h ++ [ev];
     total_connections := total_connections h;
     failed_logins := failed_logins h + 1;
     successful_logins := successful_logins h |}.

Definition login_event (c : peer) (user pass : string) : SSHEvent :=
  {| event_type := "ssh_login_attempt";
     source_ip := client_ip c;
     source_port := client_port c;
     username := user;
     password := pass;
     command := "";
     session_id := session c;
     success := false |}.

(** How a block of code is left: by falling off its end, or by an
    exception that propagates. *)
Inductive exit : Type :=
| Normal
| Raised (e : exn).

(** The [while login_attempts < max_attempts] loop of
    [simulate_handshake]; a script that runs out is a peer that stays
    silent until the deadline.  The result carries the final value of
    [login_attempts]. *)
Fixpoint auth_loop (c : peer) (w : world) (login_attempts : Z)
  (reads : list read_result) : world * Z * exit :=
  if login_attempts <? max_attempts then
    match reads with
    | [] | TimedOut :: _ | Eof :: _ => (w, login_attempts, Normal)
    | Reset :: _ => (w, login_attempts, Raised ConnectionResetError)
    | Recv text flushed :: rest =>
        match parse_auth_packet text with
        | Some (user, pass) =>
            let w := log w (LoginAttempt (session c) user
                              (login_attempts + 1)) in
            let w := set_hp w (record_attempt (hp w)
                                 (login_event c user pass)) in
            let login_attempts := login_attempts + 1 in
            let (reply, e) := build_auth_failure (rng w) in
            let w := write w reply e in
            if flushed then auth_loop c w login_attempts rest
            else (w, login_attempts, Raised ConnectionResetError)
        | None => auth_loop c w login_attempts rest
        end
    end
  else (w, login_attempts, Normal).

(** [SSHHoneypot.simulate_handshake] *)
Definition simulate_handshake (c : peer) (w : world)
  (reads : list read_result) : world * exit :=
  let (kexinit, e) := build_kexinit (rng w) in
  let w := write w kexinit e in
  if negb (kexinit_flushed c) then (w, Raised ConnectionResetError)
  else
    let '(w, login_attempts, how) := auth_loop c w 0 reads in
    match how with
    | Raised e => (w, Raised e)
    | Normal =>
        if max_attempts <=? login_attempts then
          let (h, l) := ban_ip (hp w) (client_ip c) (t_ban c) in
          (log (set_hp w h) l, Normal)
        else (w, Normal)
    end.

Definition set_active (h : SSHHoneypot) (n : Z) : SSHHoneypot :=
  {| max_connections := max_connections h;
     ban_time := ban_time h;
     active_connections := n;
     banned_ips := banned_ips h;
     events := events h;
     total_connections := total_connections h;
     failed_logins := failed_logins h;
     successful_logins := successful_logins h |}.

Definition count_connection (h : SSHHoneypot) : SSHHoneypot :=
  {| max_connections := max_connections h;
     ban_time := ban_time h;
     active_connections := active_connections h + 1;
     banned_ips := banned_ips h;
     events := events h;
     total_connections := total_connections h + 1;
     failed_logins := failed_logins h;
     successful_logins := successful_logins h |}.

(** The [try] block of [handle_connection]. *)
Definition greet (c : peer) (w : world) (reads : list read_result)
  : world * exit :=
  let w := write w server_version (rng w) in
  if negb (version_flushed c) then (w, Raised ConnectionResetError)
  else
    match client_version c with
    | BannerTimedOut => (w, Raised TimeoutError)
    | BannerFailed e => (w, Raised e)
    | Banner text =>
        let w := log w (ClientVersion (session c) (Py.strip text)) in
        simulate_handshake c w reads
    end.

Record outcome : Type := {
  final : world;
  accepted : bool;               (* the dialog was started *)
  closed : bool                  (* [writer.close()] was called *)
}.

(** [SSHHoneypot.handle_connection] *)
Definition handle_connection (h : SSHHoneypot) (e : entropy) (c : peer)
  (reads : list read_result) : outcome :=
  let w0 := {| hp := h; rng := e; sent := []; logged := [] |} in
  let (banned, h) := is_banned h (client_ip c) (t_accept c) in
  if banned then
    {| final := set_hp w0 h; accepted := false; closed := true |}
  else if max_connections h <=? active_connections h then
    {| final := set_hp w0 h; accepted := false; closed := true |}
  else
    let w := set_hp w0 (count_connection h) in
    let w := log w (ConnectionOpened (session c) (client_ip c)
                      (client_port c)) in
    let (w, how) := greet c w reads in
    let w :=
      match how with
      | Normal => w
      | Raised TimeoutError => log w (Timeout (session c))
      | Raised ConnectionResetError => log w (ConnectionReset (session c))
      | Raised e => log w (Error (session c) e)
      end in
    let w := set_hp w (set_active (hp w) (active_connections (hp w) - 1)) in
    {| final := log w (ConnectionClosed (session c));
       accepted := true;
       closed := true |}.

(** [SSHHoneypot.get_metrics] *)
Definition get_metrics (h : SSHHoneypot) : Dict.t Z := [
  ("total_connections", total_connections h);
  ("active_connections", active_connections h);
  ("failed_logins", failed_logins h);
  ("successful_logins", successful_logins h);
  ("banned_ips", Z.of_nat (size (banned_ips h)))
].

End SSH.

(* ===================================================================== *)
(** * The SMTP honeypot (src/honeypots/smtp/honeypot.py) *)
(* ===================================================================== *)

Module SMTP.

Local Open Scope Z_scope.
Local Open Scope list_scope.

(** A reference to a list object.  The event built at the end of a
    message holds the very list that later RCPT commands extend, so the
    lists live in a store and are named by their index. *)
Definition ref : Type := nat.

(** The event of one message (its timestamp is left out). *)
Record SMTPEvent : Type := {
  event_type : string;
  source_ip : string;
  source_port : Z;
  mail_from : string;
  rcpt_to : ref;
  subject : string;
  message_size : Z;
  session_id : string
}.

Inductive log_entry : Type :=
| ConnectionOpened (session ip : string)
| MessageReceived (session from : string) (rcpt : ref)
    (subject : string) (size : Z)
| MailFrom (session address : string)
| RcptTo (session address : string)
| AuthAttempt (session command : string)
| Error (e : exn)
| ConnectionClosed (session : string).

Record SMTPHoneypot : Type := {
  max_message_size : Z;
  active_connections : Z;
  events : list SMTPEvent;
  hostname : string;
  total_connections : Z;
  total_messages : Z
}.

(** [SMTPHoneypot.__init__]; [host] is the HOSTNAME of the environment. *)
Definition init (max_size : Z) (host : string) : SMTPHoneypot :=
  {| max_message_size := max_size;
     active_connections := 0;
     events := [];
     hostname := host;
     total_connections := 0;
     total_messages := 0 |}.

(** [SMTPHoneypot.extract_address] *)
Definition extract_address (line : string) : string :=
  match Py.find line "<", Py.find line ">" with
  | Some start, Some stop => Py.slice (start + 1) stop line
  | _, _ =>
      match Py.split ":" line with
      | _ :: part :: _ => Py.strip_chars "<>" (Py.strip part)
      | _ => ""
      end
  end.

(** [SMTPHoneypot.extract_subject] *)
Definition extract_subject (message : string) : string :=
  match
    List.find (fun line => Py.startswith (Py.lower line) "subject:")
      (Py.split Py.LF message)
  with
  | Some line => Py.strip (Py.drop 8 line)
  | None => ""
  end.

(** What [reader.readline()] yields within the 300 s deadline.  A line
    is given by its decoding, line end included; [flushed] tells whether
    the drain of the response written for it returns. *)
Inductive read_result : Type :=
| Line (text : string) (flushed : bool)
| Eof
| TimedOut
| Failed (e : exn).

Record peer : Type := {
  client_ip : string;
  client_port : Z;
  session : string;
  greeting_flushed : bool
}.

Record world : Type := {
  hp : SMTPHoneypot;
  store : list (list string);
  sent : list string;
  logged : list log_entry
}.

(** The local variables of [handle_connection]. *)
Record vars : Type := {
  v_mail_from : string;
  v_rcpt_to : ref;
  in_data : bool;
  message_data : list string
}.

Inductive exit : Type :=
| Normal
| Raised (e : exn).

Definition log (w : world) (l : log_entry) : world :=
  {| hp := hp w; store := store w; sent := sent w;
     logged := logged w ++ [l] |}.

(** [send_response]: the line is written, then drained. *)
Definition send_response (w : world) (message : string) : world :=
  {| hp := hp w; store := store w;
     sent := sent w ++ [(message ++ Py.CRLF)%string];
     logged := logged w |}.

Definition set_hp (w : world) (h : SMTPHoneypot) : world :=
  {| hp := h; store := store w; sent := sent w; logged := logged w |}.

(** A fresh empty list. *)
Definition alloc (w : world) : world * ref :=
  ({| hp := hp w; store := store w ++ [[]]; sent := sent w;
      logged := logged w |}, length (store w)).

(** [l.append(x)] on the list object [r]. *)
Definition append_to (w : world) (r : ref) (x : string) : world :=
  {| hp := hp w;
     store := alter (fun l => l ++ [x]) r (store w);
     sent := sent w; logged := logged w |}.

Definition record_message (h : SMTPHoneypot) (ev : SMTPEvent)
  : SMTPHoneypot :=
  {| max_message_size := max_message_size h;
     active_connections := active_connections h;
     events := events h ++ [ev];
     hostname := hostname h;
     total_connections := total_connections h;
     total_messages := total_messages h + 1 |}.

(** The branch [if in_data:] for a line other than ".": the line is
    kept when the text gathered so far is below the cap. *)
Definition gather (h : SMTPHoneypot) (message_data : list string)
  (line : string) : list string :=
  if Py.len (Py.join Py.LF message_data) <? max_message_size h
  then message_data ++ [line]
  else message_data.

(** The command word: [line.upper().split()[0] if line else ""]. *)
Definition command_of (line : string) : string :=
  match line with
  | "" => ""
  | _ => hd "" (Py.split_ws (Py.upper line))
  end.

(** The [while True] loop of [handle_connection]. *)
Fixpoint dialog (c : peer) (w : world) (v : vars)
  (reads : list read_result) : world * vars * exit :=
  match reads with
  | [] | Eof :: _ | TimedOut :: _ => (w, v, Normal)
  | Failed e :: _ => (w, v, Raised e)
  | Line raw flushed :: rest =>
      let line := Py.strip raw in
      (* a response was written: go on if its drain returns *)
      let answered (w : world) (v : vars) :=
        if flushed then dialog c w v rest
        else (w, v, Raised ConnectionResetError) in
      if in_data v then
        if String.eqb line "." then
          let message := Py.join Py.LF (message_data v) in
          let subj := extract_subject message in
          let ev :=
            {| event_type := "smtp_message";
               source_ip := client_ip c;
               source_port := client_port c;
               mail_from := v_mail_from v;
               rcpt_to := v_rcpt_to v;
               subject := subj;
               message_size := Py.len message;
               session_id := session c |} in
          let w := set_hp w (record_message (hp w) ev) in
          let w := log w (MessageReceived (session c) (v_mail_from v)
                            (v_rcpt_to v) (Py.take 100 subj)
                            (Py.len message)) in
          let w := send_response w "250 OK: Message queued" in
          if flushed then
            dialog c w
              {| v_mail_from := v_mail_from v; v_rcpt_to := v_rcpt_to v;
                 in_data := false; message_data := [] |} rest
          else
            (w, {| v_mail_from := v_mail_from v;
                   v_rcpt_to := v_rcpt_to v;
                   in_data := false;
                   message_data := message_data v |},
             Raised ConnectionResetError)
        else
          dialog c w
            {| v_mail_from := v_mail_from v; v_rcpt_to := v_rcpt_to v;
               in_data := true;
               message_data := gather (hp w) (message_data v) line |}
            rest
      else
        let command := command_of line in
        if String.eqb command "HELO" || String.eqb command "EHLO" then
          answered (send_response w ("250 " ++ hostname (hp w))%string) v
        else if String.eqb command "MAIL" then
          let address := extract_address line in
          let w := log w (MailFrom (session c) address) in
          answered (send_response w "250 OK")
            {| v_mail_from := address; v_rcpt_to := v_rcpt_to v;
               in_data := false; message_data := message_data v |}
        else if String.eqb command "RCPT" then
          let rcpt := extract_address line in
          let w := append_to w (v_rcpt_to v) rcpt in
          let w := log w (RcptTo (session c) rcpt) in
          answered (send_response w "250 OK") v
        else if String.eqb command "DATA" then
          answered
            (send_response w
               "354 Start mail input; end with <CRLF>.<CRLF>")
            {| v_mail_from := v_mail_from v; v_rcpt_to := v_rcpt_to v;
               in_data := true; message_data := message_data v |}
        else if String.eqb command "RSET" then
          let (w, r) := alloc w in
          answered (send_response w "250 OK")
            {| v_mail_from := ""; v_rcpt_to := r;
               in_data := false; message_data := [] |}
        else if String.eqb command "NOOP" then
          answered (send_response w "250 OK") v
        else if String.eqb command "QUIT" then
          let w := send_response w "221 Bye" in
          if flushed then (w, v, Normal)
          else (w, v, Raised ConnectionResetError)
        else if String.eqb command "VRFY" then
          answered (send_response w "252 Cannot VRFY user") v
        else if String.eqb command "AUTH" then
          let w := log w (AuthAttempt (session c) line) in
          answered (send_response w "235 Authentication successful") v
        else
          answered (send_response w "500 Command not recognized") v
  end.

Definition set_active (h : SMTPHoneypot) (n : Z) : SMTPHoneypot :=
  {| max_message_size := max_message_size h;
     active_connections := n;
     events := events h;
     hostname := hostname h;
     total_connections := total_connections h;
     total_messages := total_messages h |}.

Definition count_connection (h : SMTPHoneypot) : SMTPHoneypot :=
  {| max_message_size := max_message_size h;
     active_connections := active_connections h + 1;
     events := events h;
     hostname := hostname h;
     total_connections := total_connections h + 1;
     total_messages := total_messages h |}.

Record outcome : Type := {
  final : world;
  locals : vars;
  closed : bool
}.

(** [SMTPHoneypot.handle_connection]; [lists] is the store of the list
    objects alive when the connection is accepted. *)
Definition handle_connection (h : SMTPHoneypot)
  (lists : list (list string)) (c : peer) (reads : list read_result)
  : outcome :=
  let w := {| hp := count_connection h; store := lists; sent := [];
              logged := [] |} in
  let w := log w (ConnectionOpened (session c) (client_ip c)) in
  let (w, r) := alloc w in
  let v := {| v_mail_from := ""; v_rcpt_to := r; in_data := false;
              message_data := [] |} in
  let w := send_response w
             ("220 " ++ hostname (hp w) ++ " ESMTP ready")%string in
  let '(w, v, how) :=
    if greeting_flushed c then dialog c w v reads
    else (w, v, Raised ConnectionResetError) in
  let w := match how with
           | Normal => w
           | Raised e => log w (Error e)
           end in
  let w := set_hp w (set_active (hp w) (active_connections (hp w) - 1)) in
  {| final := log w (ConnectionClosed (session c));
     locals := v;
     closed := true |}.

(** [SMTPHoneypot.get_metrics] *)
Definition get_metrics (h : SMTPHoneypot) : Dict.t Z := [
  ("total_connections", total_connections h);
  ("active_connections", active_connections h);
  ("total_messages", total_messages h)
].

End SMTP.

(* ===================================================================== *)
(** * The MySQL honeypot (src/honeypots/database/honeypot.py) *)
(* ===================================================================== *)

Module MySQL.

Local Open Scope Z_scope.
Local Open Scope list_scope.

Definition byte_of_Z (n : Z) : byte :=
  match Byte.of_N (Z.to_N (n mod 256)) with
  | Some b => b
  | None => x00
  end.

Definition Z_of_byte (b : byte) : Z := Z.of_N (Byte.to_N b).

Definition blen (b : list byte) : Z := Z.of_nat (length b).

(** [struct.pack("<I", n)], for [0 <= n < 2^32]. *)
Definition pack_le32 (n : Z) : list byte :=
  [byte_of_Z n; byte_of_Z (n / 256); byte_of_Z (n / 65536);
   byte_of_Z (n / 16777216)].

(** [struct.pack("<H", n)], for [0 <= n < 2^16]. *)
Definition pack_le16 (n : Z) : list byte :=
  [byte_of_Z n; byte_of_Z (n / 256)].

(** [MySQLHoneypot.build_ok_packet] *)
Definition build_ok_packet : list byte :=
  let packet :=
    [byte_of_Z 0]              (* OK header *)
    ++ [byte_of_Z 0]           (* affected rows *)
    ++ [byte_of_Z 0]           (* last insert id *)
    ++ pack_le16 2             (* status flags *)
    ++ pack_le16 0 in          (* warnings *)
  let header := firstn 3 (pack_le32 (blen packet)) ++ [x02] in
  header ++ packet.

(** [MySQLHoneypot.build_empty_result] *)
Definition build_empty_result : list byte :=
  let col_count := [x01; x00; x00; x01; x01] in
  let col_def :=
    [x03] ++ list_byte_of_string "def"      (* catalog *)
    ++ [byte_of_Z 0]                        (* schema *)
    ++ [byte_of_Z 0]                        (* table *)
    ++ [byte_of_Z 0]                        (* org_table *)
    ++ [x06] ++ list_byte_of_string "result" (* name *)
    ++ [byte_of_Z 0]                        (* org_name *)
    ++ [byte_of_Z 12]                       (* length of fixed fields *)
    ++ pack_le16 33                         (* charset *)
    ++ pack_le32 255                        (* column length *)
    ++ [byte_of_Z 253]                      (* column type *)
    ++ pack_le16 0                          (* flags *)
    ++ [byte_of_Z 0]                        (* decimals *)
    ++ [x00; x00] in                        (* filler *)
  let col_header := firstn 3 (pack_le32 (blen col_def)) ++ [x02] in
  let eof := [x05; x00; x00; x03; xfe; x00; x00; x02; x00] in
  let eof2 := [x05; x00; x00; x04; xfe; x00; x00; x02; x00] in
  col_count ++ (col_header ++ col_def) ++ eof ++ eof2.

(** [MySQLHoneypot.build_query_response] *)
Definition build_query_response (query : string) : list byte :=
  let query_lower := Py.strip (Py.lower query) in
  if Py.startswith query_lower "select"
  then build_empty_result
  else build_ok_packet.

Section WithCodec.

(** [bytes.decode("utf-8", errors="ignore")] *)
Variable decode : list byte -> string.

(** [MySQLHoneypot.parse_query_packet] *)
Definition parse_query_packet (data : list byte) : option string :=
  if (length data <? 5)%nat then None
  else
    match nth_error data 4 with
    | Some x03 => Some (Py.strip (decode (skipn 5 data)))
    | _ => None
    end.

(** What one turn of [handle_queries] writes for a buffer: nothing when
    no query is parsed, or when the query parsed is empty. *)
Definition respond (data : list byte) : option (list byte) :=
  match parse_query_packet data with
  | Some query =>
      if Py.nonempty query then Some (build_query_response query) else None
  | None => None
  end.

End WithCodec.

(** The decoding of a buffer of ASCII bytes, on which concrete packets are
    run (bytes above 0x7F, for which the runtime's decoder is needed, are
    dropped). *)
Definition decode_ascii (data : list byte) : string :=
  string_of_list_byte
    (List.filter (fun b => (Byte.to_N b <? 128)%N) data).

(** A COM_QUERY packet for a query text. *)
Definition com_query (seq : Z) (text : string) : list byte :=
  let body := x03 :: list_byte_of_string text in
  firstn 3 (pack_le32 (blen body)) ++ [byte_of_Z seq] ++ body.

(** ** Reading the wire format back *)

Record packet : Type := {
  sequence_id : Z;
  payload : list byte
}.

(** A buffer as a sequence of packets: three bytes of little-endian
    payload length, the sequence id, the payload.  [fuel] bounds the
    number of packets. *)
Fixpoint read_packets (fuel : nat) (buf : list byte)
  : option (list packet) :=
  match buf with
  | [] => Some []
  | b0 :: b1 :: b2 :: sq :: rest =>
      let n := Z.to_nat (Z_of_byte b0 + Z_of_byte b1 * 256
                         + Z_of_byte b2 * 65536) in
      match fuel with
      | O => None
      | S fuel' =>
          if (n <=? length rest)%nat then
            match read_packets fuel' (skipn n rest) with
            | Some ps =>
                Some ({| sequence_id := Z_of_byte sq;
                         payload := firstn n rest |} :: ps)
            | None => None
            end
          else None
      end
  | _ => None
  end.

(** A length-encoded string whose length fits one byte. *)
Definition read_lenenc (buf : list byte)
  : option (list byte * list byte) :=
  match buf with
  | n :: rest =>
      let k := Z.to_nat (Z_of_byte n) in
      if (Z_of_byte n <? 251) && (k <=? length rest)%nat
      then Some (firstn k rest, skipn k rest)
      else None
  | [] => None
  end.

Record column : Type := {
  catalog : list byte;
  name : list byte;
  charset : Z;
  column_length : Z;
  column_type : Z
}.

(** A column definition (protocol 4.1): six length-encoded strings, the
    length of the fixed fields, then character set, column length, type,
    flags, decimals and two filler bytes. *)
Definition read_column (buf : list byte) : option column :=
  '(cat, buf) ← read_lenenc buf;
  '(_, buf) ← read_lenenc buf;
  '(_, buf) ← read_lenenc buf;
  '(_, buf) ← read_lenenc buf;
  '(nm, buf) ← read_lenenc buf;
  '(_, buf) ← read_lenenc buf;
  match buf with
  | [fixed; c0; c1; l0; l1; l2; l3; ty; _; _; _; _; _] =>
      if Z_of_byte fixed =? 12 then
        Some {| catalog := cat;
                name := nm;
                charset := Z_of_byte c0 + Z_of_byte c1 * 256;
                column_length :=
                  Z_of_byte l0 + Z_of_byte l1 * 256
                  + Z_of_byte l2 * 65536 + Z_of_byte l3 * 16777216;
                column_type := Z_of_byte ty |}
      else None
  | _ => None
  end.

Definition MYSQL_TYPE_VAR_STRING : Z := 253.

Definition is_eof (p : list byte) : bool :=
  match p with
  | xfe :: _ => (length p <? 9)%nat
  | _ => false
  end.

(** ** The honeypot *)

Definition SQL_INJECTION_PATTERNS : list string := [
  "UNION\s+SELECT";
  "OR\s+1\s*=\s*1";
  "OR\s+'[^']*'\s*=\s*'[^']*'";
  ";\s*DROP\s+TABLE";
  ";\s*DELETE\s+FROM";
  "--\s*$";
  "SLEEP\s*\(";
  "BENCHMARK\s*\(";
  "LOAD_FILE\s*\(";
  "INTO\s+OUTFILE";
  "INTO\s+DUMPFILE";
  "information_schema";
  "CONCAT\s*\(";
  "CHAR\s*\(";
  "0x[0-9a-fA-F]+"
].

(** The event of one interaction (its timestamp is left out). *)
Record DBEvent : Type := {
  event_type : string;
  source_ip : string;
  source_port : Z;
  protocol : string;
  username : string;
  database : string;
  query : string;
  is_injection : bool;
  session_id : string
}.

Record MySQLHoneypot : Type := {
  max_connections : Z;
  active_connections : Z;
  events : list DBEvent;
  connection_id : Z;
  injection_patterns : list Re.anchored;
  total_connections : Z;
  total_queries : Z;
  injections_detected : Z
}.

(** [MySQLHoneypot.__init__]; [None] when a pattern source does not
    compile. *)
Definition init (max_conn : Z) : option MySQLHoneypot :=
  patterns ← mapM (Re.compile_anchored true) SQL_INJECTION_PATTERNS;
  Some {| max_connections := max_conn;
          active_connections := 0;
          events := [];
          connection_id := 0;
          injection_patterns := patterns;
          total_connections := 0;
          total_queries := 0;
          injections_detected := 0 |}.

Definition MYSQL_PROTOCOL_VERSION : Z := 10.

Definition MYSQL_SERVER_VERSION : list byte :=
  list_byte_of_string "5.7.38-0ubuntu0.18.04.1".

(** [os.urandom], as for the SSH packets. *)
Definition entropy : Type := SSH.entropy.

Definition urandom : entropy -> Z -> list byte * entropy := SSH.urandom.

(** [MySQLHoneypot.build_greeting_packet], for a connection id that
    [struct.pack("<I", ...)] accepts. *)
Definition build_greeting_packet (conn_id : Z) (e : entropy)
  : list byte * entropy :=
  let (part1, e) := urandom e 8 in
  let (part2, e) := urandom e 12 in
  let packet :=
    [byte_of_Z MYSQL_PROTOCOL_VERSION]       (* protocol version *)
    ++ MYSQL_SERVER_VERSION ++ [byte_of_Z 0] (* server version *)
    ++ pack_le32 conn_id                     (* connection id *)
    ++ part1                                 (* auth plugin data, part 1 *)
    ++ [byte_of_Z 0]                         (* filler *)
    ++ pack_le16 63487                       (* capability flags, lower *)
    ++ [byte_of_Z 33]                        (* character set *)
    ++ pack_le16 2                           (* status flags *)
    ++ pack_le16 129                         (* capability flags, upper *)
    ++ [byte_of_Z 21]                        (* length of auth plugin data *)
    ++ repeat x00 10                         (* reserved *)
    ++ part2 ++ [byte_of_Z 0]                (* auth plugin data, part 2 *)
    ++ list_byte_of_string "mysql_native_password"
    ++ [byte_of_Z 0] in
  let header := firstn 3 (pack_le32 (blen packet)) ++ [x00] in
  (header ++ packet, e).

(** The index of the first [b] in [data]. *)
Fixpoint index_of (b : byte) (data : list byte) : option nat :=
  match data with
  | [] => None
  | x :: rest =>
      if Byte.eqb x b then Some 0%nat else option_map S (index_of b rest)
  end.

(** [data.find(bytes([b]), start)], with [None] for -1. *)
Definition find_from (b : byte) (data : list byte) (start : nat)
  : option nat :=
  option_map (Nat.add start) (index_of b (skipn start data)).

(** [data[a:b]] for non-negative bounds. *)
Definition bslice (a b : nat) (data : list byte) : list byte :=
  firstn (b - a) (skipn a data).

Section WithDecoder.

(** [bytes.decode("utf-8", errors="ignore")] *)
Variable decode : list byte -> string.

(** [MySQLHoneypot.parse_auth_packet] *)
Definition parse_auth_packet (data : list byte) : string * string :=
  if (length data <? 36)%nat then ("unknown", "")%string
  else
    match find_from x00 data 36 with
    | None => ("unknown", "")%string
    | Some username_end =>
        let user := decode (bslice 36 username_end data) in
        let offset := S username_end in
        let offset :=
          match nth_error data offset with
          | Some auth_len =>
              (offset + Z.to_nat (Z_of_byte auth_len) + 1)%nat
          | None => offset
          end in
        let db :=
          if (offset <? length data)%nat then
            match find_from x00 data offset with
            | Some db_end => decode (bslice offset db_end data)
            | None => ""%string
            end
          else ""%string in
        (user, db)
    end.

(** [MySQLHoneypot.detect_injection] *)
Definition detect_injection (h : MySQLHoneypot) (q : string) : bool :=
  existsb (fun p => Re.search_anchored p q) (injection_patterns h).

(** ** One session *)

(** The lines handed to the logger. *)
Inductive log_entry : Type :=
| ConnectionOpened (session ip : string)
| AuthAttempt (session user db : string)
| SqlQuery (session shown : string) (attack : bool)
| Error (e : exn).

(** What [reader.read(n)] yields within its deadline: a buffer and
    whether the drain of the reply written for it returns (consulted only
    when a reply is written), end of stream, the deadline, or a broken
    connection.  A read never yields an empty buffer but at end of
    stream. *)
Inductive read_result : Type :=
| Recv (data : list byte) (flushed : bool)
| Eof
| TimedOut
| Reset.

Record peer : Type := {
  client_ip : string;
  client_port : Z;
  session : string;              (* the session id drawn for it *)
  greeting_flushed : bool;       (* the drain of the greeting *)
  auth : read_result             (* the read of the auth packet *)
}.

Record world : Type := {
  hp : MySQLHoneypot;
  rng : entropy;
  sent : list (list byte);
  logged : list log_entry
}.

Inductive exit : Type :=
| Normal
| Raised (e : exn).

Definition write (w : world) (buf : list byte) : world :=
  {| hp := hp w; rng := rng w; sent := sent w ++ [buf];
     logged := logged w |}.

Definition log (w : world) (l : log_entry) : world :=
  {| hp := hp w; rng := rng w; sent := sent w;
     logged := logged w ++ [l] |}.

Definition set_hp (w : world) (h : MySQLHoneypot) : world :=
  {| hp := h; rng := rng w; sent := sent w; logged := logged w |}.

(** [self.events.append(event)] *)
Definition record_event (h : MySQLHoneypot) (ev : DBEvent)
  : MySQLHoneypot :=
  {| max_connections := max_connections h;
     active_connections := active_connections h;
     events := events h ++ [ev];
     connection_id := connection_id h;
     injection_patterns := injection_patterns h;
     total_connections := total_connections h;
     total_queries := total_queries h;
     injections_detected := injections_detected h |}.

(** [self.total_queries += 1] *)
Definition count_query (h : MySQLHoneypot) : MySQLHoneypot :=
  {| max_connections := max_connections h;
     active_connections := active_connections h;
     events := events h;
     connection_id := connection_id h;
     injection_patterns := injection_patterns h;
     total_connections := total_connections h;
     total_queries := total_queries h + 1;
     injections_detected := injections_detected h |}.

(** [self.injections_detected += 1] *)
Definition count_injection (h : MySQLHoneypot) : MySQLHoneypot :=
  {| max_connections := max_connections h;
     active_connections := active_connections h;
     events := events h;
     connection_id := connection_id h;
     injection_patterns := injection_patterns h;
     total_connections := total_connections h;
     total_queries := total_queries h;
     injections_detected := injections_detected h + 1 |}.

Definition auth_event (c : peer) (user db : string) : DBEvent :=
  {| event_type := "db_auth";
     source_ip := client_ip c;
     source_port := client_port c;
     protocol := "mysql";
     username := user;
     database := db;
     query := "";
     is_injection := false;
     session_id := session c |}.

Definition query_event (c : peer) (q : string) (attack : bool) : DBEvent :=
  {| event_type := "sql_query";
     source_ip := client_ip c;
     source_port := client_port c;
     protocol := "mysql";
     username := "";
     database := "";
     query := q;
     is_injection := attack;
     session_id := session c |}.

(** [MySQLHoneypot.handle_queries]; a script that runs out is a peer
    that stays silent until the deadline. *)
Fixpoint handle_queries (c : peer) (w : world) (reads : list read_result)
  : world * exit :=
  match reads with
  | [] | Eof :: _ | TimedOut :: _ | Recv [] _ :: _ => (w, Normal)
  | Reset :: _ => (w, Raised ConnectionResetError)
  | Recv data flushed :: rest =>
      match parse_query_packet decode data with
      | Some q =>
          if Py.nonempty q then
            let w := set_hp w (count_query (hp w)) in
            let attack := detect_injection (hp w) q in
            let w :=
              if attack then set_hp w (count_injection (hp w)) else w in
            let w := log w (SqlQuery (session c) (Py.take 200 q) attack) in
            let w := set_hp w (record_event (hp w)
                                 (query_event c q attack)) in
            let w := write w (build_query_response q) in
            if flushed then handle_queries c w rest
            else (w, Raised ConnectionResetError)
          else handle_queries c w rest
      | None => handle_queries c w rest
      end
  end.

(** The [try] block of [handle_connection]. *)
Definition converse (c : peer) (w : world) (reads : list read_result)
  : world * exit :=
  let (greeting, e) := build_greeting_packet (connection_id (hp w)) (rng w) in
  let w := write {| hp := hp w; rng := e; sent := sent w;
                    logged := logged w |} greeting in
  if negb (greeting_flushed c) then (w, Raised ConnectionResetError)
  else
    match auth c with
    | TimedOut => (w, Raised TimeoutError)
    | Reset => (w, Raised ConnectionResetError)
    | Eof | Recv [] _ => (w, Normal)
    | Recv auth_data flushed =>
        let (user, db) := parse_auth_packet auth_data in
        let w := log w (AuthAttempt (session c) user db) in
        let w := set_hp w (record_event (hp w) (auth_event c user db)) in
        let w := write w build_ok_packet in
        if flushed then handle_queries c w reads
        else (w, Raised ConnectionResetError)
    end.

Definition set_active (h : MySQLHoneypot) (n : Z) : MySQLHoneypot :=
  {| max_connections := max_connections h;
     active_connections := n;
     events := events h;
     connection_id := connection_id h;
     injection_patterns := injection_patterns h;
     total_connections := total_connections h;
     total_queries := total_queries h;
     injections_detected := injections_detected h |}.

(** [self.active_connections += 1; self.total_connections += 1;
    self.connection_id += 1] *)
Definition count_connection (h : MySQLHoneypot) : MySQLHoneypot :=
  {| max_connections := max_connections h;
     active_connections := active_connections h + 1;
     events := events h;
     connection_id := connection_id h + 1;
     injection_patterns := injection_patterns h;
     total_connections := total_connections h + 1;
     total_queries := total_queries h;
     injections_detected := injections_detected h |}.

Record outcome : Type := {
  final : world;
  accepted : bool;               (* the dialog was started *)
  closed : bool                  (* [writer.close()] was called *)
}.

(** [MySQLHoneypot.handle_connection] *)
Definition handle_connection (h : MySQLHoneypot) (e : entropy) (c : peer)
  (reads : list read_result) : outcome :=
  let w0 := {| hp := h; rng := e; sent := []; logged := [] |} in
  if max_connections h <=? active_connections h then
    {| final := w0; accepted := false; closed := true |}
  else
    let w := set_hp w0 (count_connection h) in
    let w := log w (ConnectionOpened (session c) (client_ip c)) in
    let (w, how) := converse c w reads in
    let w :=
      match how with
      | Normal | Raised TimeoutError => w
      | Raised e => log w (Error e)
      end in
    {| final := set_hp w (set_active (hp w) (active_connections (hp w) - 1));
       accepted := true;
       closed := true |}.

End WithDecoder.

(** [MySQLHoneypot.get_metrics] *)
Definition get_metrics (h : MySQLHoneypot) : Dict.t Z := [
  ("total_connections", total_connections h);
  ("active_connections", active_connections h);
  ("total_queries", total_queries h);
  ("injections_detected", injections_detected h)
].

End MySQL.

(* ===================================================================== *)
(** * Python values, and reference instances of [json.loads] and [int] *)
(* ===================================================================== *)

(** The values that JSON text decodes to.  A float is kept as its
    literal. *)
#[warnings="-register-all"] Inductive pyval : Type :=
| VNone
| VBool (b : bool)
| VInt (n : Z)
| VFloat (literal : string)
| VStr (s : string)
| VList (l : list pyval)
| VDict (d : list (string * pyval)).

(** [bool(v)] *)
Definition truthy (v : pyval) : bool :=
  match v with
  | VNone => false
  | VBool b => b
  | VInt n => negb (n =? 0)%Z
  | VFloat _ => true
  | VStr s => Py.nonempty s
  | VList l => match l with [] => false | _ => true end
  | VDict d => match d with [] => false | _ => true end
  end.

(** The decoder and the integer parser of the runtime are parameters of
    the API handler; these are the instances on which concrete requests
    are run.  [Json.loads] is a decoder for the JSON grammar as the [json]
    module reads it (strict strings, the NaN and Infinity literals); an
    escape above U+00FF has no character in the text model and is
    refused.  [None] stands for the exception raised. *)
Module Json.

Local Open Scope list_scope.

Definition ws (c : ascii) : bool :=
  Py.is_code 32 c || Py.is_code 9 c || Py.is_code 10 c || Py.is_code 13 c.

Definition skip_ws (s : string) : string := Py.lstrip_with ws s.

Definition hex_digit (c : ascii) : option N :=
  if Py.in_range 48 57 c then Some (Py.code c - 48)%N
  else if Py.in_range 97 102 c then Some (Py.code c - 87)%N
  else if Py.in_range 65 70 c then Some (Py.code c - 55)%N
  else None.

Definition hex4 (a b c d : ascii) : option N :=
  x3 ← hex_digit a; x2 ← hex_digit b; x1 ← hex_digit c; x0 ← hex_digit d;
  Some (x3 * 4096 + x2 * 256 + x1 * 16 + x0)%N.

Definition escape (c : ascii) : option ascii :=
  if Ascii.eqb c Py.dquote then Some Py.dquote
  else if Ascii.eqb c "\" then Some "\"%char
  else if Ascii.eqb c "/" then Some "/"%char
  else if Ascii.eqb c "b" then Some (ascii_of_N 8)
  else if Ascii.eqb c "f" then Some (ascii_of_N 12)
  else if Ascii.eqb c "n" then Some (ascii_of_N 10)
  else if Ascii.eqb c "r" then Some (ascii_of_N 13)
  else if Ascii.eqb c "t" then Some (ascii_of_N 9)
  else None.

(** The body of a string, after the opening quote. *)
Fixpoint string_body (n : nat) (s : string) (acc : string)
  : option (string * string) :=
  match n with
  | O => None
  | S n' =>
      match s with
      | "" => None
      | String "\" (String "u" (String a (String b (String c (String d rest))))) =>
          match hex4 a b c d with
          | Some v =>
              if (v <? 256)%N
              then string_body n' rest (acc ++ String (ascii_of_N v) "")%string
              else None
          | None => None
          end
      | String "\" (String c rest) =>
          match escape c with
          | Some x => string_body n' rest (acc ++ String x "")%string
          | None => None
          end
      | String c rest =>
          if Ascii.eqb c Py.dquote then Some (acc, rest)
          else if Py.in_range 0 31 c then None
          else string_body n' rest (acc ++ String c "")%string
      end
  end.

Fixpoint digits (s : string) : string * string :=
  match s with
  | String c rest =>
      if Py.isdigit_ascii c
      then let (d, r) := digits rest in (String c d, r)
      else ("", s)
  | "" => ("", "")
  end.

Fixpoint Z_of_digits (s : string) (acc : Z) : Z :=
  match s with
  | "" => acc
  | String c r => Z_of_digits r (10 * acc + Z.of_N (Py.code c - 48))%Z
  end.

(** The integer part of a number: a zero, or digits not led by zero. *)
Definition int_part (s : string) : option (string * string) :=
  match s with
  | String "0" rest => Some ("0"%string, rest)
  | _ => match digits s with
         | (""%string, _) => None
         | (d, r) => Some (d, r)
         end
  end.

Definition frac_part (s : string) : string * string :=
  match s with
  | String "." rest =>
      match digits rest with
      | (""%string, _) => (""%string, s)
      | (d, r) => (String "." d, r)
      end
  | _ => (""%string, s)
  end.

Definition exp_part (s : string) : string * string :=
  match s with
  | String e rest =>
      if Ascii.eqb e "e" || Ascii.eqb e "E" then
        let (sign, rest') :=
          match rest with
          | String "+" r => ("+"%string, r)
          | String "-" r => ("-"%string, r)
          | _ => (""%string, rest)
          end in
        match digits rest' with
        | (""%string, _) => (""%string, s)
        | (d, r) => ((String e sign ++ d)%string, r)
        end
      else (""%string, s)
  | "" => (""%string, s)
  end.

Definition number (s : string) : option (pyval * string) :=
  let (neg, s1) :=
    match s with String "-" r => (true, r) | _ => (false, s) end in
  match int_part s1 with
  | None => None
  | Some (i, s2) =>
      let (f, s3) := frac_part s2 in
      let (e, s4) := exp_part s3 in
      match f, e with
      | ""%string, ""%string =>
          Some (VInt (if neg then - Z_of_digits i 0 else Z_of_digits i 0)%Z,
                s4)
      | _, _ =>
          Some (VFloat ((if neg then "-" else "") ++ i ++ f ++ e)%string, s4)
      end
  end.

Definition literal (s : string) : option (pyval * string) :=
  if String.prefix "null" s then Some (VNone, Py.drop 4 s)
  else if String.prefix "true" s then Some (VBool true, Py.drop 4 s)
  else if String.prefix "false" s then Some (VBool false, Py.drop 5 s)
  else
    match number s with
    | Some r => Some r
    | None =>
        if String.prefix "NaN" s then Some (VFloat "nan", Py.drop 3 s)
        else if String.prefix "Infinity" s
        then Some (VFloat "inf", Py.drop 8 s)
        else if String.prefix "-Infinity" s
        then Some (VFloat "-inf", Py.drop 9 s)
        else None
    end.

Fixpoint value (n : nat) (s : string) : option (pyval * string) :=
  match n with
  | O => None
  | S n' =>
      match s with
      | "" => None
      | String c rest =>
          if Ascii.eqb c Py.dquote then
            match string_body (String.length rest) rest "" with
            | Some (str, r) => Some (VStr str, r)
            | None => None
            end
          else if Ascii.eqb c "{" then
            match skip_ws rest with
            | String "}" r => Some (VDict [], r)
            | r => members n' r []
            end
          else if Ascii.eqb c "[" then
            match skip_ws rest with
            | String "]" r => Some (VList [], r)
            | r => elements n' r []
            end
          else literal s
      end
  end
with members (n : nat) (s : string) (acc : list (string * pyval))
  : option (pyval * string) :=
  match n with
  | O => None
  | S n' =>
      match s with
      | String c rest =>
          if Ascii.eqb c Py.dquote then
            match string_body (String.length rest) rest "" with
            | Some (key, r1) =>
                match skip_ws r1 with
                | String ":" r2 =>
                    match value n' (skip_ws r2) with
                    | Some (v, r3) =>
                        let acc := Dict.set key v acc in
                        match skip_ws r3 with
                        | String "," r4 => members n' (skip_ws r4) acc
                        | String "}" r4 => Some (VDict acc, r4)
                        | _ => None
                        end
                    | None => None
                    end
                | _ => None
                end
            | None => None
            end
          else None
      | "" => None
      end
  end
with elements (n : nat) (s : string) (acc : list pyval)
  : option (pyval * string) :=
  match n with
  | O => None
  | S n' =>
      match value n' s with
      | Some (v, r1) =>
          match skip_ws r1 with
          | String "," r2 => elements n' (skip_ws r2) (acc ++ [v])
          | String "]" r2 => Some (VList (acc ++ [v]), r2)
          | _ => None
          end
      | None => None
      end
  end.


End Json.

(** [int(s)] for a text: surrounding white space, a sign, decimal digits
    with single underscores between them.  [None] stands for
    [ValueError]. *)
Module Int.



End Int.

(** The instance of [bytes.decode()] on which concrete requests are run:
    UTF-8, strict, for the buffers whose text lies in the range of the
    text model, that is ASCII bytes and the two-byte sequences of
    U+0080..U+00FF.  [None] stands for UnicodeDecodeError.  A sequence
    for a code point above U+00FF has no text in the model; this
    instance is not run on such buffers. *)
Module Utf8.

Fixpoint decode (data : list byte) : option string :=
  match data with
  | [] => Some ""
  | b :: rest =>
      let n := Byte.to_N b in
      if (n <? 128)%N then option_map (String (ascii_of_N n)) (decode rest)
      else if ((n =? 194) || (n =? 195))%N then
        match rest with
        | c :: rest' =>
            let m := Byte.to_N c in
            if ((128 <=? m) && (m <? 192))%N
            then option_map
                   (String (ascii_of_N ((n - 192) * 64 + (m - 128))))
                   (decode rest')
            else None
        | [] => None
        end
      else None
  end.

End Utf8.

(* ===================================================================== *)
(** * The decoy e-commerce API (src/ecommerce/api/server.py) *)
(* ===================================================================== *)

Module API.

Local Open Scope Z_scope.
Local Open Scope list_scope.

Definition PRODUCTS : list pyval := [
  VDict [("id", VInt 1); ("name", VStr "Laptop Pro");
         ("price", VFloat "999.99"); ("stock", VInt 50)];
  VDict [("id", VInt 2); ("name", VStr "Smartphone X");
         ("price", VFloat "699.99"); ("stock", VInt 100)];
  VDict [("id", VInt 3); ("name", VStr "Tablet Air");
         ("price", VFloat "499.99"); ("stock", VInt 75)];
  VDict [("id", VInt 4); ("name", VStr "Wireless Earbuds");
         ("price", VFloat "149.99"); ("stock", VInt 200)]
].

Definition USERS : Dict.t string :=
  [("admin", "admin123"); ("user", "password"); ("test", "test123")].

(** The body handed to [send_json]: a value, or the dictionary
    [{"error": str(e)}] made from a caught exception. *)
Inductive reply : Type :=
| Json (v : pyval)
| ErrorOf (e : exn).

Record response : Type := {
  status : Z;
  content : reply
}.

Inductive log_entry : Type :=
| Request (client method path : string)          (* log_message *)
| SuspiciousAccess (path client : string)
| LoginAttempt (username : pyval) (client : string)
| Search (query : pyval) (client : string)
| SqlInjectionAttempt (query : pyval) (client : string).

Definition is_warning (l : log_entry) : bool :=
  match l with
  | SuspiciousAccess _ _ | LoginAttempt _ _ | SqlInjectionAttempt _ _ =>
      true
  | Request _ _ _ | Search _ _ => false
  end.

(** A request as the handler finds it: the request line and the headers
    are parsed, the body is still to be read.  [rfile] holds the bytes
    that arrive after the headers until the peer stops sending (a read
    that waits for bytes a silent peer never sends does not return, and
    is not a run of the handler). *)
Record request : Type := {
  client : string;               (* client_address[0] *)
  command : string;              (* GET or POST *)
  target : string;               (* self.path *)
  content_length : option string;(* the Content-Length header, if any *)
  rfile : list byte              (* what self.rfile yields *)
}.


(** What a handler leaves behind: the response sent and the lines
    logged, in order. *)
Definition handled : Type := response * list log_entry.

(** [send_json]: logs the request line, then writes the response. *)
Definition send_json (r : request) (logs : list log_entry)
  (data : reply) (st : Z) : handled :=
  ({| status := st; content := data |},
   logs ++ [Request (client r) (command r) (target r)]).

Definition error_body (msg : string) : reply :=
  Json (VDict [("error", VStr msg)]).

(** [p["id"] == product_id] *)
Definition has_id (product_id : Z) (p : pyval) : bool :=
  match p with
  | VDict d =>
      match Dict.get "id" d with
      | Some (VInt n) => n =? product_id
      | _ => false
      end
  | _ => false
  end.

(** [data.get(key, "")]; a value that is not a dictionary has no [get]. *)
Definition py_get (data : pyval) (key : string) : result pyval :=
  match data with
  | VDict d => Ret (Dict.get_default key (VStr "") d)
  | _ => Raise AttributeError
  end.

(** [query[:200]] *)
Definition slice200 (query : pyval) : result pyval :=
  match query with
  | VStr s => Ret (VStr (Py.take 200 s))
  | VList l => Ret (VList (firstn 200 l))
  | _ => Raise TypeError
  end.

(** [query.lower()] *)
Definition py_lower (query : pyval) : result string :=
  match query with
  | VStr s => Ret (Py.lower s)
  | _ => Raise AttributeError
  end.

Definition sql_patterns : list string :=
  ["union"; "select"; "drop"; "delete"; "--"; "or 1=1"].

(** The form fields of a body: [k=v] pairs separated by [&]. *)
Definition parse_form (body : string) : Dict.t pyval :=
  fold_left
    (fun data pair =>
       match Py.split_once "=" pair with
       | Some (k, v) => Dict.set k (VStr v) data
       | None => data
       end)
    (Py.split "&" body) [].

Section WithRuntime.

(** [urlparse(s).path], [json.loads(s)] and [int(s)]; [None] when the
    call raises. *)
Variable urlparse_path : string -> option string.
Variable json_loads : string -> option pyval.
Variable int_of_str : string -> option Z.

(** [bytes.decode()], UTF-8 and strict; [None] when it raises. *)
Variable decode : list byte -> option string.


(** [APIHandler.do_GET]; [Raise] when the exception of [urlparse]
    leaves the handler. *)
Definition do_GET (r : request) : result handled :=
  match urlparse_path (target r) with
  | None => Raise ValueError
  | Some path =>
      Ret
        (if String.eqb path "/api/products" then
           send_json r [] (Json (VDict [("products", VList PRODUCTS)]))
             200
         else if Py.startswith path "/api/products/" then
           match int_of_str (List.last (Py.split "/" path) "") with
           | Some product_id =>
               match List.find (has_id product_id) PRODUCTS with
               | Some product =>
                   if truthy product
                   then send_json r [] (Json product) 200
                   else send_json r [] (error_body "Product not found")
                          404
               | None =>
                   send_json r [] (error_body "Product not found") 404
               end
           | None => send_json r [] (error_body "Invalid product ID") 400
           end
         else if String.eqb path "/api/health" then
           send_json r [] (Json (VDict [("status", VStr "healthy")])) 200
         else if String.eqb path "/api/config" then
           send_json r [SuspiciousAccess path (client r)]
             (Json (VDict [("db_host", VStr "db.internal.local");
                           ("db_user", VStr "app_user");
                           ("db_name", VStr "ecommerce");
                           ("api_key", VStr "sk-fake-api-key-12345")]))
             200
         else send_json r [] (error_body "Not found") 404)
  end.


(** The [try] block of the search branch; the lines logged before an
    exception stay logged. *)
Definition search (r : request) (body : string)
  : handled + (exn * list log_entry) :=
  match
    (if Py.nonempty body
     then match json_loads body with
          | Some v => Ret v
          | None => Raise JSONDecodeError
          end
     else Ret (VDict []))
  with
  | Raise e => inr (e, [])
  | Ret data =>
      match py_get data "q" with
      | Raise e => inr (e, [])
      | Ret query =>
          match slice200 query with
          | Raise e => inr (e, [])
          | Ret shown =>
              let logs := [Search shown (client r)] in
              match py_lower query with
              | Raise e => inr (e, logs)
              | Ret lowered =>
                  let logs :=
                    if existsb (fun p => Py.contains lowered p)
                         sql_patterns
                    then logs ++ [SqlInjectionAttempt shown (client r)]
                    else logs in
                  inl (send_json r logs
                         (Json (VDict [("results", VList [])])) 200)
              end
          end
      end
  end.


End WithRuntime.

End API.

(* ===================================================================== *)
(** * Statements *)
(* ===================================================================== *)

(** The notions in which the properties below are stated, and the inputs
    on which the listeners are run. *)
Module Spec.

Local Open Scope Z_scope.
Local Open Scope list_scope.

(** ** SSH framing *)

(** The padding computed by both packet builders for a packet whose
    payload and padding-length byte take [packet_len] bytes. *)
Definition padding_for (packet_len : Z) : Z :=
  let padding_len := 8 - ((packet_len + 4) mod 8) in
  if padding_len <? 4 then padding_len + 8 else padding_len.

(** [p] is the least padding of at least 4 bytes that makes the length
    field (4 bytes) and the packet (padding-length byte, payload,
    padding) a multiple of 8. *)
Definition least_padding (payload_len p : Z) : Prop :=
  4 <= p
  /\ (4 + (1 + payload_len + p)) mod 8 = 0
  /\ forall q, 4 <= q -> (4 + (1 + payload_len + q)) mod 8 = 0 -> p <= q.

(** [buf] is one SSH packet carrying message [msg], whose length field
    counts the padding-length byte, the payload and the padding, and
    whose padding is the least admissible one. *)
Definition well_padded (buf : list byte) (msg : Z) : Prop :=
  exists pk,
    SSH.read_packet buf = Some pk
    /\ head (SSH.payload pk) = Some (SSH.byte_of_Z msg)
    /\ SSH.packet_length pk
       = 1 + SSH.blen (SSH.payload pk) + SSH.padding_length pk
    /\ SSH.blen (SSH.padding pk) = SSH.padding_length pk
    /\ SSH.padding_length pk = padding_for (SSH.blen (SSH.payload pk) + 1)
    /\ least_padding (SSH.blen (SSH.payload pk)) (SSH.padding_length pk).

(** ** SSH sessions *)

(** A buffer from which credentials are recovered and whose reply is
    flushed. *)
Definition answered (r : SSH.read_result) : bool :=
  match r with
  | SSH.Recv text true =>
      match SSH.parse_auth_packet text with
      | Some _ => true
      | None => false
      end
  | _ => false
  end.

(** A buffer from which no username is recovered: a parse failure. *)
Definition unparsed (r : SSH.read_result) : bool :=
  match r with
  | SSH.Recv text _ =>
      match SSH.parse_auth_packet text with
      | Some _ => false
      | None => true
      end
  | _ => false
  end.

(** The script lets the loop record three login attempts: it is made of
    answered buffers and of parse failures, three of them answered. *)
Definition three_attempts (reads : list SSH.read_result) : Prop :=
  Forall (fun r => answered r || unparsed r = true) reads
  /\ length (List.filter answered reads) = 3%nat.

(** The connection is accepted and the dialog reaches the
    authentication loop. *)
Definition reaches_auth (h : SSH.SSHHoneypot) (c : SSH.peer) : Prop :=
  fst (SSH.is_banned h (SSH.client_ip c) (SSH.t_accept c)) = false
  /\ SSH.active_connections h < SSH.max_connections h
  /\ SSH.version_flushed c = true
  /\ (exists v, SSH.client_version c = SSH.Banner v)
  /\ SSH.kexinit_flushed c = true.

(** What the loop leaves untouched, and what it counts. *)
Definition loop_inv (w w' : SSH.world) (k : Z) : Prop :=
  SSH.banned_ips (SSH.hp w') = SSH.banned_ips (SSH.hp w)
  /\ SSH.ban_time (SSH.hp w') = SSH.ban_time (SSH.hp w)
  /\ SSH.max_connections (SSH.hp w') = SSH.max_connections (SSH.hp w)
  /\ SSH.active_connections (SSH.hp w') = SSH.active_connections (SSH.hp w)
  /\ SSH.failed_logins (SSH.hp w') = SSH.failed_logins (SSH.hp w) + k
  /\ Z.of_nat (length (SSH.events (SSH.hp w')))
     = Z.of_nat (length (SSH.events (SSH.hp w))) + k.

(** A peer of the brute-force scenario, and the buffers it sends. *)
Definition ssh_peer : SSH.peer :=
  {| SSH.client_ip := "10.0.0.7";
     SSH.client_port := 40022;
     SSH.session := "0123456789abcdef";
     SSH.t_accept := 1000;
     SSH.t_ban := 1030;
     SSH.version_flushed := true;
     SSH.client_version := SSH.Banner "SSH-2.0-libssh_0.9.6";
     SSH.kexinit_flushed := true |}.

Definition credentials (user pass : string) : string :=
  Py.NUL ++ user ++ Py.NUL ++ pass ++ Py.NUL.

Definition no_entropy : SSH.entropy := fun _ => x00.

(** A session with a parse failure after the first attempt. *)
Definition interrupted_script : list SSH.read_result :=
  [SSH.Recv (credentials "user" "pass") true;
   SSH.Recv (Py.NUL ++ Py.NUL) true;
   SSH.Recv (credentials "root" "toor") true;
   SSH.Eof].

(** A session with three attempts and a parse failure among them. *)
Definition brute_force_script : list SSH.read_result :=
  [SSH.Recv (credentials "root" "root") true;
   SSH.Recv (Py.NUL ++ Py.NUL) true;
   SSH.Recv (credentials "root" "toor") true;
   SSH.Recv (credentials "admin" "admin") true].

(** ** SMTP sessions *)

Definition smtp_peer : SMTP.peer :=
  {| SMTP.client_ip := "10.0.0.7";
     SMTP.client_port := 40025;
     SMTP.session := "0123456789abcdef";
     SMTP.greeting_flushed := true |}.

(** A line as the peer sends it, answered without error. *)
Definition sent_line (text : string) : SMTP.read_result :=
  SMTP.Line (text ++ Py.CRLF) true.

Fixpoint filler (n : nat) : string :=
  match n with
  | O => ""
  | S k => String "a" (filler k)
  end.

(** A message of two lines, the first one byte short of the cap. *)
Definition oversize_script (max_size : Z) : list SMTP.read_result :=
  [sent_line "DATA";
   sent_line (filler (Z.to_nat (max_size - 1)));
   sent_line "b";
   sent_line "."].

(** The sizes of the messages recorded by a session. *)
Definition message_sizes (o : SMTP.outcome) : list Z :=
  map SMTP.message_size (SMTP.events (SMTP.hp (SMTP.final o))).

(** ** MySQL result set *)

(** [buf] is an empty result set for one varchar column named
    [result]: a column count of 1, the column definition, and two EOF
    packets, numbered 1 to 4. *)
Definition empty_result_set (buf : list byte) : Prop :=
  exists count coldef eof1 eof2 col,
    MySQL.read_packets 8 buf = Some [count; coldef; eof1; eof2]
    /\ map MySQL.sequence_id [count; coldef; eof1; eof2] = [1; 2; 3; 4]
    /\ MySQL.payload count = [x01]
    /\ MySQL.read_column (MySQL.payload coldef) = Some col
    /\ MySQL.name col = list_byte_of_string "result"
    /\ MySQL.column_type col = MySQL.MYSQL_TYPE_VAR_STRING
    /\ MySQL.is_eof (MySQL.payload eof1) = true
    /\ MySQL.is_eof (MySQL.payload eof2) = true.

Record ok : Type := {
  ok_affected_rows : Z;
  ok_last_insert_id : Z;
  ok_status_flags : Z;
  ok_warnings : Z
}.

(** The payload of an OK packet (protocol 4.1): the header 0x00, the
    affected rows and the last insert id as length-encoded integers
    (one byte each below 251), then the status flags and the number of
    warnings, 16 bits each in little-endian order, and nothing else. *)
Definition read_ok (payload : list byte) : option ok :=
  match payload with
  | [x00; rows; id; s0; s1; w0; w1] =>
      if (MySQL.Z_of_byte rows <? 251) && (MySQL.Z_of_byte id <? 251)
      then Some {| ok_affected_rows := MySQL.Z_of_byte rows;
                   ok_last_insert_id := MySQL.Z_of_byte id;
                   ok_status_flags :=
                     MySQL.Z_of_byte s0 + MySQL.Z_of_byte s1 * 256;
                   ok_warnings :=
                     MySQL.Z_of_byte w0 + MySQL.Z_of_byte w1 * 256 |}
      else None
  | _ => None
  end.

(** [buf] is the OK packet of the specification: one packet with
    sequence number 2 that reads as no affected row, no insert id, the
    status flags 0x0002 and no warning. *)
Definition ok_packet (buf : list byte) : Prop :=
  exists pk,
    MySQL.read_packets 8 buf = Some [pk]
    /\ MySQL.sequence_id pk = 2
    /\ read_ok (MySQL.payload pk)
       = Some {| ok_affected_rows := 0; ok_last_insert_id := 0;
                 ok_status_flags := 2; ok_warnings := 0 |}.

(** The test the specification words: the query, lowercased and trimmed
    of leading white space, begins with [select]. *)
Definition begins_with_select (query : string) : bool :=
  Py.startswith (Py.lstrip (Py.lower query)) "select".

(** ** HTTP classifier *)

(** Categories tried in order: the tag of the first one whose test
    holds, the empty tag when none does.  A test is run only when those
    before it have failed; a test that raises ends the search. *)
Fixpoint first_match (cats : list (string * (unit -> result bool)))
  : result string :=
  match cats with
  | [] => Ret ""
  | (tag, test) :: rest =>
      match test tt with
      | Ret true => Ret tag
      | Ret false => first_match rest
      | Raise e => Raise e
      end
  end.

(** The URL path contains one of the suspicious paths, case ignored. *)
Definition suspicious (p : string) : bool :=
  existsb (fun s => Py.contains (Py.lower p) (Py.lower s))
    HTTP.SUSPICIOUS_PATHS.

(** The four categories of the classifier, in their order of
    precedence. *)
Definition categories (urlparse_path : string -> option string)
  (hp : HTTP.HTTPHoneypot) (path : string) (hdrs : Dict.t string)
  (body : string) : list (string * (unit -> result bool)) :=
  let input := HTTP.full_input path hdrs body in
  [("sql_injection",
     fun _ => Ret (Re.any_search (HTTP.sql_patterns hp) input));
   ("xss", fun _ => Ret (Re.any_search (HTTP.xss_patterns hp) input));
   ("path_traversal",
     fun _ => Ret (Re.any_search (HTTP.path_patterns hp) path));
   ("reconnaissance",
     fun _ => match urlparse_path path with
              | Some p => Ret (suspicious p)
              | None => Raise ValueError
              end)].

(** The patterns that a list of sources compiles to. *)
Definition compiled (srcs : list string) : list Re.pattern :=
  match HTTP.compile_all srcs with
  | Some ps => ps
  | None => []
  end.

(** The honeypot as [__init__] leaves it. *)
Definition http_honeypot (max_conn : Z) : HTTP.HTTPHoneypot :=
  {| HTTP.max_connections := max_conn;
     HTTP.active_connections := 0;
     HTTP.events := [];
     HTTP.sql_patterns := compiled HTTP.SQL_INJECTION_PATTERNS;
     HTTP.xss_patterns := compiled HTTP.XSS_PATTERNS;
     HTTP.path_patterns := compiled HTTP.PATH_TRAVERSAL_PATTERNS;
     HTTP.fake_services := HTTP._load_fake_services;
     HTTP.total_requests := 0;
     HTTP.attacks_detected := 0 |}.

(** The request of the SQL injection scenario. *)
Definition sqli_target : string := "/search?q=1%20UNION%20SELECT%201".


Definition http_connection (text : string) : HTTP.connection :=
  {| HTTP.client_ip := "10.0.0.7";
     HTTP.client_port := 40000;
     HTTP.session := "0123456789abcdef";
     HTTP.request := HTTP.Recv text;
     HTTP.flushed := true |}.


(** A target that [urlparse] rejects. *)
Definition bracket_request : string :=
  "GET //[ HTTP/1.1" ++ Py.CRLF ++ Py.CRLF.

(** Two requests that differ in the order of their two headers. *)
Definition union_select_request : string :=
  "GET / HTTP/1.1" ++ Py.CRLF ++ "A: UNION" ++ Py.CRLF
  ++ "B: SELECT" ++ Py.CRLF ++ Py.CRLF.

Definition select_union_request : string :=
  "GET / HTTP/1.1" ++ Py.CRLF ++ "B: SELECT" ++ Py.CRLF
  ++ "A: UNION" ++ Py.CRLF ++ Py.CRLF.

(** ** Decoy API *)

Definition reply (st : Z) (data : API.reply) : API.response :=
  {| API.status := st; API.content := data |}.

Definition request_line (r : API.request) : API.log_entry :=
  API.Request (API.client r) (API.command r) (API.target r).









(** The body of a form: the fields as [k=v], joined by [&]. *)
Definition form_body (fields : list (string * string)) : string :=
  Py.join "&" (map (fun kv => (fst kv ++ "=" ++ snd kv)%string) fields).

(** The dictionary that assigning the fields in order builds. *)
Definition assigned (fields : list (string * string)) : Dict.t pyval :=
  fold_left (fun d kv => Dict.set (fst kv) (VStr (snd kv)) d) fields [].

(** The configuration that the decoy endpoint discloses. *)
Definition decoy_config : pyval :=
  VDict [("db_host", VStr "db.internal.local");
         ("db_user", VStr "app_user");
         ("db_name", VStr "ecommerce");
         ("api_key", VStr "sk-fake-api-key-12345")].

(** ** SSH credentials *)

(** A part that the credential scan considers: not empty, and shorter
    than 64 characters. *)
Definition candidate (part : string) : bool :=
  Py.nonempty part && (Py.len part <? 64).

(** The credentials in a list of parts: the first candidate that is
    alphanumeric is the user name, the first candidate after it is the
    password (empty when there is none). *)
Fixpoint credentials_of (parts : list string) : option (string * string) :=
  match parts with
  | [] => None
  | part :: rest =>
      if candidate part && Py.isalnum part
      then Some (part, hd "" (List.filter candidate rest))
      else credentials_of rest
  end.

(** ** HTTP requests *)

(** The effect of one header line on the dictionary of headers. *)
Definition add_header (d : Dict.t string) (line : string) : Dict.t string :=
  match Py.split_once ": " line with
  | Some (key, value) => Dict.set key value d
  | None => d
  end.

(** The headers that a block of header lines declares. *)
Definition header_fields (hs : list string) : Dict.t string :=
  fold_left add_header hs [].

(** The request line of a request text. *)
Definition first_line (data : string) : string :=
  hd "" (Py.split Py.CRLF data).

(** Connections handled one after the other. *)
Definition http_run (urlparse_path : string -> option string)
  (hp : HTTP.HTTPHoneypot) (conns : list HTTP.connection)
  : HTTP.HTTPHoneypot :=
  fold_left
    (fun hp c => HTTP.after (HTTP.handle_connection urlparse_path hp c))
    conns hp.

(** The number of events that carry an attack tag. *)
Definition tagged (evs : list HTTP.HTTPEvent) : nat :=
  length (List.filter (fun ev => Py.nonempty (HTTP.attack_type ev)) evs).

(** ** SMTP lines *)

(** A mail transaction: sender, recipient, the lines of the message and
    the end of the session. *)
Definition mail_transaction (sender rcpt : string) (body : list string)
  : list SMTP.read_result :=
  [sent_line ("MAIL FROM:<" ++ sender ++ ">")%string;
   sent_line ("RCPT TO:<" ++ rcpt ++ ">")%string;
   sent_line "DATA"]
  ++ map sent_line body ++ [sent_line "."; sent_line "QUIT"].

(** A line that a session reads holds at most [L] characters once
    trimmed. *)
Definition line_within (L : Z) (r : SMTP.read_result) : Prop :=
  match r with
  | SMTP.Line raw _ => Py.len (Py.strip raw) <= L
  | _ => True
  end.

(** ** MySQL handshake *)

(** The bytes before the first NUL of a buffer, and those after it. *)
Definition read_cstring (buf : list byte)
  : option (list byte * list byte) :=
  match MySQL.index_of x00 buf with
  | Some i => Some (firstn i buf, skipn (S i) buf)
  | None => None
  end.

(** An unsigned integer in little-endian order. *)
Definition read_le (bs : list byte) : Z :=
  fold_right (fun b acc => MySQL.Z_of_byte b + 256 * acc) 0 bs.

Record greeting : Type := {
  protocol_version : Z;
  server_version : list byte;
  thread_id : Z;
  auth_plugin_data : list byte;
  capabilities : Z;
  character_set : Z;
  status_flags : Z;
  auth_plugin_name : list byte
}.

(** The initial handshake of protocol version 10, as a client reads it:
    protocol version, null-terminated server version, connection id,
    eight bytes of plugin data, a filler, the lower capability flags,
    character set, status flags, the upper capability flags, the length
    of the plugin data, ten reserved bytes, the rest of the plugin data
    (at least 13 bytes), and the null-terminated plugin name. *)
Definition read_greeting (payload : list byte) : option greeting :=
  match payload with
  | [] => None
  | version :: buf =>
      '(server, buf) ← read_cstring buf;
      match skipn 12 buf with
      | _ :: c0 :: c1 :: cs :: s0 :: s1 :: c2 :: c3 :: len :: rest =>
          let n := Z.to_nat (Z.max 13 (MySQL.Z_of_byte len - 8)) in
          let rest := skipn 10 rest in
          if (n <=? length rest)%nat then
            '(plugin, _) ← read_cstring (skipn n rest);
            Some {| protocol_version := MySQL.Z_of_byte version;
                    server_version := server;
                    thread_id := read_le (firstn 4 buf);
                    auth_plugin_data :=
                      firstn 8 (skipn 4 buf) ++ firstn n rest;
                    capabilities := read_le [c0; c1; c2; c3];
                    character_set := MySQL.Z_of_byte cs;
                    status_flags := read_le [s0; s1];
                    auth_plugin_name := plugin |}
          else None
      | _ => None
      end
  end.

(** ** MySQL sessions *)

(** The buffer written for an event: an OK packet for an authentication,
    the response to the query for a query. *)
Definition answer (ev : MySQL.DBEvent) : list byte :=
  if String.eqb (MySQL.event_type ev) "db_auth"
  then MySQL.build_ok_packet
  else MySQL.build_query_response (MySQL.query ev).

(** The number of events flagged as injections. *)
Definition flagged (evs : list MySQL.DBEvent) : nat :=
  length (List.filter MySQL.is_injection evs).

(** The number of query events. *)
Definition queries (evs : list MySQL.DBEvent) : nat :=
  length (List.filter
            (fun ev => String.eqb (MySQL.event_type ev) "sql_query") evs).

(** Connections handled one after the other: the honeypot and the
    random source after the last one. *)
Definition mysql_run (decode : list byte -> string)
  (h : MySQL.MySQLHoneypot) (e : MySQL.entropy)
  (conns : list (MySQL.peer * list MySQL.read_result))
  : MySQL.MySQLHoneypot * MySQL.entropy :=
  fold_left
    (fun st conn =>
       let w := MySQL.final
                  (MySQL.handle_connection decode (fst st) (snd st)
                     (fst conn) (snd conn)) in
       (MySQL.hp w, MySQL.rng w))
    conns (h, e).

(** The counters of [h] agree with its events, and its patterns are
    those of [h0]. *)
Definition mysql_consistent (h0 h : MySQL.MySQLHoneypot) : Prop :=
  MySQL.active_connections h = 0
  /\ MySQL.total_connections h = MySQL.connection_id h
  /\ MySQL.total_queries h = Z.of_nat (queries (MySQL.events h))
  /\ MySQL.injections_detected h = Z.of_nat (flagged (MySQL.events h))
  /\ MySQL.injection_patterns h = MySQL.injection_patterns h0
  /\ Forall (fun ev =>
               MySQL.is_injection ev
               = String.eqb (MySQL.event_type ev) "sql_query"
                 && MySQL.detect_injection h0 (MySQL.query ev))
       (MySQL.events h).

(** A handshake response as [parse_auth_packet] lays it out: 36 bytes
    of header and fixed fields, the null-terminated user name, the
    length of the authentication response and the response, and, when
    there is one, the null-terminated database name. *)
Definition handshake_response (fixed user auth : list byte)
  (db : option (list byte)) : list byte :=
  fixed ++ user ++ [x00] ++ [MySQL.byte_of_Z (MySQL.blen auth)] ++ auth
  ++ match db with
     | Some name => name ++ [x00]
     | None => []
     end.

End Spec.

(* ===================================================================== *)
(** * Properties of the Python string operations *)
(* ===================================================================== *)

Section PyFacts.

Lemma prefix_nil (s : string) : String.prefix "" s = true.
Proof. destruct s; reflexivity. Qed.

Lemma prefix_cons (a b : ascii) (p s : string) :
  String.prefix (String a p) (String b s)
  = Ascii.eqb a b && String.prefix p s.
Proof.
  simpl. destruct (ascii_dec a b) as [->|Hne].
  - now rewrite Ascii.eqb_refl.
  - apply Ascii.eqb_neq in Hne. now rewrite Hne.
Qed.

Lemma append_cons (c : ascii) (r s : string) :
  String c r ++ s = String c (r ++ s).
Proof. reflexivity. Qed.

Lemma append_nil_l (s : string) : "" ++ s = s.
Proof. reflexivity. Qed.

Lemma append_nil_r (s : string) : s ++ "" = s.
Proof.
  induction s as [|c r IH]; [reflexivity|].
  now rewrite append_cons, IH.
Qed.

Lemma append_assoc (a b c : string) : (a ++ b) ++ c = a ++ (b ++ c).
Proof.
  induction a as [|x r IH]; [reflexivity|].
  now rewrite !append_cons, IH.
Qed.

Lemma length_append (a b : string) :
  String.length (a ++ b) = (String.length a + String.length b)%nat.
Proof.
  induction a as [|x r IH]; [reflexivity|].
  rewrite append_cons. cbn [String.length]. now rewrite IH.
Qed.

(** Trimming the right end does not change whether the text starts with
    a word free of the trimmed characters. *)
Lemma prefix_rstrip (f : ascii -> bool) (p : string) :
  Py.forallb_str (fun c => negb (f c)) p = true ->
  forall t, String.prefix p (Py.rstrip_with f t) = String.prefix p t.
Proof.
  intros Hp t. revert p Hp.
  induction t as [|c r IH]; intros p Hp; [reflexivity|].
  destruct p as [|a p']; [now rewrite !prefix_nil|].
  simpl in Hp. apply andb_true_iff in Hp as [Ha Hp'].
  specialize (IH p' Hp').
  cbn [Py.rstrip_with].
  destruct (Py.rstrip_with f r) as [|c' r'] eqn:Er.
  - destruct (f c) eqn:Ec.
    + rewrite prefix_cons.
      destruct (Ascii.eqb a c) eqn:Eac; [|reflexivity].
      apply Ascii.eqb_eq in Eac. subst a. rewrite Ec in Ha. discriminate.
    + rewrite !prefix_cons. now rewrite <- IH.
  - rewrite !prefix_cons. now rewrite <- IH.
Qed.

Lemma startswith_strip (s p : string) :
  Py.forallb_str (fun c => negb (Py.isspace c)) p = true ->
  Py.startswith (Py.strip s) p = Py.startswith (Py.lstrip s) p.
Proof.
  intros Hp. unfold Py.startswith, Py.strip, Py.strip_with, Py.lstrip.
  now apply prefix_rstrip.
Qed.

End PyFacts.

(* ===================================================================== *)
(** * Regular expressions: the matcher decides the language *)
(* ===================================================================== *)

Section ReFacts.

Variable ic : bool.

Lemma append_eq_nil (a b : string) : a ++ b = "" -> a = "" /\ b = "".
Proof.
  destruct a as [|x a]; intros H.
  - split; [reflexivity|exact H].
  - rewrite append_cons in H. discriminate.
Qed.

Lemma nullable_spec (r : Re.regex) :
  Re.nullable r = true <-> Re.matches ic r "".
Proof.
  split.
  - induction r; cbn; intros H; try discriminate.
    + constructor.
    + apply andb_true_iff in H as [H1 H2].
      change "" with ("" ++ ""). constructor; auto.
    + apply orb_true_iff in H as [H|H]; [apply Re.MAltL|apply Re.MAltR]; auto.
    + constructor.
  - intros H. remember "" as s eqn:Es.
    induction H; try discriminate; cbn; try reflexivity.
    + apply append_eq_nil in Es as [-> ->]. now rewrite IHmatches1, IHmatches2.
    + now rewrite IHmatches.
    + rewrite IHmatches by assumption. apply orb_true_r.
Qed.

Lemma void_empty (s : string) : ~ Re.matches ic Re.Void s.
Proof. intros H. inversion H. Qed.

Lemma cat_inv (r1 r2 : Re.regex) (s : string) :
  Re.matches ic (Re.Cat r1 r2) s ->
  exists s1 s2, s = s1 ++ s2 /\ Re.matches ic r1 s1 /\ Re.matches ic r2 s2.
Proof. intros H. inversion H; subst. eauto. Qed.

Lemma alt_inv (r1 r2 : Re.regex) (s : string) :
  Re.matches ic (Re.Alt r1 r2) s ->
  Re.matches ic r1 s \/ Re.matches ic r2 s.
Proof. intros H. inversion H; subst; auto. Qed.

Lemma cat_void_l (r : Re.regex) (s : string) :
  ~ Re.matches ic (Re.Cat Re.Void r) s.
Proof.
  intros H. apply cat_inv in H as (s1 & s2 & _ & H & _).
  now apply void_empty in H.
Qed.

Lemma cat_void_r (r : Re.regex) (s : string) :
  ~ Re.matches ic (Re.Cat r Re.Void) s.
Proof.
  intros H. apply cat_inv in H as (s1 & s2 & _ & _ & H).
  now apply void_empty in H.
Qed.

Lemma cat_eps_l (r : Re.regex) (s : string) :
  Re.matches ic (Re.Cat Re.Eps r) s <-> Re.matches ic r s.
Proof.
  split; intros H.
  - apply cat_inv in H as (s1 & s2 & -> & H1 & H2).
    inversion H1; subst. now rewrite append_nil_l.
  - rewrite <- (append_nil_l s). constructor; [constructor|exact H].
Qed.

Ltac void_case :=
  split; intros H;
  [ now apply void_empty in H
  | exfalso;
    first [ eapply cat_void_l; eassumption | eapply cat_void_r; eassumption ] ].

Lemma cat_spec (r1 r2 : Re.regex) (s : string) :
  Re.matches ic (Re.cat r1 r2) s <-> Re.matches ic (Re.Cat r1 r2) s.
Proof.
  destruct r1; destruct r2; cbn [Re.cat];
    first [ reflexivity | void_case | symmetry; apply cat_eps_l ].
Qed.

Lemma alt_spec (r1 r2 : Re.regex) (s : string) :
  Re.matches ic (Re.alt r1 r2) s <-> Re.matches ic (Re.Alt r1 r2) s.
Proof.
  assert (Hl : forall r, Re.matches ic (Re.Alt Re.Void r) s
                         <-> Re.matches ic r s).
  { intros r. split; intros H.
    - apply alt_inv in H as [H|H]; [now apply void_empty in H|exact H].
    - now apply Re.MAltR. }
  assert (Hr : forall r, Re.matches ic (Re.Alt r Re.Void) s
                         <-> Re.matches ic r s).
  { intros r. split; intros H.
    - apply alt_inv in H as [H|H]; [exact H|now apply void_empty in H].
    - now apply Re.MAltL. }
  destruct r1; destruct r2; cbn [Re.alt];
    first [ reflexivity | symmetry; apply Hl | symmetry; apply Hr ].
Qed.

Lemma step_spec (b : bool) (s : string) :
  Re.matches ic (Re.step b) s <-> b = true /\ s = "".
Proof.
  destruct b; cbn; split.
  - intros H. inversion H. auto.
  - intros [_ ->]. constructor.
  - intros H. now apply void_empty in H.
  - intros [H _]. discriminate.
Qed.

(** A non-empty text in a starred language starts with a non-empty text
    of the language. *)
Lemma star_cons (r : Re.regex) (x : ascii) (s : string) :
  Re.matches ic (Re.Star r) (String x s) ->
  exists s1 s2,
    s = s1 ++ s2 /\ Re.matches ic r (String x s1)
    /\ Re.matches ic (Re.Star r) s2.
Proof.
  intros H. remember (Re.Star r) as r' eqn:Er.
  remember (String x s) as t eqn:Et.
  induction H as [| | | | | | | | |r0 s1 s2 H1 _ H2 IH2];
    try discriminate.
  injection Er as ->.
  destruct s1 as [|y s1].
  - rewrite append_nil_l in Et. now apply IH2.
  - rewrite append_cons in Et. injection Et as -> <-.
    now exists s1, s2.
Qed.

Lemma deriv_spec (x : ascii) (r : Re.regex) (s : string) :
  Re.matches ic (Re.deriv ic x r) s <-> Re.matches ic r (String x s).
Proof.
  revert s. induction r as [| |c| |i|neg items|r1 IH1 r2 IH2|r1 IH1 r2 IH2|r IH];
    intros s; cbn [Re.deriv].
  - split; intros H; inversion H.
  - split; intros H; inversion H.
  - rewrite step_spec. split.
    + intros [H ->]. now constructor.
    + intros H. inversion H; subst. auto.
  - rewrite step_spec. split.
    + intros [H ->]. constructor. now apply negb_true_iff in H.
    + intros H. inversion H; subst. split; [|reflexivity].
      now apply negb_true_iff.
  - rewrite step_spec. split.
    + intros [H ->]. now constructor.
    + intros H. inversion H; subst. auto.
  - rewrite step_spec. split.
    + intros [H ->]. now constructor.
    + intros H. inversion H; subst. auto.
  - rewrite alt_spec. split.
    + intros H. apply alt_inv in H as [Hm|Hm].
      * apply cat_spec, cat_inv in Hm as (s1 & s2 & -> & H1 & H2).
        apply IH1 in H1. rewrite <- append_cons. now constructor.
      * destruct (Re.nullable r1) eqn:En; [|now apply void_empty in Hm].
        apply IH2 in Hm. rewrite <- (append_nil_l (String x s)).
        constructor; [now apply nullable_spec|exact Hm].
    + intros H. apply cat_inv in H as (s1 & s2 & Es & H1 & H2).
      destruct s1 as [|y s1].
      * rewrite append_nil_l in Es. subst s2. apply Re.MAltR.
        apply nullable_spec in H1. rewrite H1. now apply IH2.
      * rewrite append_cons in Es. injection Es as -> ->.
        apply Re.MAltL. apply cat_spec. constructor; [now apply IH1|exact H2].
  - rewrite alt_spec. split.
    + intros H. apply alt_inv in H as [H|H];
        [apply Re.MAltL; now apply IH1|apply Re.MAltR; now apply IH2].
    + intros H. apply alt_inv in H as [H|H];
        [apply Re.MAltL; now apply IH1|apply Re.MAltR; now apply IH2].
  - rewrite cat_spec. split.
    + intros H. apply cat_inv in H as (s1 & s2 & -> & H1 & H2).
      apply IH in H1. rewrite <- append_cons. now constructor.
    + intros H. apply star_cons in H as (s1 & s2 & -> & H1 & H2).
      constructor; [now apply IH|exact H2].
Qed.

Lemma is_void_spec (r : Re.regex) (s : string) :
  Re.is_void r = true -> ~ Re.matches ic r s.
Proof. destruct r; try discriminate. intros _. apply void_empty. Qed.

(** [match_prefix] finds a prefix of the text in the language. *)
Lemma match_prefix_spec (r : Re.regex) (s : string) :
  Re.match_prefix ic r s = true
  <-> exists hit after, s = hit ++ after /\ Re.matches ic r hit.
Proof.
  revert r. induction s as [|x s IH]; intros r; cbn [Re.match_prefix].
  - rewrite orb_false_r, nullable_spec. split.
    + intros H. now exists "", "".
    + intros (hit & after & E & H). symmetry in E.
      apply append_eq_nil in E as [-> _]. exact H.
  - rewrite orb_true_iff, nullable_spec. split.
    + intros [H|H].
      * now exists "", (String x s).
      * destruct (Re.is_void (Re.deriv ic x r)); [discriminate|].
        apply IH in H as (hit & after & -> & H).
        exists (String x hit), after. split; [reflexivity|].
        now apply deriv_spec.
    + intros (hit & after & E & H). destruct hit as [|y hit].
      * now left.
      * right. rewrite append_cons in E. injection E as -> ->.
        apply deriv_spec in H.
        destruct (Re.is_void (Re.deriv ic y r)) eqn:Ev.
        -- now apply (is_void_spec _ _ Ev) in H.
        -- apply IH. now exists hit, after.
Qed.

Lemma search_re_spec (r : Re.regex) (s : string) :
  Re.search_re ic r s = true
  <-> exists before hit after,
        s = before ++ hit ++ after /\ Re.matches ic r hit.
Proof.
  induction s as [|x s IH]; cbn [Re.search_re].
  - rewrite orb_false_r, match_prefix_spec. split.
    + intros (hit & after & E & H). now exists "", hit, after.
    + intros (before & hit & after & E & H). symmetry in E.
      apply append_eq_nil in E as [-> E]. now exists hit, after.
  - rewrite orb_true_iff, match_prefix_spec, IH. split.
    + intros [(hit & after & E & H)|(before & hit & after & -> & H)].
      * now exists "", hit, after.
      * now exists (String x before), hit, after.
    + intros (before & hit & after & E & H). destruct before as [|y before].
      * left. now exists hit, after.
      * right. rewrite append_cons in E. injection E as _ ->.
        now exists before, hit, after.
Qed.

End ReFacts.

(** [pattern.search] decides whether some part of the text is in the
    language of the pattern. *)
Lemma search_spec (p : Re.pattern) (s : string) :
  Re.search p s = true <-> Re.found p s.
Proof. apply search_re_spec. Qed.

(** The classifier loop over a pattern list succeeds exactly when some
    pattern of the list is found in the text. *)
Lemma any_search_spec (ps : list Re.pattern) (s : string) :
  Re.any_search ps s = true <-> Exists (fun p => Re.found p s) ps.
Proof.
  unfold Re.any_search. induction ps as [|p ps IH]; cbn [existsb].
  - split; [discriminate|]. intros H. inversion H.
  - rewrite orb_true_iff, search_spec, IH. split.
    + intros [H|H]; [now left|now right].
    + intros H. inversion H; subst; [now left|now right].
Qed.

(* ===================================================================== *)
(** * SSH: packet framing *)
(* ===================================================================== *)

Section SSHFraming.

Local Open Scope Z_scope.

(** The padding rule, for every packet length. *)
Lemma padding_for_least (n : Z) :
  0 <= n -> Spec.least_padding n (Spec.padding_for (n + 1)).
Proof.
  intros Hn. unfold Spec.least_padding, Spec.padding_for.
  pose proof (Z.mod_pos_bound (n + 1 + 4) 8 ltac:(lia)) as Hm.
  set (m := (n + 1 + 4) mod 8) in *.
  assert (Hdiv : n + 1 + 4 = 8 * ((n + 1 + 4) / 8) + m)
    by (apply Z.div_mod; lia).
  set (k := (n + 1 + 4) / 8) in *.
  destruct (8 - m <? 4) eqn:E.
  - apply Z.ltb_lt in E. repeat split; [lia| |].
    + replace (4 + (1 + n + (8 - m + 8))) with (0 + (k + 2) * 8) by lia.
      now rewrite Z.mod_add by lia.
    + intros q Hq Hq0.
      apply Z.mod_divide in Hq0; [|lia]. destruct Hq0 as [j Hj]. lia.
  - apply Z.ltb_ge in E. repeat split; [lia| |].
    + replace (4 + (1 + n + (8 - m))) with (0 + (k + 1) * 8) by lia.
      now rewrite Z.mod_add by lia.
    + intros q Hq Hq0.
      apply Z.mod_divide in Hq0; [|lia]. destruct Hq0 as [j Hj]. lia.
Qed.

Lemma well_padded_intro (buf : list byte) (msg : Z) (pk : SSH.packet) :
  SSH.read_packet buf = Some pk ->
  head (SSH.payload pk) = Some (SSH.byte_of_Z msg) ->
  SSH.packet_length pk
  = 1 + SSH.blen (SSH.payload pk) + SSH.padding_length pk ->
  SSH.blen (SSH.padding pk) = SSH.padding_length pk ->
  SSH.padding_length pk = Spec.padding_for (SSH.blen (SSH.payload pk) + 1) ->
  Spec.well_padded buf msg.
Proof.
  intros H1 H2 H3 H4 H5. exists pk. repeat split; try assumption.
  - rewrite H5. apply padding_for_least. unfold SSH.blen. lia.
  - rewrite H5.
    apply (padding_for_least (SSH.blen (SSH.payload pk))).
    unfold SSH.blen. lia.
  - rewrite H5.
    apply (padding_for_least (SSH.blen (SSH.payload pk))).
    unfold SSH.blen. lia.
Qed.

(** C6.  Every binary packet the SSH honeypot builds, KEXINIT and
    USERAUTH_FAILURE alike and whatever the random bytes drawn, is one
    well-formed packet whose big-endian length field counts the
    padding-length byte, the payload and the padding, and whose
    padding length is the smallest value of at least 4 that makes 4 plus
    that packet length a multiple of 8. *)
Theorem ssh_packets_least_padding (e : SSH.entropy) :
  Spec.well_padded (fst (SSH.build_kexinit e)) SSH.SSH_MSG_KEXINIT
  /\ Spec.well_padded (fst (SSH.build_auth_failure e))
       SSH.SSH_MSG_USERAUTH_FAILURE.
Proof.
  split.
  - eapply well_padded_intro; [vm_compute; reflexivity | reflexivity ..].
  - eapply well_padded_intro; [vm_compute; reflexivity | reflexivity ..].
Qed.

End SSHFraming.

(* ===================================================================== *)
(** * MySQL: the response to a query *)
(* ===================================================================== *)

Section MySQLResponse.

Lemma build_empty_result_shape : Spec.empty_result_set MySQL.build_empty_result.
Proof.
  unfold Spec.empty_result_set.
  do 5 eexists.
  split; [vm_compute; reflexivity|].
  repeat split; vm_compute; reflexivity.
Qed.

(** The OK packet read back: sequence number 2, header 0x00, no
    affected row, no insert id, status flags 0x0002, no warning. *)
Lemma build_ok_packet_shape : Spec.ok_packet MySQL.build_ok_packet.
Proof.
  unfold Spec.ok_packet.
  exists {| MySQL.sequence_id := 2;
            MySQL.payload := [x00; x00; x00; x02; x00; x00; x00] |}.
  split; [vm_compute; reflexivity|].
  split; vm_compute; reflexivity.
Qed.

(** The test of the code (lowercase, trim both ends, compare the start)
    is the test of the specification (lowercase, trim the left end,
    compare the start). *)
Lemma select_test (query : string) :
  Py.startswith (Py.strip (Py.lower query)) "select"
  = Spec.begins_with_select query.
Proof. unfold Spec.begins_with_select. now apply startswith_strip. Qed.

(** One turn of the query loop writes the response to the buffer read,
    if there is one, and nothing else. *)
Lemma handle_queries_turn (decode : list byte -> string) (c : MySQL.peer)
  (w : MySQL.world) (data : list byte) (flushed : bool) :
  data <> [] ->
  MySQL.sent (fst (MySQL.handle_queries decode c w
                     [MySQL.Recv data flushed]))
  = (MySQL.sent w
     ++ match MySQL.respond decode data with
        | Some buf => [buf]
        | None => []
        end)%list.
Proof.
  intros Hdata. destruct data as [|b data]; [congruence|].
  cbn [MySQL.handle_queries]. unfold MySQL.respond.
  destruct (MySQL.parse_query_packet decode (b :: data)) as [q|];
    [|cbn; now rewrite app_nil_r].
  destruct (Py.nonempty q); [|cbn; now rewrite app_nil_r].
  cbv zeta. destruct (MySQL.detect_injection _ q); now destruct flushed.
Qed.

(** C7 (amended).  For every query parsed from a COM_QUERY packet that
    is not empty: when the query, lowercased and trimmed of leading
    white space, begins with "select", the response is the canned empty
    result set, which is a column-count packet declaring 1 column, the
    definition of a varchar column named "result" and two EOF packets,
    with sequence numbers 1, 2, 3, 4; for every other query the
    response is the OK packet, that is one packet with sequence number
    2, header 0x00, no affected row, no insert id, status flags 0x0002
    and no warning.  A turn of the query loop writes this response and
    nothing else; for a packet that is not a COM_QUERY, or whose query
    is empty once trimmed, it writes nothing. *)
Theorem mysql_query_response (decode : list byte -> string)
  (data : list byte) (query : string) :
  MySQL.build_query_response query
  = (if Spec.begins_with_select query
     then MySQL.build_empty_result
     else MySQL.build_ok_packet)
  /\ MySQL.respond decode data
     = match MySQL.parse_query_packet decode data with
       | Some q =>
           if Py.nonempty q
           then Some (if Spec.begins_with_select q
                      then MySQL.build_empty_result
                      else MySQL.build_ok_packet)
           else None
       | None => None
       end
  /\ (forall c w flushed,
        data <> [] ->
        MySQL.sent (fst (MySQL.handle_queries decode c w
                           [MySQL.Recv data flushed]))
        = (MySQL.sent w
           ++ match MySQL.respond decode data with
              | Some buf => [buf]
              | None => []
              end)%list)
  /\ Spec.empty_result_set MySQL.build_empty_result
  /\ Spec.ok_packet MySQL.build_ok_packet.
Proof.
  split; [|split; [|split; [|split]]].
  - unfold MySQL.build_query_response. now rewrite select_test.
  - unfold MySQL.respond, MySQL.build_query_response.
    destruct (MySQL.parse_query_packet decode data) as [q|]; [|reflexivity].
    now rewrite select_test.
  - intros c w flushed Hdata. now apply handle_queries_turn.
  - exact build_empty_result_shape.
  - exact build_ok_packet_shape.
Qed.

(** The query of the injection scenario, on the wire: the answer is the
    empty result set. *)
Lemma mysql_select_on_the_wire :
  let data := MySQL.com_query 0 "SELECT * FROM users WHERE id=1 OR 1=1" in
  MySQL.parse_query_packet MySQL.decode_ascii data
  = Some "SELECT * FROM users WHERE id=1 OR 1=1"
  /\ MySQL.respond MySQL.decode_ascii data = Some MySQL.build_empty_result
  /\ MySQL.respond MySQL.decode_ascii (MySQL.com_query 0 "SET NAMES utf8")
     = Some MySQL.build_ok_packet
  /\ MySQL.respond MySQL.decode_ascii (MySQL.com_query 0 "  ") = None.
Proof. intros data. repeat split; vm_compute; reflexivity. Qed.

(** C7, as stated, fails: a COM_QUERY whose query is empty once trimmed
    is parsed, does not begin with "select", and gets neither the OK
    packet nor any other response; no event is recorded for it. *)
Lemma mysql_empty_query_unanswered :
  let data := MySQL.com_query 0 "  " in
  let c := {| MySQL.client_ip := "10.0.0.7"; MySQL.client_port := 51000;
              MySQL.session := "0123456789abcdef";
              MySQL.greeting_flushed := true; MySQL.auth := MySQL.Eof |} in
  exists h,
    MySQL.init 25 = Some h
    /\ MySQL.parse_query_packet MySQL.decode_ascii data = Some ""
    /\ Spec.begins_with_select "" = false
    /\ let w := {| MySQL.hp := h; MySQL.rng := fun _ => x00;
                   MySQL.sent := []; MySQL.logged := [] |} in
       let w' := fst (MySQL.handle_queries MySQL.decode_ascii c w
                        [MySQL.Recv data true]) in
       MySQL.sent w' = [] /\ MySQL.events (MySQL.hp w') = [].
Proof.
  intros data c.
  destruct (MySQL.init 25) as [h|] eqn:E; [|vm_compute in E; discriminate E].
  exists h. split; [reflexivity|].
  split; [vm_compute; reflexivity|]. split; [vm_compute; reflexivity|].
  unfold MySQL.init in E.
  destruct (mapM _ MySQL.SQL_INJECTION_PATTERNS) as [ps|];
    [|discriminate E].
  cbn in E. injection E as <-. split; reflexivity.
Qed.

End MySQLResponse.

(* ===================================================================== *)
(** * Python strings: the fields of a text *)
(* ===================================================================== *)

Section PySplit.

Lemma contains_cons_false (c : ascii) (r sub : string) :
  Py.contains (String c r) sub = false ->
  String.prefix sub (String c r) = false /\ Py.contains r sub = false.
Proof. cbn [Py.contains]. intros H. now apply orb_false_iff in H. Qed.

Lemma split_go_nonempty (sep s : string) (k : nat) (acc : string) :
  Py.split_go sep s k acc <> [].
Proof.
  revert k acc. induction s as [|c r IH]; intros k acc.
  - discriminate.
  - cbn [Py.split_go]. destruct k; [|apply IH].
    destruct (String.prefix sep (String c r)); [discriminate|apply IH].
Qed.

(** A text free of the separator is a single field. *)
Lemma split_go_single (c0 : ascii) (seg acc : string) :
  Py.contains seg (String c0 "") = false ->
  Py.split_go (String c0 "") seg 0 acc = [acc ++ seg].
Proof.
  revert acc. induction seg as [|c r IH]; intros acc H.
  - cbn. f_equal. now rewrite append_nil_r.
  - apply contains_cons_false in H as [Hp Hr].
    cbn [Py.split_go]. rewrite Hp. rewrite IH by assumption.
    f_equal. now rewrite append_assoc.
Qed.



End PySplit.


(* ===================================================================== *)
(** * HTTP: the classifier and the SQL injection scenario *)
(* ===================================================================== *)

Section HTTPFacts.

Variable urlparse_path : string -> option string.

(** A category whose test holds, after categories whose tests fail,
    decides the tag whatever follows it. *)
Lemma first_match_stops (pre rest : list (string * (unit -> result bool)))
  (tag : string) (test : unit -> result bool) :
  Forall (fun c => snd c tt = Ret false) pre ->
  test tt = Ret true ->
  Spec.first_match (pre ++ (tag, test) :: rest)%list = Ret tag.
Proof.
  intros Hpre Ht. induction Hpre as [|[t f] pre Hf _ IH]; cbn.
  - now rewrite Ht.
  - cbn in Hf. now rewrite Hf.
Qed.

Lemma detect_attack_first_match (hp : HTTP.HTTPHoneypot) (path : string)
  (hdrs : Dict.t string) (body : string) :
  HTTP.detect_attack urlparse_path hp path hdrs body
  = Spec.first_match (Spec.categories urlparse_path hp path hdrs body).
Proof.
  unfold HTTP.detect_attack, Spec.categories, Spec.first_match,
    Spec.suspicious.
  destruct (Re.any_search (HTTP.sql_patterns hp) _); [reflexivity|].
  destruct (Re.any_search (HTTP.xss_patterns hp) _); [reflexivity|].
  destruct (Re.any_search (HTTP.path_patterns hp) _); [reflexivity|].
  destruct (urlparse_path path); [|reflexivity].
  destruct (existsb _ HTTP.SUSPICIOUS_PATHS); reflexivity.
Qed.

(** The classifier raises when the first three categories do not match
    and [urlparse] rejects the target. *)
Lemma detect_attack_rejected (hp : HTTP.HTTPHoneypot) (path : string)
  (hdrs : Dict.t string) (body : string) :
  Forall (fun c => snd c tt = Ret false)
    (firstn 3 (Spec.categories urlparse_path hp path hdrs body)) ->
  urlparse_path path = None ->
  HTTP.detect_attack urlparse_path hp path hdrs body = Raise ValueError.
Proof.
  intros Hpre Hurl. unfold Spec.categories in Hpre. cbn [firstn] in Hpre.
  inversion Hpre as [|c1 l1 H1 Hpre1]; subst.
  inversion Hpre1 as [|c2 l2 H2 Hpre2]; subst.
  inversion Hpre2 as [|c3 l3 H3 _]; subst.
  cbn [snd] in H1, H2, H3.
  injection H1 as H1. injection H2 as H2. injection H3 as H3.
  unfold HTTP.detect_attack. now rewrite H1, H2, H3, Hurl.
Qed.

(** C4 (amended).  The classifier tries the categories in the order
    sql_injection, xss, path_traversal, reconnaissance and returns the
    tag of the first one that matches, the empty tag when none does;
    the categories after a match are not evaluated, so their patterns
    and the URL splitter have no say.  The reconnaissance test is the
    only one that can raise: it does when [urlparse] rejects the
    target, and then the classifier raises instead of returning.  The
    session of a request for such a target, which none of the first
    three categories matches, ends with an error log and nothing else
    in the log, no event and no response; the request is counted and
    the connection closed. *)
Theorem http_classifier_precedence (hp : HTTP.HTTPHoneypot)
  (path : string) (hdrs : Dict.t string) (body : string) :
  let cats := Spec.categories urlparse_path hp path hdrs body in
  HTTP.detect_attack urlparse_path hp path hdrs body
  = Spec.first_match cats
  /\ (forall pre tag test rest,
        cats = (pre ++ (tag, test) :: rest)%list ->
        Forall (fun c => snd c tt = Ret false) pre ->
        test tt = Ret true ->
        HTTP.detect_attack urlparse_path hp path hdrs body = Ret tag)
  /\ (forall e,
        HTTP.detect_attack urlparse_path hp path hdrs body = Raise e ->
        urlparse_path path = None /\ e = ValueError
        /\ Forall (fun c => snd c tt = Ret false) (firstn 3 cats))
  /\ (forall c text m,
        (HTTP.active_connections hp < HTTP.max_connections hp)%Z ->
        HTTP.request c = HTTP.Recv text ->
        HTTP.parse_request text = Some (m, path, hdrs, body) ->
        Forall (fun c => snd c tt = Ret false) (firstn 3 cats) ->
        urlparse_path path = None ->
        let o := HTTP.handle_connection urlparse_path hp c in
        HTTP.logged o = [HTTP.LogError ValueError]
        /\ HTTP.sent o = []
        /\ HTTP.events (HTTP.after o) = HTTP.events hp
        /\ HTTP.total_requests (HTTP.after o)
           = (HTTP.total_requests hp + 1)%Z
        /\ HTTP.closed o = true).
Proof.
  intros cats. split; [apply detect_attack_first_match|]. split; [|split].
  - intros pre tag test rest Hc Hpre Ht.
    rewrite detect_attack_first_match. fold cats. rewrite Hc.
    now apply first_match_stops.
  - intros e. unfold HTTP.detect_attack, cats, Spec.categories.
    cbn [firstn].
    destruct (Re.any_search (HTTP.sql_patterns hp) _); [discriminate|].
    destruct (Re.any_search (HTTP.xss_patterns hp) _); [discriminate|].
    destruct (Re.any_search (HTTP.path_patterns hp) _); [discriminate|].
    destruct (urlparse_path path).
    + destruct (existsb _ HTTP.SUSPICIOUS_PATHS); discriminate.
    + intros [= <-]. repeat split; repeat constructor.
  - intros c text m Hfree Hreq Hparse Hpre Hurl o. subst o.
    unfold HTTP.handle_connection.
    destruct (Z.leb_spec (HTTP.max_connections hp)
                (HTTP.active_connections hp)) as [Hcap|_];
      [exfalso; apply (Z.lt_irrefl (HTTP.max_connections hp));
       eapply Z.le_lt_trans; eassumption|].
    unfold HTTP.serve. rewrite Hreq, Hparse.
    set (hp1 := HTTP.count_request _).
    assert (Hd : HTTP.detect_attack urlparse_path hp1 path hdrs body
                 = Raise ValueError).
    { apply detect_attack_rejected; [|exact Hurl]. exact Hpre. }
    rewrite Hd. cbn. repeat split.
Qed.

(** A part found in a text is found in every text that extends it. *)
Lemma found_app_r (p : Re.pattern) (s t : string) :
  Re.found p s -> Re.found p (s ++ t).
Proof.
  intros (before & hit & after & -> & H).
  exists before, hit, (after ++ t). split; [|exact H].
  now rewrite !append_assoc.
Qed.

Lemma full_input_split (path body : string) (hdrs : Dict.t string) :
  HTTP.full_input path hdrs body
  = (path ++ " " ++ body) ++ " " ++ Py.join " " (Dict.values hdrs).
Proof. unfold HTTP.full_input. now rewrite !append_assoc. Qed.

(** A SQL pattern found in the path or the body decides the tag, whatever
    the headers. *)
Lemma sql_in_path_or_body (hp : HTTP.HTTPHoneypot) (path body : string)
  (hdrs : Dict.t string) :
  Exists (fun p => Re.found p (path ++ " " ++ body)) (HTTP.sql_patterns hp) ->
  HTTP.detect_attack urlparse_path hp path hdrs body = Ret "sql_injection".
Proof.
  intros H. unfold HTTP.detect_attack.
  replace (Re.any_search (HTTP.sql_patterns hp)
             (HTTP.full_input path hdrs body)) with true; [reflexivity|].
  symmetry. apply any_search_spec. rewrite full_input_split.
  eapply Exists_impl; [exact H|]. intros p Hp. now apply found_app_r.
Qed.

(** C5 (amended).  The classification is a function of the three
    compiled pattern lists, the path, the body and the header values
    in the order of the header dictionary, and of nothing else: neither
    the rest of the honeypot's state nor the header names.  The order of
    the headers is without effect when a SQL pattern is found in the
    path or the body, and it can only change the outcome of the SQL and
    XSS tests: when these agree for two header dictionaries, so does the
    classification. *)
Theorem http_classifier_determined (hp hp' : HTTP.HTTPHoneypot)
  (path body : string) (hdrs hdrs' : Dict.t string) :
  HTTP.sql_patterns hp = HTTP.sql_patterns hp' ->
  HTTP.xss_patterns hp = HTTP.xss_patterns hp' ->
  HTTP.path_patterns hp = HTTP.path_patterns hp' ->
  (Dict.values hdrs = Dict.values hdrs' ->
   HTTP.detect_attack urlparse_path hp path hdrs body
   = HTTP.detect_attack urlparse_path hp' path hdrs' body)
  /\ (Exists (fun p => Re.found p (path ++ " " ++ body))
        (HTTP.sql_patterns hp) ->
      HTTP.detect_attack urlparse_path hp path hdrs body
      = HTTP.detect_attack urlparse_path hp' path hdrs' body)
  /\ (Re.any_search (HTTP.sql_patterns hp) (HTTP.full_input path hdrs body)
      = Re.any_search (HTTP.sql_patterns hp)
          (HTTP.full_input path hdrs' body) ->
      Re.any_search (HTTP.xss_patterns hp) (HTTP.full_input path hdrs body)
      = Re.any_search (HTTP.xss_patterns hp)
          (HTTP.full_input path hdrs' body) ->
      HTTP.detect_attack urlparse_path hp path hdrs body
      = HTTP.detect_attack urlparse_path hp' path hdrs' body).
Proof.
  intros Hs Hx Hp. split; [|split].
  - intros Hv. unfold HTTP.detect_attack, HTTP.full_input.
    now rewrite Hs, Hx, Hp, Hv.
  - intros H. rewrite (sql_in_path_or_body hp path body hdrs H).
    rewrite Hs in H. now rewrite (sql_in_path_or_body hp' path body hdrs' H).
  - intros Hsql Hxss. unfold HTTP.detect_attack.
    rewrite <- Hs, <- Hx, <- Hp, Hsql, Hxss. reflexivity.
Qed.

End HTTPFacts.

Section HTTPScenario.

Local Open Scope Z_scope.

(** Every pattern source of the honeypot compiles. *)
Lemma http_init (max_conn : Z) :
  HTTP.init max_conn = Some (Spec.http_honeypot max_conn).
Proof. vm_compute. reflexivity. Qed.

Lemma patterns_compiled :
  length (Spec.compiled HTTP.SQL_INJECTION_PATTERNS) = 13%nat
  /\ length (Spec.compiled HTTP.XSS_PATTERNS) = 7%nat
  /\ length (Spec.compiled HTTP.PATH_TRAVERSAL_PATTERNS) = 6%nat.
Proof. repeat split; vm_compute; reflexivity. Qed.


(** In the target of the scenario the words UNION and SELECT are
    separated by "%20", which is not white space: no SQL pattern
    matches the text the classifier searches, and no other pattern. *)
Lemma sqli_request_unmatched :
  let input := HTTP.full_input Spec.sqli_target [("Host", "x")] "" in
  Re.any_search (Spec.compiled HTTP.SQL_INJECTION_PATTERNS) input = false
  /\ Re.any_search (Spec.compiled HTTP.XSS_PATTERNS) input = false
  /\ Re.any_search (Spec.compiled HTTP.PATH_TRAVERSAL_PATTERNS)
       Spec.sqli_target = false
  /\ Spec.suspicious "/search" = false.
Proof. repeat split; vm_compute; reflexivity. Qed.

(** In terms of the languages of the patterns: no part of the searched
    text is in the language of any SQL pattern. *)
Lemma sqli_request_no_sql_match :
  Forall
    (fun p =>
       ~ Re.found p (HTTP.full_input Spec.sqli_target [("Host", "x")] ""))
    (Spec.compiled HTTP.SQL_INJECTION_PATTERNS).
Proof.
  destruct sqli_request_unmatched as (H & _).
  apply Forall_forall. intros p Hin Hfound.
  assert (Hany : Re.any_search (Spec.compiled HTTP.SQL_INJECTION_PATTERNS)
                   (HTTP.full_input Spec.sqli_target [("Host", "x")] "")
                 = true).
  { apply any_search_spec, Exists_exists. eauto. }
  cbv zeta in H. congruence.
Qed.

(** The same words separated by white space are tagged: in the body, or
    in the target with a tab between them. *)
Lemma union_select_tagged :
  HTTP.detect_attack Urllib.urlparse_path (Spec.http_honeypot 100)
    "/search" [("Host", "x")] "q=1 UNION SELECT 1" = Ret "sql_injection"
  /\ HTTP.detect_attack Urllib.urlparse_path (Spec.http_honeypot 100)
       ("/search?q=1%20UNION" ++ String (ascii_of_N 9) "SELECT%201")
       [("Host", "x")] "" = Ret "sql_injection".
Proof. split; vm_compute; reflexivity. Qed.


Variable urlparse_path : string -> option string.



End HTTPScenario.

(** ** The HTTP honeypot on concrete requests *)

Section HTTPRuns.

Local Open Scope Z_scope.



(** C4, as stated, fails: for a target that [urlparse] rejects, and
    that no pattern matches, the classifier returns no tag at all; the
    session logs the error, records no event and sends no response. *)
Lemma http_classifier_rejected_target :
  let c := Spec.http_connection Spec.bracket_request in
  let hp := Spec.http_honeypot 100 in
  HTTP.init 100 = Some hp
  /\ HTTP.parse_request Spec.bracket_request = Some ("GET", "//[", [], "")
  /\ HTTP.detect_attack Urllib.urlparse_path hp "//[" [] ""
     = Raise ValueError
  /\ HTTP.logged (HTTP.handle_connection Urllib.urlparse_path hp c)
     = [HTTP.LogError ValueError]
  /\ HTTP.events
       (HTTP.after (HTTP.handle_connection Urllib.urlparse_path hp c)) = []
  /\ HTTP.sent (HTTP.handle_connection Urllib.urlparse_path hp c) = [].
Proof.
  intros c hp. split; [apply http_init|].
  repeat split; vm_compute; reflexivity.
Qed.

(** Path traversal is tested before reconnaissance: a target that
    contains a suspicious path and a traversal is a path traversal. *)
Lemma http_classifier_precedence_witness :
  let hp := Spec.http_honeypot 100 in
  let target := "/phpmyadmin/../etc" in
  Forall (fun c => snd c tt = Ret false)
    (firstn 2
       (Spec.categories Urllib.urlparse_path hp target [("Host", "x")] ""))
  /\ Spec.suspicious target = true
  /\ HTTP.detect_attack Urllib.urlparse_path hp target [("Host", "x")] ""
     = Ret "path_traversal".
Proof.
  intros hp target.
  assert (Hpre :
    Forall (fun c => snd c tt = Ret false)
      (firstn 2
         (Spec.categories Urllib.urlparse_path hp target
            [("Host", "x")] ""))).
  { repeat constructor; vm_compute; reflexivity. }
  split; [exact Hpre|]. split; [vm_compute; reflexivity|].
  set (cats := Spec.categories Urllib.urlparse_path hp target
                 [("Host", "x")] "") in *.
  refine (proj1 (proj2 (http_classifier_precedence Urllib.urlparse_path
                          hp target [("Host", "x")] ""))
            (firstn 2 cats) "path_traversal"
            (fun _ => Ret (Re.any_search (HTTP.path_patterns hp) target))
            (skipn 3 cats) eq_refl Hpre _).
  vm_compute. reflexivity.
Defined.

(** C5, as stated, fails: two requests that differ only in the order of
    their headers, one classified as SQL injection, the other not. *)
Lemma http_classifier_header_order :
  let hp := Spec.http_honeypot 100 in
  let h1 := [("A", "UNION"); ("B", "SELECT")] in
  let h2 := [("B", "SELECT"); ("A", "UNION")] in
  HTTP.init 100 = Some hp
  /\ HTTP.parse_request Spec.union_select_request = Some ("GET", "/", h1, "")
  /\ HTTP.parse_request Spec.select_union_request = Some ("GET", "/", h2, "")
  /\ Permutation h1 h2
  /\ HTTP.detect_attack Urllib.urlparse_path hp "/" h1 ""
     = Ret "sql_injection"
  /\ HTTP.detect_attack Urllib.urlparse_path hp "/" h2 "" = Ret "".
Proof.
  intros hp h1 h2. split; [apply http_init|].
  do 2 (split; [vm_compute; reflexivity|]).
  split; [apply perm_swap|].
  split; vm_compute; reflexivity.
Qed.

(** The same value under two header names, in two states of the
    honeypot. *)
Lemma http_classifier_determined_witness :
  let hp := Spec.http_honeypot 100 in
  let hp' := HTTP.count_request (Spec.http_honeypot 100) in
  let h := [("Host", "x' OR 'a'='a")] in
  let h' := [("X-Forwarded-Host", "x' OR 'a'='a")] in
  HTTP.sql_patterns hp = HTTP.sql_patterns hp'
  /\ HTTP.xss_patterns hp = HTTP.xss_patterns hp'
  /\ HTTP.path_patterns hp = HTTP.path_patterns hp'
  /\ Dict.values h = Dict.values h'
  /\ HTTP.detect_attack Urllib.urlparse_path hp "/" h ""
     = HTTP.detect_attack Urllib.urlparse_path hp' "/" h' "".
Proof.
  intros hp hp' h h'. do 4 (split; [reflexivity|]).
  apply (http_classifier_determined Urllib.urlparse_path hp hp' "/" "" h h');
    reflexivity.
Defined.

End HTTPRuns.

(* ===================================================================== *)
(** * SSH: login attempts and the ban *)
(* ===================================================================== *)

Section SSHSession.

Local Open Scope Z_scope.

Variable c : SSH.peer.

(** The loop reads nothing once three attempts are counted. *)
Lemma auth_loop_done (w : SSH.world) (n : Z) (reads : list SSH.read_result) :
  SSH.max_attempts <= n ->
  SSH.auth_loop c w n reads = (w, n, SSH.Normal).
Proof.
  intros Hn. apply Z.ltb_ge in Hn.
  destruct reads; cbn [SSH.auth_loop]; now rewrite Hn.
Qed.

(** One turn of the loop on a buffer. *)
Lemma auth_loop_recv (w : SSH.world) (n : Z) (text : string) (fl : bool)
  (rest : list SSH.read_result) :
  n < SSH.max_attempts ->
  SSH.auth_loop c w n (SSH.Recv text fl :: rest)
  = match SSH.parse_auth_packet text with
    | Some (user, pass) =>
        let w1 := SSH.log w (SSH.LoginAttempt (SSH.session c) user (n + 1)) in
        let w2 := SSH.set_hp w1 (SSH.record_attempt (SSH.hp w1)
                                   (SSH.login_event c user pass)) in
        let (reply, e) := SSH.build_auth_failure (SSH.rng w2) in
        let w3 := SSH.write w2 reply e in
        if fl then SSH.auth_loop c w3 (n + 1) rest
        else (w3, n + 1, SSH.Raised ConnectionResetError)
    | None => SSH.auth_loop c w n rest
    end.
Proof.
  intros Hn. apply Z.ltb_lt in Hn.
  cbn [SSH.auth_loop]. rewrite Hn.
  destruct (SSH.parse_auth_packet text) as [[user pass]|]; reflexivity.
Qed.

(** A parse failure leaves no trace: the loop goes on with the next
    buffer as if the failed one had not been sent. *)
Lemma auth_loop_skip (a b : list SSH.read_result) (junk : string)
  (fl : bool) :
  SSH.parse_auth_packet junk = None ->
  forall w n,
    SSH.auth_loop c w n (a ++ SSH.Recv junk fl :: b)
    = SSH.auth_loop c w n (a ++ b).
Proof.
  intros Hj. induction a as [|r a IH]; intros w n.
  - cbn [app]. destruct (Z.ltb_spec n SSH.max_attempts) as [Hn|Hn].
    + now rewrite auth_loop_recv, Hj.
    + now rewrite !auth_loop_done.
  - destruct (Z.ltb_spec n SSH.max_attempts) as [Hn|Hn];
      [|now rewrite !auth_loop_done].
    rewrite <- !app_comm_cons.
    destruct r as [text f| | |].
    + rewrite !auth_loop_recv by assumption.
      destruct (SSH.parse_auth_packet text) as [[user pass]|]; [|apply IH].
      cbv zeta. destruct (SSH.build_auth_failure _) as [reply e'].
      destruct f; [apply IH|reflexivity].
    + apply Z.ltb_lt in Hn. cbn [SSH.auth_loop]. now rewrite Hn.
    + apply Z.ltb_lt in Hn. cbn [SSH.auth_loop]. now rewrite Hn.
    + apply Z.ltb_lt in Hn. cbn [SSH.auth_loop]. now rewrite Hn.
Qed.

(** With three answered buffers ahead, the loop ends on the third one
    with [login_attempts = 3], and what follows is not read. *)
Lemma auth_loop_three (pre rest : list SSH.read_result) :
  Forall (fun r => Spec.answered r || Spec.unparsed r = true) pre ->
  forall w n,
    0 <= n <= 3 ->
    Z.of_nat (length (List.filter Spec.answered pre)) = 3 - n ->
    exists w',
      SSH.auth_loop c w n (pre ++ rest) = (w', 3, SSH.Normal)
      /\ SSH.auth_loop c w n pre = (w', 3, SSH.Normal)
      /\ Spec.loop_inv w w' (3 - n).
Proof.
  intros Hpre. induction Hpre as [|r pre Hr _ IH]; intros w n Hn Hc.
  - cbn in Hc. assert (n = 3) as -> by lia.
    exists w. rewrite !auth_loop_done by (unfold SSH.max_attempts; lia).
    repeat split; unfold Spec.loop_inv; lia.
  - destruct (Z.eq_dec n 3) as [->|Hn3].
    { exists w. rewrite !auth_loop_done by (unfold SSH.max_attempts; lia).
      repeat split; lia. }
    assert (Hlt : n < SSH.max_attempts) by (unfold SSH.max_attempts; lia).
    rewrite <- app_comm_cons.
    destruct r as [text f| | |]; try discriminate Hr.
    rewrite !auth_loop_recv by assumption.
    cbn [List.filter Spec.answered Spec.unparsed] in Hc, Hr.
    destruct (SSH.parse_auth_packet text) as [[user pass]|].
    + destruct f; [|discriminate Hr]. cbn [length] in Hc.
      cbv zeta. destruct (SSH.build_auth_failure _) as [reply e'].
      edestruct (IH (SSH.write
                       (SSH.set_hp
                          (SSH.log w (SSH.LoginAttempt (SSH.session c)
                                        user (n + 1)))
                          (SSH.record_attempt (SSH.hp w)
                             (SSH.login_event c user pass))) reply e')
                    (n + 1)) as (w' & H1 & H2 & Hi); [lia|lia|].
      exists w'. split; [exact H1|]. split; [exact H2|].
      destruct Hi as (I1 & I2 & I3 & I4 & I5 & I6).
      cbn [SSH.hp SSH.write SSH.set_hp SSH.log SSH.record_attempt
           SSH.banned_ips SSH.ban_time SSH.max_connections
           SSH.active_connections SSH.failed_logins SSH.events]
        in I1, I2, I3, I4, I5, I6.
      rewrite length_app in I6. cbn [length] in I6.
      repeat split; try assumption; lia.
    + destruct f; cbn [length] in Hc;
        (destruct (IH w n Hn Hc) as (w' & H1 & H2 & Hi);
         exists w'; repeat split; try assumption; apply Hi).
Qed.

End SSHSession.

Section SSHConnection.

Local Open Scope Z_scope.

Variable h : SSH.SSHHoneypot.
Variable e : SSH.entropy.
Variable c : SSH.peer.

(** The admission check only ever drops an expired entry. *)
Lemma is_banned_false (ip : string) (now : Z) :
  fst (SSH.is_banned h ip now) = false ->
  let h1 := snd (SSH.is_banned h ip now) in
  SSH.max_connections h1 = SSH.max_connections h
  /\ SSH.active_connections h1 = SSH.active_connections h
  /\ SSH.ban_time h1 = SSH.ban_time h
  /\ SSH.failed_logins h1 = SSH.failed_logins h
  /\ SSH.events h1 = SSH.events h.
Proof.
  unfold SSH.is_banned. destruct (SSH.banned_ips h !! ip) as [t|];
    [destruct (now <? t)|]; cbn; intros; repeat split; congruence.
Qed.

(** The session depends on the script only through the loop. *)
Lemma handle_connection_ext (l1 l2 : list SSH.read_result) :
  (forall w, SSH.auth_loop c w 0 l1 = SSH.auth_loop c w 0 l2) ->
  SSH.handle_connection h e c l1 = SSH.handle_connection h e c l2.
Proof.
  intros H. unfold SSH.handle_connection, SSH.greet, SSH.simulate_handshake.
  destruct (SSH.is_banned h _ _) as [[] h1]; [reflexivity|].
  destruct (_ <=? _); [reflexivity|].
  destruct (negb (SSH.version_flushed c)); [reflexivity|].
  destruct (SSH.client_version c); try reflexivity.
  destruct (SSH.build_kexinit _) as [kex e1].
  destruct (negb (SSH.kexinit_flushed c)); [reflexivity|].
  now rewrite H.
Qed.

(** A session whose loop ends with three attempts: the source is
    banned until [t_ban + ban_time], the connection is closed, and the
    connection count is back to what it was. *)
Lemma handle_connection_banned (reads : list SSH.read_result) :
  Spec.reaches_auth h c ->
  (forall w, exists w',
      SSH.auth_loop c w 0 reads = (w', 3, SSH.Normal)
      /\ Spec.loop_inv w w' 3) ->
  let o := SSH.handle_connection h e c reads in
  SSH.banned_ips (SSH.hp (SSH.final o)) !! SSH.client_ip c
  = Some (SSH.t_ban c + SSH.ban_time h)
  /\ SSH.closed o = true
  /\ SSH.failed_logins (SSH.hp (SSH.final o)) = SSH.failed_logins h + 3
  /\ SSH.active_connections (SSH.hp (SSH.final o))
     = SSH.active_connections h.
Proof.
  intros (Hb & Hcap & Hvf & [v Hv] & Hkf) Hloop.
  pose proof (is_banned_false _ _ Hb) as (M & A & B & F & _).
  unfold SSH.handle_connection, SSH.greet, SSH.simulate_handshake.
  destruct (SSH.is_banned h _ _) as [b h1]. cbn [fst snd] in *. subst b.
  rewrite M, A.
  replace (SSH.max_connections h <=? SSH.active_connections h) with false
    by (symmetry; apply Z.leb_gt; lia).
  rewrite Hvf, Hv. cbn [negb].
  destruct (SSH.build_kexinit _) as [kex e1]. rewrite Hkf. cbn [negb].
  match goal with
  | |- context [SSH.auth_loop c ?w 0 reads] =>
      destruct (Hloop w) as (w' & -> & I1 & I2 & I3 & I4 & I5 & _)
  end.
  cbn [SSH.hp SSH.write SSH.set_hp SSH.log SSH.count_connection
       SSH.banned_ips SSH.ban_time SSH.max_connections
       SSH.active_connections SSH.failed_logins] in I1, I2, I3, I4, I5.
  change (SSH.max_attempts <=? 3) with true. cbv iota.
  cbn [SSH.ban_ip SSH.final SSH.closed SSH.hp SSH.set_hp SSH.log
       SSH.set_active SSH.banned_ips SSH.failed_logins
       SSH.active_connections].
  rewrite I2, B, I4, I5, F, lookup_insert_eq.
  repeat split; lia.
Qed.

(** C1 (amended).  In a session that reaches the authentication loop
    and in which three buffers yield credentials (their replies
    flushed), the loop ends on the third attempt: nothing more is read,
    [ban_ip] records the source address with expiry [t_ban + ban_time],
    and the connection is closed.  A buffer from which no username is
    recovered neither closes the connection nor bans: the session runs
    as if that buffer had not been sent. *)
Theorem ssh_ban_after_three_attempts (pre rest : list SSH.read_result)
  (junk : string) (fl : bool) :
  Spec.reaches_auth h c ->
  Spec.three_attempts pre ->
  SSH.parse_auth_packet junk = None ->
  let o := SSH.handle_connection h e c (pre ++ rest) in
  (SSH.banned_ips (SSH.hp (SSH.final o)) !! SSH.client_ip c
   = Some (SSH.t_ban c + SSH.ban_time h)
   /\ SSH.closed o = true
   /\ SSH.failed_logins (SSH.hp (SSH.final o)) = SSH.failed_logins h + 3
   /\ SSH.active_connections (SSH.hp (SSH.final o))
      = SSH.active_connections h)
  /\ o = SSH.handle_connection h e c pre
  /\ (forall a b,
        SSH.handle_connection h e c (a ++ SSH.Recv junk fl :: b)
        = SSH.handle_connection h e c (a ++ b)).
Proof.
  intros Hreach [Hpre Hcount] Hjunk o.
  assert (Hthree : forall w, exists w',
             SSH.auth_loop c w 0 (pre ++ rest) = (w', 3, SSH.Normal)
             /\ SSH.auth_loop c w 0 pre = (w', 3, SSH.Normal)
             /\ Spec.loop_inv w w' 3).
  { intros w.
    destruct (auth_loop_three c pre rest Hpre w 0) as (w' & H1 & H2 & Hi);
      [lia|lia|]. now exists w'. }
  split; [|split].
  - apply handle_connection_banned; [assumption|].
    intros w. destruct (Hthree w) as (w' & H1 & _ & Hi). now exists w'.
  - apply handle_connection_ext. intros w.
    destruct (Hthree w) as (w' & -> & -> & _). reflexivity.
  - intros a b. apply handle_connection_ext. intros w.
    now apply auth_loop_skip.
Qed.

(** The loop counts the attempts it records, never beyond three, and
    leaves the ban table alone. *)
Lemma auth_loop_counts (reads : list SSH.read_result) :
  forall w n,
    0 <= n ->
    let '(w', n', _) := SSH.auth_loop c w n reads in
    n <= n' /\ SSH.banned_ips (SSH.hp w') = SSH.banned_ips (SSH.hp w)
    /\ SSH.failed_logins (SSH.hp w')
       = SSH.failed_logins (SSH.hp w) + (n' - n)
    /\ (n <= 3 -> n' <= 3).
Proof.
  induction reads as [|r reads IH]; intros w n Hn.
  - cbn [SSH.auth_loop]. destruct (n <? SSH.max_attempts); repeat split; lia.
  - destruct (Z.ltb_spec n SSH.max_attempts) as [Hlt|Hge].
    + destruct r as [text f| | |].
      * rewrite auth_loop_recv by assumption.
        destruct (SSH.parse_auth_packet text) as [[user pass]|];
          [|apply IH; assumption].
        cbv zeta. destruct (SSH.build_auth_failure _) as [reply e'].
        destruct f.
        -- match goal with
           | |- context [SSH.auth_loop c ?w1 (n + 1) reads] =>
               specialize (IH w1 (n + 1) ltac:(lia));
               destruct (SSH.auth_loop c w1 (n + 1) reads) as [[w' n'] x]
           end.
           destruct IH as (I1 & I2 & I3 & I4).
           cbn [SSH.hp SSH.write SSH.set_hp SSH.log SSH.record_attempt
                SSH.banned_ips SSH.failed_logins] in I2, I3.
           unfold SSH.max_attempts in Hlt. repeat split; try lia.
           assumption.
        -- unfold SSH.max_attempts in Hlt.
           cbn [SSH.hp SSH.write SSH.set_hp SSH.log SSH.record_attempt
                SSH.banned_ips SSH.failed_logins].
           repeat split; lia.
      * apply Z.ltb_lt in Hlt. cbn [SSH.auth_loop]. rewrite Hlt.
        repeat split; lia.
      * apply Z.ltb_lt in Hlt. cbn [SSH.auth_loop]. rewrite Hlt.
        repeat split; lia.
      * apply Z.ltb_lt in Hlt. cbn [SSH.auth_loop]. rewrite Hlt.
        repeat split; lia.
    + rewrite auth_loop_done by assumption. repeat split; lia.
Qed.

(** The ban is tied to the third attempt: a session that records fewer
    than three attempts leaves the ban table as the admission check left
    it. *)
Lemma no_ban_before_third_attempt (reads : list SSH.read_result) :
  let o := SSH.handle_connection h e c reads in
  SSH.failed_logins (SSH.hp (SSH.final o)) < SSH.failed_logins h + 3 ->
  SSH.banned_ips (SSH.hp (SSH.final o))
  = SSH.banned_ips (snd (SSH.is_banned h (SSH.client_ip c) (SSH.t_accept c))).
Proof.
  unfold SSH.handle_connection, SSH.greet, SSH.simulate_handshake.
  assert (Hf : SSH.failed_logins
                 (snd (SSH.is_banned h (SSH.client_ip c) (SSH.t_accept c)))
               = SSH.failed_logins h).
  { unfold SSH.is_banned. destruct (SSH.banned_ips h !! _) as [t|];
      [destruct (_ <? t)|]; reflexivity. }
  destruct (SSH.is_banned h _ _) as [[] h1]; cbn [snd] in *; [reflexivity|].
  destruct (_ <=? _); [reflexivity|].
  destruct (negb (SSH.version_flushed c)); [reflexivity|].
  destruct (SSH.client_version c) as [v| |x]; try reflexivity;
    [|destruct x; reflexivity].
  destruct (SSH.build_kexinit _) as [kex e1].
  destruct (negb (SSH.kexinit_flushed c)); [reflexivity|].
  match goal with
  | |- context [SSH.auth_loop c ?w 0 reads] =>
      pose proof (auth_loop_counts reads w 0 ltac:(lia)) as Hc;
      destruct (SSH.auth_loop c w 0 reads) as [[w' n'] how]
  end.
  destruct Hc as (H0 & Hb & Hn & H3).
  cbn [SSH.hp SSH.write SSH.set_hp SSH.log SSH.count_connection
       SSH.banned_ips SSH.failed_logins] in Hb, Hn.
  destruct how as [|x].
  - destruct (Z.leb_spec SSH.max_attempts n') as [Hge|Hlt].
    + unfold SSH.max_attempts in Hge.
      cbn [SSH.ban_ip SSH.final SSH.hp SSH.set_hp SSH.log SSH.set_active
           SSH.failed_logins].
      intros Hlt. lia.
    + intros _. cbn [SSH.final SSH.hp SSH.set_hp SSH.log SSH.set_active
                     SSH.banned_ips]. exact Hb.
  - intros _. destruct x;
      cbn [SSH.final SSH.hp SSH.set_hp SSH.log SSH.set_active
           SSH.banned_ips]; exact Hb.
Qed.

End SSHConnection.

(** ** The SSH honeypot on concrete sessions *)

Section SSHRuns.

Local Open Scope Z_scope.

(** C1, as stated, fails: a parse failure after the first attempt
    neither bans the source nor closes the connection; the session goes
    on and records the next attempt. *)
Lemma ssh_parse_failure_not_banned :
  let o := SSH.handle_connection (SSH.init 50 300) Spec.no_entropy
             Spec.ssh_peer Spec.interrupted_script in
  SSH.parse_auth_packet (Spec.credentials "user" "pass")
  = Some ("user", "pass")
  /\ SSH.parse_auth_packet (Py.NUL ++ Py.NUL) = None
  /\ SSH.banned_ips (SSH.hp (SSH.final o)) !! "10.0.0.7" = None
  /\ map SSH.username (SSH.events (SSH.hp (SSH.final o))) = ["user"; "root"]
  /\ SSH.logged (SSH.final o)
     = [SSH.ConnectionOpened "0123456789abcdef" "10.0.0.7" 40022;
        SSH.ClientVersion "0123456789abcdef" "SSH-2.0-libssh_0.9.6";
        SSH.LoginAttempt "0123456789abcdef" "user" 1;
        SSH.LoginAttempt "0123456789abcdef" "root" 2;
        SSH.ConnectionClosed "0123456789abcdef"].
Proof. intros o. repeat split; vm_compute; reflexivity. Qed.

(** A brute-force session: three attempts with a parse failure among
    them, then a buffer that is not read. *)
Lemma ssh_ban_after_three_attempts_witness :
  let h := SSH.init 50 300 in
  let c := Spec.ssh_peer in
  let pre := Spec.brute_force_script in
  let rest := [SSH.Recv (Spec.credentials "guest" "guest") true] in
  let junk := Py.NUL ++ Py.NUL in
  let o := SSH.handle_connection h Spec.no_entropy c (pre ++ rest) in
  Spec.reaches_auth h c
  /\ Spec.three_attempts pre
  /\ SSH.parse_auth_packet junk = None
  /\ (SSH.banned_ips (SSH.hp (SSH.final o)) !! SSH.client_ip c
      = Some (SSH.t_ban c + SSH.ban_time h)
      /\ SSH.closed o = true
      /\ SSH.failed_logins (SSH.hp (SSH.final o)) = SSH.failed_logins h + 3
      /\ SSH.active_connections (SSH.hp (SSH.final o))
         = SSH.active_connections h)
  /\ o = SSH.handle_connection h Spec.no_entropy c pre
  /\ (forall a b,
        SSH.handle_connection h Spec.no_entropy c
          (a ++ SSH.Recv junk true :: b)
        = SSH.handle_connection h Spec.no_entropy c (a ++ b)).
Proof.
  intros h c pre rest junk o.
  assert (Hr : Spec.reaches_auth h c).
  { repeat split; try reflexivity. eexists. reflexivity. }
  assert (Ht : Spec.three_attempts pre).
  { split; [|reflexivity]. repeat constructor. }
  assert (Hj : SSH.parse_auth_packet junk = None) by reflexivity.
  split; [exact Hr|]. split; [exact Ht|]. split; [exact Hj|].
  exact (ssh_ban_after_three_attempts h Spec.no_entropy c pre rest junk true
           Hr Ht Hj).
Defined.

End SSHRuns.

(* ===================================================================== *)
(** * SMTP: the size of a message *)
(* ===================================================================== *)

Section SMTPFacts.

Local Open Scope Z_scope.

Variable c : SMTP.peer.

(** A line in DATA mode that is not the terminator is handed to
    [gather]. *)
Lemma dialog_data_line (w : SMTP.world) (v : SMTP.vars) (raw : string)
  (fl : bool) (rest : list SMTP.read_result) :
  SMTP.in_data v = true ->
  String.eqb (Py.strip raw) "." = false ->
  SMTP.dialog c w v (SMTP.Line raw fl :: rest)
  = SMTP.dialog c w
      {| SMTP.v_mail_from := SMTP.v_mail_from v;
         SMTP.v_rcpt_to := SMTP.v_rcpt_to v;
         SMTP.in_data := true;
         SMTP.message_data :=
           SMTP.gather (SMTP.hp w) (SMTP.message_data v) (Py.strip raw) |}
      rest.
Proof. intros Hd Hl. cbn [SMTP.dialog]. now rewrite Hd, Hl. Qed.

(** The terminator records the message, with the length of the gathered
    text as its size. *)
Lemma dialog_data_end (w : SMTP.world) (v : SMTP.vars) (raw : string)
  (rest : list SMTP.read_result) :
  SMTP.in_data v = true ->
  Py.strip raw = "." ->
  exists w' v',
    SMTP.dialog c w v (SMTP.Line raw true :: rest) = SMTP.dialog c w' v' rest
    /\ SMTP.events (SMTP.hp w')
       = (SMTP.events (SMTP.hp w)
          ++ [{| SMTP.event_type := "smtp_message";
                 SMTP.source_ip := SMTP.client_ip c;
                 SMTP.source_port := SMTP.client_port c;
                 SMTP.mail_from := SMTP.v_mail_from v;
                 SMTP.rcpt_to := SMTP.v_rcpt_to v;
                 SMTP.subject :=
                   SMTP.extract_subject
                     (Py.join Py.LF (SMTP.message_data v));
                 SMTP.message_size :=
                   Py.len (Py.join Py.LF (SMTP.message_data v));
                 SMTP.session_id := SMTP.session c |}])%list
    /\ SMTP.in_data v' = false
    /\ SMTP.message_data v' = [].
Proof.
  intros Hd Hl. cbn [SMTP.dialog]. rewrite Hd, Hl.
  change (String.eqb "." ".") with true. cbv iota.
  do 2 eexists. split; [reflexivity|]. repeat split.
Qed.

(** The DATA command switches to DATA mode. *)
Lemma dialog_data_command (w : SMTP.world) (v : SMTP.vars)
  (rest : list SMTP.read_result) :
  SMTP.in_data v = false ->
  SMTP.dialog c w v (Spec.sent_line "DATA" :: rest)
  = SMTP.dialog c
      (SMTP.send_response w "354 Start mail input; end with <CRLF>.<CRLF>")
      {| SMTP.v_mail_from := SMTP.v_mail_from v;
         SMTP.v_rcpt_to := SMTP.v_rcpt_to v;
         SMTP.in_data := true;
         SMTP.message_data := SMTP.message_data v |}
      rest.
Proof.
  intros Hd. unfold Spec.sent_line. cbn [SMTP.dialog]. rewrite Hd.
  reflexivity.
Qed.

Lemma rstrip_filler (n : nat) :
  Py.rstrip_with Py.isspace (Spec.filler n ++ Py.CRLF) = Spec.filler n.
Proof.
  induction n as [|k IH]; [reflexivity|].
  cbn [Spec.filler]. rewrite append_cons. cbn [Py.rstrip_with].
  rewrite IH. destruct k; reflexivity.
Qed.

Lemma strip_filler (n : nat) :
  Py.strip (Spec.filler n ++ Py.CRLF) = Spec.filler n.
Proof.
  unfold Py.strip, Py.strip_with. destruct n as [|k]; [reflexivity|].
  cbn [Spec.filler]. rewrite append_cons.
  change (Py.lstrip_with Py.isspace (String "a" (Spec.filler k ++ Py.CRLF)))
    with (String "a" (Spec.filler k ++ Py.CRLF)).
  rewrite <- append_cons. apply (rstrip_filler (S k)).
Qed.

Lemma filler_not_dot (n : nat) : String.eqb (Spec.filler n) "." = false.
Proof. destruct n; reflexivity. Qed.

Lemma length_filler (n : nat) : String.length (Spec.filler n) = n.
Proof. induction n as [|k IH]; [reflexivity|]. cbn. now rewrite IH. Qed.

Lemma len_join_snoc (md : list string) (line : string) :
  Py.len (Py.join Py.LF (md ++ [line]))
  <= Py.len (Py.join Py.LF md) + 1 + Py.len line.
Proof.
  unfold Py.len, Py.join. induction md as [|a md IH].
  - cbn [app String.concat String.length]. lia.
  - destruct md as [|b md].
    + cbn [app String.concat]. rewrite !length_append.
      cbn [String.length Py.LF]. lia.
    + change ((a :: b :: md) ++ [line])%list
        with (a :: (b :: (md ++ [line]))%list).
      change ((b :: md) ++ [line])%list with (b :: (md ++ [line])%list) in IH.
      cbn [String.concat] in *. rewrite !length_append in *.
      cbn [String.length Py.LF] in *. lia.
Qed.

(** What the guard does ensure: the text gathered grows by a line only
    from below the cap, so it stays within the cap plus the length of
    that line. *)
Lemma gather_bound (h : SMTP.SMTPHoneypot) (md : list string)
  (line : string) (bound : Z) :
  Py.len (Py.join Py.LF md) <= bound ->
  Py.len (Py.join Py.LF (SMTP.gather h md line))
  <= Z.max bound (SMTP.max_message_size h + Py.len line).
Proof.
  intros Hb. unfold SMTP.gather.
  destruct (Z.ltb_spec (Py.len (Py.join Py.LF md)) (SMTP.max_message_size h)).
  - pose proof (len_join_snoc md line). lia.
  - lia.
Qed.

End SMTPFacts.

Section SMTPOversize.

Local Open Scope Z_scope.

Lemma len_two_lines (a b : string) :
  Py.len (Py.join Py.LF [a; b]) = Py.len a + 1 + Py.len b.
Proof.
  unfold Py.len, Py.join. cbn [String.concat].
  rewrite !length_append. cbn [String.length Py.LF]. lia.
Qed.

(** C2.  The cap is tested before a line is appended, not after: when
    the text gathered so far is one character short of the cap, the next
    line is still appended, and the smtp_message event reports a
    message_size above max_message_size.  This holds for every cap. *)
Theorem smtp_message_size_exceeds_cap (max_size : Z) (host : string) :
  1 <= max_size ->
  let h := SMTP.init max_size host in
  let o := SMTP.handle_connection h [] Spec.smtp_peer
             (Spec.oversize_script max_size) in
  Spec.message_sizes o = [max_size + 1]
  /\ SMTP.max_message_size h < max_size + 1.
Proof.
  intros Hmax h o. split; [|unfold h; cbn [SMTP.max_message_size SMTP.init]; lia].
  unfold Spec.message_sizes, o, SMTP.handle_connection, Spec.oversize_script.
  subst h.
  cbn [SMTP.alloc SMTP.log SMTP.send_response SMTP.greeting_flushed
       Spec.smtp_peer SMTP.hp SMTP.store SMTP.sent SMTP.logged].
  rewrite dialog_data_command by reflexivity.
  unfold Spec.sent_line at 1.
  rewrite dialog_data_line
    by (try reflexivity; rewrite strip_filler; apply filler_not_dot).
  rewrite strip_filler.
  unfold Spec.sent_line at 1.
  rewrite dialog_data_line by reflexivity.
  set (n := Z.to_nat (max_size - 1)).
  cbn [SMTP.message_data SMTP.hp SMTP.send_response].
  assert (Hg1 : SMTP.gather (SMTP.count_connection (SMTP.init max_size host))
                  [] (Spec.filler n)
                = [Spec.filler n]).
  { unfold SMTP.gather. cbn [Py.join String.concat SMTP.max_message_size
                               SMTP.count_connection SMTP.init].
    change (Py.len "") with 0.
    replace (0 <? max_size) with true by (symmetry; apply Z.ltb_lt; lia).
    reflexivity. }
  rewrite Hg1.
  assert (Hg2 : SMTP.gather (SMTP.count_connection (SMTP.init max_size host))
                  [Spec.filler n] (Py.strip ("b" ++ Py.CRLF))
                = [Spec.filler n; "b"]).
  { unfold SMTP.gather. cbn [Py.join String.concat SMTP.max_message_size
                               SMTP.count_connection SMTP.init].
    replace (Py.len (Spec.filler n) <? max_size) with true
      by (symmetry; apply Z.ltb_lt; unfold Py.len;
          rewrite length_filler; lia).
    reflexivity. }
  rewrite Hg2.
  unfold Spec.sent_line.
  match goal with
  | |- context [SMTP.dialog ?c ?w ?v (SMTP.Line ?raw true :: ?rest)] =>
      destruct (dialog_data_end c w v raw rest eq_refl eq_refl)
        as (w' & v' & -> & Hev & _)
  end.
  cbn [SMTP.dialog SMTP.final SMTP.hp SMTP.set_hp SMTP.log SMTP.set_active
       SMTP.events].
  rewrite Hev. cbn [SMTP.hp SMTP.events SMTP.count_connection SMTP.init
                    SMTP.send_response app map SMTP.message_size
                    SMTP.message_data].
  rewrite len_two_lines. unfold Py.len at 1 2.
  rewrite length_filler. cbn [String.length]. f_equal. subst n. lia.
Qed.

(** Under a cap of 8 characters. *)
Lemma smtp_message_size_exceeds_cap_witness :
  let h := SMTP.init 8 "mail.example.com" in
  let o := SMTP.handle_connection h [] Spec.smtp_peer
             (Spec.oversize_script 8) in
  1 <= 8
  /\ Spec.message_sizes o = [8 + 1]
  /\ SMTP.max_message_size h < 8 + 1.
Proof.
  intros h o. split; [lia|].
  apply (smtp_message_size_exceeds_cap 8 "mail.example.com"). lia.
Defined.

(** The same session, run: the message recorded has 9 characters under
    a cap of 8. *)
Lemma smtp_oversize_run :
  Spec.message_sizes
    (SMTP.handle_connection (SMTP.init 8 "mail.example.com") []
       Spec.smtp_peer (Spec.oversize_script 8)) = [9].
Proof. vm_compute. reflexivity. Qed.

End SMTPOversize.

(* ===================================================================== *)
(** * SSH: the ban table, admission and the accounting of attempts *)
(* ===================================================================== *)

Section SSHBanTable.

Local Open Scope Z_scope.

(** X1.  A ban lasts [ban_time]: after [ban_ip] at clock [now], the
    admission check answers "banned" at every clock reading before
    [now + ban_time] and leaves the table alone; from [now + ban_time] on
    it answers "not banned" and drops the entry.  Either way the entries
    of the other addresses are as they were before the ban. *)
Theorem ssh_ban_lasts_ban_time (h : SSH.SSHHoneypot) (ip : string)
  (now t : Z) :
  let banned := fst (SSH.ban_ip h ip now) in
  let checked := SSH.is_banned banned ip t in
  fst checked = (t <? now + SSH.ban_time h)
  /\ SSH.banned_ips (snd checked) !! ip
     = (if t <? now + SSH.ban_time h
        then Some (now + SSH.ban_time h) else None)
  /\ (forall other, other <> ip ->
        SSH.banned_ips (snd checked) !! other = SSH.banned_ips h !! other)
  /\ snd (SSH.ban_ip h ip now) = SSH.IpBanned ip (SSH.ban_time h).
Proof.
  intros banned checked. subst checked banned.
  unfold SSH.is_banned, SSH.ban_ip. cbn [fst snd SSH.banned_ips SSH.ban_time].
  rewrite lookup_insert_eq.
  destruct (t <? now + SSH.ban_time h); cbn [fst snd SSH.banned_ips].
  - repeat split.
    + apply lookup_insert_eq.
    + intros other Hne. now apply lookup_insert_ne.
  - repeat split.
    + apply lookup_delete_eq.
    + intros other Hne.
      rewrite lookup_delete_ne by congruence.
      now apply lookup_insert_ne.
Qed.

End SSHBanTable.

Section SSHAccounting.

Local Open Scope Z_scope.

Variable c : SSH.peer.

(** What the authentication loop does to the world: it appends one
    failure reply, one log line and one event per attempt, counts them
    in [failed_logins], and touches nothing else. *)
Lemma auth_loop_trace (reads : list SSH.read_result) :
  forall w n,
    0 <= n ->
    exists replies lines evs,
      let '(w', n', _) := SSH.auth_loop c w n reads in
      SSH.sent w' = (SSH.sent w ++ replies)%list
      /\ SSH.logged w' = (SSH.logged w ++ lines)%list
      /\ SSH.events (SSH.hp w') = (SSH.events (SSH.hp w) ++ evs)%list
      /\ Z.of_nat (length evs) = n' - n
      /\ length replies = length evs
      /\ length lines = length evs
      /\ Forall (fun ev => SSH.event_type ev = "ssh_login_attempt"
                           /\ SSH.success ev = false
                           /\ SSH.source_ip ev = SSH.client_ip c
                           /\ SSH.session_id ev = SSH.session c) evs
      /\ Forall (fun buf => exists e, buf = fst (SSH.build_auth_failure e))
           replies
      /\ SSH.failed_logins (SSH.hp w')
         = SSH.failed_logins (SSH.hp w) + (n' - n)
      /\ SSH.successful_logins (SSH.hp w') = SSH.successful_logins (SSH.hp w)
      /\ SSH.banned_ips (SSH.hp w') = SSH.banned_ips (SSH.hp w)
      /\ SSH.active_connections (SSH.hp w')
         = SSH.active_connections (SSH.hp w)
      /\ SSH.total_connections (SSH.hp w') = SSH.total_connections (SSH.hp w)
      /\ (n <= 3 -> n' <= 3).
Proof.
  induction reads as [|r reads IH]; intros w n Hn.
  - exists [], [], []. cbn [SSH.auth_loop].
    destruct (n <? SSH.max_attempts); rewrite !app_nil_r;
      repeat split; try constructor; cbn [length]; lia.
  - destruct (Z.ltb_spec n SSH.max_attempts) as [Hlt|Hge].
    + destruct r as [text f| | |].
      * rewrite auth_loop_recv by assumption.
        destruct (SSH.parse_auth_packet text) as [[user pass]|];
          [|apply IH; assumption].
        cbv zeta.
        destruct (SSH.build_auth_failure (SSH.rng _)) as [reply e'] eqn:Eb.
        destruct f.
        -- match goal with
           | |- context [SSH.auth_loop c ?w1 (n + 1) reads] =>
               destruct (IH w1 (n + 1) ltac:(lia))
                 as (replies & lines & evs & IHw);
               destruct (SSH.auth_loop c w1 (n + 1) reads) as [[w' n'] x]
           end.
           destruct IHw as (S1 & L1 & E1 & C1 & C2 & C3 & F1 & F2 & N1 & N2
                            & B1 & A1 & T1 & M1).
           cbn [SSH.hp SSH.write SSH.set_hp SSH.log SSH.record_attempt
                SSH.banned_ips SSH.failed_logins SSH.successful_logins
                SSH.events SSH.sent SSH.logged SSH.active_connections
                SSH.total_connections] in S1, L1, E1, N1, N2, B1, A1, T1.
           exists (reply :: replies),
             (SSH.LoginAttempt (SSH.session c) user (n + 1) :: lines),
             (SSH.login_event c user pass :: evs).
           rewrite S1, L1, E1, <- !app_assoc. cbn [app length].
           unfold SSH.max_attempts in Hlt.
           repeat split; try lia; try assumption.
           ++ constructor; [repeat split|assumption].
           ++ constructor; [|assumption].
              eexists. rewrite Eb. reflexivity.
        -- exists [reply], [SSH.LoginAttempt (SSH.session c) user (n + 1)],
             [SSH.login_event c user pass].
           cbn [SSH.hp SSH.write SSH.set_hp SSH.log SSH.record_attempt
                SSH.banned_ips SSH.failed_logins SSH.successful_logins
                SSH.events SSH.sent SSH.logged SSH.active_connections
                SSH.total_connections length].
           unfold SSH.max_attempts in Hlt.
           repeat split; try lia.
           ++ constructor; [repeat split|constructor].
           ++ constructor; [|constructor].
              eexists. rewrite Eb. reflexivity.
      * exists [], [], []. apply Z.ltb_lt in Hlt. cbn [SSH.auth_loop].
        rewrite Hlt, !app_nil_r. repeat split; try constructor; cbn; lia.
      * exists [], [], []. apply Z.ltb_lt in Hlt. cbn [SSH.auth_loop].
        rewrite Hlt, !app_nil_r. repeat split; try constructor; cbn; lia.
      * exists [], [], []. apply Z.ltb_lt in Hlt. cbn [SSH.auth_loop].
        rewrite Hlt, !app_nil_r. repeat split; try constructor; cbn; lia.
    + exists [], [], []. rewrite auth_loop_done by assumption.
      rewrite !app_nil_r. unfold SSH.max_attempts in Hge.
      repeat split; try constructor; cbn; lia.
Qed.

End SSHAccounting.

Section SSHAdmission.

Local Open Scope Z_scope.

Variable h : SSH.SSHHoneypot.
Variable e : SSH.entropy.
Variable c : SSH.peer.

(** The admission check changes nothing but the ban table. *)
Lemma is_banned_frame (ip : string) (now : Z) :
  let h1 := snd (SSH.is_banned h ip now) in
  SSH.max_connections h1 = SSH.max_connections h
  /\ SSH.active_connections h1 = SSH.active_connections h
  /\ SSH.ban_time h1 = SSH.ban_time h
  /\ SSH.events h1 = SSH.events h
  /\ SSH.total_connections h1 = SSH.total_connections h
  /\ SSH.failed_logins h1 = SSH.failed_logins h
  /\ SSH.successful_logins h1 = SSH.successful_logins h
  /\ (fst (SSH.is_banned h ip now) = true -> h1 = h).
Proof.
  unfold SSH.is_banned. destruct (SSH.banned_ips h !! ip) as [t|];
    [destruct (now <? t)|]; cbn; repeat split; congruence.
Qed.

(** What an accepted session leaves behind, whatever the peer does. *)
Lemma ssh_session_trace (reads : list SSH.read_result) :
  let o := SSH.handle_connection h e c reads in
  SSH.accepted o = true ->
  exists kexs fails lines evs,
    SSH.sent (SSH.final o) = (SSH.server_version :: kexs ++ fails)%list
    /\ (length kexs <= 1)%nat
    /\ Forall (fun buf => exists e', buf = fst (SSH.build_kexinit e')) kexs
    /\ length fails = length evs
    /\ Forall (fun buf => exists e', buf = fst (SSH.build_auth_failure e'))
         fails
    /\ SSH.logged (SSH.final o)
       = (SSH.ConnectionOpened (SSH.session c) (SSH.client_ip c)
            (SSH.client_port c) :: lines
          ++ [SSH.ConnectionClosed (SSH.session c)])%list
    /\ SSH.events (SSH.hp (SSH.final o)) = (SSH.events h ++ evs)%list
    /\ (length evs <= 3)%nat
    /\ Forall (fun ev => SSH.event_type ev = "ssh_login_attempt"
                         /\ SSH.success ev = false
                         /\ SSH.source_ip ev = SSH.client_ip c
                         /\ SSH.session_id ev = SSH.session c) evs
    /\ SSH.failed_logins (SSH.hp (SSH.final o))
       = SSH.failed_logins h + Z.of_nat (length evs)
    /\ SSH.successful_logins (SSH.hp (SSH.final o)) = SSH.successful_logins h
    /\ SSH.active_connections (SSH.hp (SSH.final o))
       = SSH.active_connections h
    /\ SSH.total_connections (SSH.hp (SSH.final o))
       = SSH.total_connections h + 1.
Proof.
  intros o. subst o.
  pose proof (is_banned_frame (SSH.client_ip c) (SSH.t_accept c))
    as (M & A & B & E & T & F & S & _).
  unfold SSH.handle_connection, SSH.greet, SSH.simulate_handshake.
  destruct (SSH.is_banned h _ _) as [[] h1]; cbn [fst snd] in *;
    [discriminate|].
  destruct (_ <=? _); [discriminate|]. intros _.
  destruct (negb (SSH.version_flushed c)).
  { exists [], [], [SSH.ConnectionReset (SSH.session c)], [].
    cbn. rewrite app_nil_r.
    repeat split; first [assumption | lia | now constructor]. }
  destruct (SSH.client_version c) as [v| |x].
  2:{ exists [], [], [SSH.Timeout (SSH.session c)], [].
      cbn. rewrite app_nil_r.
      repeat split; first [assumption | lia | now constructor]. }
  2:{ exists [], [],
        [match x with
         | TimeoutError => SSH.Timeout (SSH.session c)
         | ConnectionResetError => SSH.ConnectionReset (SSH.session c)
         | _ => SSH.Error (SSH.session c) x
         end], [].
      destruct x; cbn; rewrite app_nil_r;
        repeat split; first [assumption | lia | now constructor]. }
  destruct (SSH.build_kexinit (SSH.rng _)) as [kex e1] eqn:Ek.
  assert (Hkex : Forall (fun buf => exists e', buf = fst (SSH.build_kexinit e'))
                   [kex]).
  { constructor; [|constructor]. eexists. rewrite Ek. reflexivity. }
  destruct (negb (SSH.kexinit_flushed c)).
  { exists [kex], [],
      [SSH.ClientVersion (SSH.session c) (Py.strip v);
       SSH.ConnectionReset (SSH.session c)], [].
    cbn. rewrite app_nil_r.
    repeat split; first [assumption | lia | now constructor]. }
  match goal with
  | |- context [SSH.auth_loop c ?w 0 reads] =>
      destruct (auth_loop_trace c reads w 0 ltac:(lia))
        as (replies & lines & evs & Ht);
      destruct (SSH.auth_loop c w 0 reads) as [[w' n'] how]
  end.
  destruct Ht as (S1 & L1 & E1 & C1 & C2 & C3 & F1 & F2 & N1 & N2
                  & B1 & A1 & T1 & M1).
  cbn [SSH.hp SSH.write SSH.set_hp SSH.log SSH.count_connection
       SSH.banned_ips SSH.failed_logins SSH.successful_logins
       SSH.events SSH.sent SSH.logged SSH.active_connections
       SSH.total_connections app] in S1, L1, E1, N1, N2, B1, A1, T1.
  specialize (M1 ltac:(lia)).
  assert (Hlen : (length evs <= 3)%nat) by lia.
  assert (Hone : (length [kex] <= 1)%nat) by (cbn; lia).
  destruct how as [|x].
  - destruct (SSH.max_attempts <=? n').
    + exists [kex], replies,
        (SSH.ClientVersion (SSH.session c) (Py.strip v) :: lines
         ++ [SSH.IpBanned (SSH.client_ip c) (SSH.ban_time (SSH.hp w'))])%list,
        evs.
      cbn [SSH.ban_ip SSH.final SSH.hp SSH.set_hp SSH.log SSH.set_active
           SSH.sent SSH.logged SSH.events SSH.failed_logins
           SSH.successful_logins SSH.active_connections
           SSH.total_connections].
      rewrite S1, L1, E1, N1, N2, A1, T1. cbn [app].
      rewrite <- ?app_assoc. cbn [app].
      repeat split; try assumption; try congruence; lia.
    + exists [kex], replies,
        (SSH.ClientVersion (SSH.session c) (Py.strip v) :: lines)%list, evs.
      cbn [SSH.final SSH.hp SSH.set_hp SSH.log SSH.set_active
           SSH.sent SSH.logged SSH.events SSH.failed_logins
           SSH.successful_logins SSH.active_connections
           SSH.total_connections].
      rewrite S1, L1, E1, N1, N2, A1, T1. cbn [app].
      repeat split; try assumption; try congruence; lia.
  - exists [kex], replies,
      (SSH.ClientVersion (SSH.session c) (Py.strip v) :: lines
       ++ [match x with
           | TimeoutError => SSH.Timeout (SSH.session c)
           | ConnectionResetError => SSH.ConnectionReset (SSH.session c)
           | _ => SSH.Error (SSH.session c) x
           end])%list, evs.
    destruct x;
      cbn [SSH.final SSH.hp SSH.set_hp SSH.log SSH.set_active
           SSH.sent SSH.logged SSH.events SSH.failed_logins
           SSH.successful_logins SSH.active_connections
           SSH.total_connections];
      rewrite S1, L1, E1, N1, N2, A1, T1; cbn [app];
      rewrite <- ?app_assoc; cbn [app];
      repeat split; try assumption; try congruence; lia.
Qed.

(** A refused connection: nothing is written or logged, and the
    honeypot is as the admission check left it. *)
Lemma ssh_refused (reads : list SSH.read_result) :
  let checked := SSH.is_banned h (SSH.client_ip c) (SSH.t_accept c) in
  let o := SSH.handle_connection h e c reads in
  SSH.accepted o = false ->
  SSH.hp (SSH.final o) = snd checked
  /\ SSH.sent (SSH.final o) = []
  /\ SSH.logged (SSH.final o) = [].
Proof.
  intros checked o. subst o checked. unfold SSH.handle_connection.
  destruct (SSH.is_banned h _ _) as [[] h1]; cbn [fst snd];
    [intros _; repeat split|].
  destruct (_ <=? _); [intros _; repeat split|].
  destruct (SSH.greet _ _ _) as [w how]. discriminate.
Qed.

Lemma ssh_accepted_iff (reads : list SSH.read_result) :
  SSH.accepted (SSH.handle_connection h e c reads)
  = negb (fst (SSH.is_banned h (SSH.client_ip c) (SSH.t_accept c)))
    && (SSH.active_connections h <? SSH.max_connections h).
Proof.
  pose proof (is_banned_frame (SSH.client_ip c) (SSH.t_accept c))
    as (M & A & _).
  unfold SSH.handle_connection.
  destruct (SSH.is_banned h _ _) as [[] h1]; cbn [fst snd] in *;
    [reflexivity|].
  rewrite M, A, Z.leb_antisym.
  destruct (SSH.active_connections h <? SSH.max_connections h);
    [|reflexivity].
  cbn [negb]. destruct (SSH.greet _ _ _) as [w how]. reflexivity.
Qed.

(** X2.  Admission.  A connection is accepted exactly when its address
    is not banned at the time of the check and the honeypot is below its
    connection cap.  A refused connection is closed without a byte
    written or a line logged, and a banned address leaves every metric
    as it was.  An accepted connection is counted once in
    total_connections, is sent the server banner first, is logged as
    opened first and as closed last; either way the connection is closed
    and active_connections is back to its value, whatever the peer
    does. *)
Theorem ssh_connection_admission (reads : list SSH.read_result) :
  let checked := SSH.is_banned h (SSH.client_ip c) (SSH.t_accept c) in
  let o := SSH.handle_connection h e c reads in
  SSH.accepted o
  = negb (fst checked)
    && (SSH.active_connections h <? SSH.max_connections h)
  /\ SSH.closed o = true
  /\ SSH.active_connections (SSH.hp (SSH.final o))
     = SSH.active_connections h
  /\ (SSH.accepted o = false ->
      SSH.hp (SSH.final o) = snd checked
      /\ SSH.sent (SSH.final o) = []
      /\ SSH.logged (SSH.final o) = []
      /\ SSH.total_connections (SSH.hp (SSH.final o))
         = SSH.total_connections h)
  /\ (fst checked = true ->
      SSH.get_metrics (SSH.hp (SSH.final o)) = SSH.get_metrics h)
  /\ (SSH.accepted o = true ->
      SSH.total_connections (SSH.hp (SSH.final o))
      = SSH.total_connections h + 1
      /\ head (SSH.sent (SSH.final o)) = Some SSH.server_version
      /\ exists lines,
           SSH.logged (SSH.final o)
           = (SSH.ConnectionOpened (SSH.session c) (SSH.client_ip c)
                (SSH.client_port c) :: lines
              ++ [SSH.ConnectionClosed (SSH.session c)])%list).
Proof.
  intros checked o.
  pose proof (is_banned_frame (SSH.client_ip c) (SSH.t_accept c))
    as (M & A & B & E & T & F & S & Hsame).
  fold checked in M, A, B, E, T, F, S, Hsame.
  split; [apply ssh_accepted_iff|].
  split; [subst o; unfold SSH.handle_connection;
          destruct (SSH.is_banned h _ _) as [[] h1]; [reflexivity|];
          destruct (_ <=? _); [reflexivity|];
          destruct (SSH.greet _ _ _); reflexivity|].
  assert (Hrefused : SSH.accepted o = false ->
            SSH.hp (SSH.final o) = snd checked
            /\ SSH.sent (SSH.final o) = []
            /\ SSH.logged (SSH.final o) = [])
    by apply ssh_refused.
  split; [|split; [|split]].
  - destruct (SSH.accepted o) eqn:Ea.
    + destruct (ssh_session_trace reads Ea)
        as (? & ? & ? & ? & _ & _ & _ & _ & _ & _ & _ & _ & _ & _ & _ & Ha & _).
      exact Ha.
    + destruct (Hrefused eq_refl) as (-> & _). exact A.
  - intros Ea. destruct (Hrefused Ea) as (Hh & Hs & Hl).
    rewrite Hh. repeat split; assumption.
  - intros Hb.
    assert (Ea : SSH.accepted o = false).
    { subst o. rewrite ssh_accepted_iff. fold checked. now rewrite Hb. }
    destruct (Hrefused Ea) as (-> & _). now rewrite (Hsame Hb).
  - intros Ea.
    destruct (ssh_session_trace reads Ea)
      as (kexs & fails & lines & evs & Hs & _ & _ & _ & _ & Hl & _ & _ & _
          & _ & _ & _ & Ht).
    fold o in Hs, Hl, Ht. rewrite Hs. repeat split; [exact Ht|].
    now exists lines.
Qed.

(** X3.  Accounting of login attempts.  Whatever the peer sends, a
    connection records at most three login attempts; each is appended to
    the events as a failed ssh_login_attempt of this peer and session,
    counted once in failed_logins and answered by one USERAUTH_FAILURE
    packet, written after the server banner and the KEXINIT packet.
    successful_logins never changes: no attempt succeeds. *)
Theorem ssh_attempts_accounted (reads : list SSH.read_result) :
  let o := SSH.handle_connection h e c reads in
  exists evs kexs fails,
    SSH.events (SSH.hp (SSH.final o)) = (SSH.events h ++ evs)%list
    /\ (length evs <= 3)%nat
    /\ Forall (fun ev => SSH.event_type ev = "ssh_login_attempt"
                         /\ SSH.success ev = false
                         /\ SSH.source_ip ev = SSH.client_ip c
                         /\ SSH.session_id ev = SSH.session c) evs
    /\ SSH.failed_logins (SSH.hp (SSH.final o))
       = SSH.failed_logins h + Z.of_nat (length evs)
    /\ SSH.successful_logins (SSH.hp (SSH.final o)) = SSH.successful_logins h
    /\ (SSH.accepted o = true ->
        SSH.sent (SSH.final o) = (SSH.server_version :: kexs ++ fails)%list)
    /\ (length kexs <= 1)%nat
    /\ Forall (fun buf => exists e', buf = fst (SSH.build_kexinit e')) kexs
    /\ length fails = length evs
    /\ Forall (fun buf => exists e', buf = fst (SSH.build_auth_failure e'))
         fails.
Proof.
  intros o. destruct (SSH.accepted o) eqn:Ea.
  - destruct (ssh_session_trace reads Ea)
      as (kexs & fails & lines & evs & Hs & Hk & Hkf & Hf & Hff & _ & He
          & Hn & Hev & Hfl & Hsl & _).
    exists evs, kexs, fails. repeat split; try assumption.
    intros _. exact Hs.
  - destruct (ssh_refused reads Ea) as (Hh & _).
    pose proof (is_banned_frame (SSH.client_ip c) (SSH.t_accept c))
      as (_ & _ & _ & E & _ & F & S & _).
    exists [], [], []. fold o in Hh. rewrite Hh, E, F, S, app_nil_r.
    cbn [length]. repeat split; first [now constructor | lia].
Qed.

End SSHAdmission.
Section PyFields.

(** The first field of a text, up to a one-character separator. *)
Lemma split_go_field (c0 : ascii) (seg rest acc : string) :
  Py.contains seg (String c0 "") = false ->
  Py.split_go (String c0 "") (seg ++ String c0 rest) 0 acc
  = (acc ++ seg) :: Py.split_go (String c0 "") rest 0 "".
Proof.
  revert acc. induction seg as [|c r IH]; intros acc H.
  - rewrite append_nil_l, append_nil_r. cbn [Py.split_go].
    rewrite prefix_cons, Ascii.eqb_refl, prefix_nil. reflexivity.
  - apply contains_cons_false in H as [Hp Hr].
    rewrite append_cons. cbn [Py.split_go].
    replace (String.prefix (String c0 "") (String c (r ++ String c0 rest)))
      with false.
    + rewrite IH by assumption. now rewrite append_assoc.
    + rewrite prefix_cons in *. rewrite prefix_nil in *.
      now rewrite andb_true_r in *.
Qed.

Lemma nonempty_true (s : string) : Py.nonempty s = true <-> s <> "".
Proof. destruct s; cbn; split; congruence. Qed.

(** A text of alphanumeric characters holds no NUL. *)
Lemma isalnum_no_nul (s : string) :
  Py.forallb_str Py.isalnum_char s = true -> Py.contains s Py.NUL = false.
Proof.
  induction s as [|c r IH]; [reflexivity|].
  cbn [Py.forallb_str]. intros H. apply andb_true_iff in H as [Hc Hr].
  cbn [Py.contains]. rewrite (IH Hr), orb_false_r.
  unfold Py.NUL. rewrite prefix_cons, prefix_nil, andb_true_r.
  apply Ascii.eqb_neq. intros <-. discriminate Hc.
Qed.

End PyFields.

Section SSHCredentials.

Local Open Scope Z_scope.

(** The state of the scan once a user name is found: the password is the
    first candidate met. *)
Lemma scan_password (parts : list string) (user pass : string) :
  Py.nonempty user = true ->
  fold_left SSH.scan_part parts (user, pass)
  = (user,
     if Py.nonempty pass then pass
     else hd "" (List.filter Spec.candidate parts)).
Proof.
  intros Hu. revert pass. induction parts as [|part parts IH]; intros pass.
  - cbn. now destruct pass.
  - cbn [fold_left List.filter]. unfold SSH.scan_part at 2.
    fold (Spec.candidate part).
    destruct (Spec.candidate part) eqn:Ec.
    + rewrite Hu. cbn [negb andb].
      destruct (Py.nonempty pass) eqn:Ep; cbn [negb].
      * rewrite IH. now rewrite Ep.
      * rewrite IH. unfold Spec.candidate in Ec.
        apply andb_true_iff in Ec as [-> _]. reflexivity.
    + rewrite IH. reflexivity.
Qed.

Lemma scan_user (parts : list string) :
  (let (user, pass) := fold_left SSH.scan_part parts ("", "") in
   if Py.nonempty user then Some (user, pass) else None)
  = Spec.credentials_of parts.
Proof.
  induction parts as [|part parts IH]; [reflexivity|].
  cbn [fold_left Spec.credentials_of]. unfold SSH.scan_part at 2.
  fold (Spec.candidate part). cbn [Py.nonempty negb andb].
  destruct (Spec.candidate part) eqn:Ec; cbn [andb]; [|exact IH].
  destruct (Py.isalnum part) eqn:Ea; [|exact IH].
  assert (Hn : Py.nonempty part = true).
  { unfold Spec.candidate in Ec. now apply andb_true_iff in Ec as [-> _]. }
  rewrite scan_password by assumption. now rewrite Hn.
Qed.

Lemma credentials_of_sound (parts : list string) (user pass : string) :
  Spec.credentials_of parts = Some (user, pass) ->
  In user parts /\ Py.isalnum user = true /\ Py.len user < 64
  /\ (pass = "" \/ (In pass parts /\ Py.len pass < 64)).
Proof.
  induction parts as [|part parts IH]; [discriminate|].
  cbn [Spec.credentials_of].
  destruct (Spec.candidate part && Py.isalnum part) eqn:E.
  - intros [= <- <-]. apply andb_true_iff in E as [Ec Ea].
    unfold Spec.candidate in Ec. apply andb_true_iff in Ec as [_ Hl].
    apply Z.ltb_lt in Hl. repeat split; [now left|assumption|assumption|].
    destruct (List.filter Spec.candidate parts) as [|p ps] eqn:Ef;
      [now left|right].
    assert (Hin : In p (List.filter Spec.candidate parts))
      by (rewrite Ef; now left).
    apply List.filter_In in Hin as [Hin Hc]. cbn [hd].
    unfold Spec.candidate in Hc. apply andb_true_iff in Hc as [_ Hc].
    apply Z.ltb_lt in Hc. split; [now right|assumption].
  - intros H. destruct (IH H) as (Hu & Ha & Hl & Hp).
    repeat split; [now right|assumption|assumption|].
    destruct Hp as [->|[Hp Hpl]]; [now left|right].
    split; [now right|assumption].
Qed.

(** X4.  The credential extractor.  The buffer is cut at its NUL
    characters; the user name is the first part that is alphanumeric and
    shorter than 64 characters, and the password is the first non-empty
    part shorter than 64 characters that follows it, or empty when there
    is none; without such a first part nothing is extracted.  So a user
    name that is extracted is always alphanumeric and shorter than 64
    characters. *)
Theorem ssh_parse_auth_packet_first_parts (text : string) :
  SSH.parse_auth_packet text
  = Spec.credentials_of (Py.split Py.NUL text)
  /\ forall user pass,
       SSH.parse_auth_packet text = Some (user, pass) ->
       In user (Py.split Py.NUL text)
       /\ Py.isalnum user = true /\ Py.len user < 64
       /\ (pass = "" \/ (In pass (Py.split Py.NUL text) /\ Py.len pass < 64)).
Proof.
  assert (H : SSH.parse_auth_packet text
              = Spec.credentials_of (Py.split Py.NUL text))
    by apply scan_user.
  split; [exact H|]. intros user pass Hp. rewrite H in Hp.
  now apply credentials_of_sound.
Qed.

(** X5.  Credentials laid out as NUL, user name, NUL, password, NUL are
    recovered as they were written, provided the user name is
    alphanumeric and both are shorter than 64 characters and the
    password holds no NUL. *)
Theorem ssh_parse_auth_packet_round_trip (user pass : string) :
  Py.isalnum user = true ->
  Py.len user < 64 ->
  Py.contains pass Py.NUL = false ->
  Py.len pass < 64 ->
  SSH.parse_auth_packet (Spec.credentials user pass) = Some (user, pass).
Proof.
  intros Ha Hl Hp Hpl.
  unfold SSH.parse_auth_packet. rewrite scan_user.
  unfold Py.isalnum in Ha. apply andb_true_iff in Ha as [Hne Hall].
  pose proof (isalnum_no_nul user Hall) as Hu.
  assert (Hparts : Py.split Py.NUL (Spec.credentials user pass)
                   = [""; user; pass; ""]).
  { unfold Spec.credentials, Py.split, Py.NUL in *.
    change (String (ascii_of_N 0) "" ++ user ++ String (ascii_of_N 0) ""
            ++ pass ++ String (ascii_of_N 0) "")
      with ("" ++ String (ascii_of_N 0)
                    (user ++ String (ascii_of_N 0)
                               (pass ++ String (ascii_of_N 0) ""))).
    rewrite split_go_field by reflexivity.
    rewrite split_go_field by assumption.
    rewrite split_go_field by assumption.
    reflexivity. }
  rewrite Hparts. cbn [Spec.credentials_of].
  change (Spec.candidate "") with false. cbn [andb].
  unfold Spec.candidate at 1. rewrite Hne.
  replace (Py.len user <? 64) with true by (symmetry; now apply Z.ltb_lt).
  unfold Py.isalnum. rewrite Hne, Hall. cbn [andb List.filter].
  unfold Spec.candidate at 1.
  replace (Py.len pass <? 64) with true by (symmetry; now apply Z.ltb_lt).
  rewrite andb_true_r.
  destruct pass; reflexivity.
Qed.

(** The user "root" with the password "pa ss!". *)
Lemma ssh_parse_auth_packet_round_trip_witness :
  Py.isalnum "root" = true
  /\ Py.len "root" < 64
  /\ Py.contains "pa ss!" Py.NUL = false
  /\ Py.len "pa ss!" < 64
  /\ SSH.parse_auth_packet (Spec.credentials "root" "pa ss!")
     = Some ("root", "pa ss!").
Proof.
  assert (H1 : Py.isalnum "root" = true) by reflexivity.
  assert (H2 : Py.len "root" < 64) by (vm_compute; reflexivity).
  assert (H3 : Py.contains "pa ss!" Py.NUL = false) by reflexivity.
  assert (H4 : Py.len "pa ss!" < 64) by (vm_compute; reflexivity).
  do 4 (split; [assumption|]).
  exact (ssh_parse_auth_packet_round_trip "root" "pa ss!" H1 H2 H3 H4).
Defined.

End SSHCredentials.
(* ===================================================================== *)
(** * More on the Python string operations: splitting and joining *)
(* ===================================================================== *)

Section PyJoinSplit.

Lemma concat_cons (sep x : string) (l : list string) :
  l <> [] -> String.concat sep (x :: l) = x ++ sep ++ String.concat sep l.
Proof. destruct l; [easy|reflexivity]. Qed.

Lemma drop_nil (k : nat) : Py.drop k "" = "".
Proof. destruct k; reflexivity. Qed.

(** A text is its prefix followed by what is left after it. *)
Lemma prefix_drop (p s : string) :
  String.prefix p s = true -> s = p ++ Py.drop (String.length p) s.
Proof.
  revert s. induction p as [|a p IH]; intros s H; [reflexivity|].
  destruct s as [|b s]; [discriminate|].
  rewrite prefix_cons in H. apply andb_true_iff in H as [Hab Hp].
  apply Ascii.eqb_eq in Hab. subst b.
  rewrite append_cons. cbn [String.length Py.drop]. f_equal. now apply IH.
Qed.

Lemma join_split_go (sep s : string) (k : nat) (acc : string) :
  sep <> "" ->
  Py.join sep (Py.split_go sep s k acc) = acc ++ Py.drop k s.
Proof.
  intros Hsep. unfold Py.join. revert k acc.
  induction s as [|c r IH]; intros k acc.
  - cbn [Py.split_go String.concat]. now rewrite drop_nil, append_nil_r.
  - cbn [Py.split_go]. destruct k as [|k]; [|apply IH].
    cbn [Py.drop].
    destruct (String.prefix sep (String c r)) eqn:Ep.
    + rewrite concat_cons by apply split_go_nonempty.
      rewrite IH, append_nil_l. f_equal.
      destruct sep as [|a sep']; [congruence|].
      rewrite prefix_cons in Ep. apply andb_true_iff in Ep as [Hac Hp].
      apply Ascii.eqb_eq in Hac. subst a.
      cbn [String.length Nat.sub]. rewrite Nat.sub_0_r, append_cons.
      f_equal. symmetry. now apply prefix_drop.
    + rewrite IH. cbn [Py.drop]. now rewrite append_assoc.
Qed.

(** Joining the fields of a text with the separator gives the text
    back. *)
Lemma join_split (sep s : string) :
  sep <> "" -> Py.join sep (Py.split sep s) = s.
Proof. intros H. unfold Py.split. now rewrite join_split_go. Qed.

Lemma CRLF_eq : Py.CRLF = String (ascii_of_N 13) (String (ascii_of_N 10) "").
Proof. unfold Py.CRLF, Py.CR, Py.LF. now rewrite append_cons, append_nil_l. Qed.

(** The lines of two texts joined by a line end are the lines of the
    one followed by the lines of the other. *)
Lemma split_go_crlf_app (a b : string) :
  forall k acc,
    (k <= String.length a)%nat ->
    Py.split_go Py.CRLF (a ++ Py.CRLF ++ b) k acc
    = (Py.split_go Py.CRLF a k acc ++ Py.split_go Py.CRLF b 0 "")%list.
Proof.
  rewrite CRLF_eq.
  induction a as [|c r IH]; intros k acc Hk.
  - cbn [String.length] in Hk. assert (k = 0)%nat as -> by lia.
    rewrite append_nil_l, !append_cons, append_nil_l.
    cbn [Py.split_go]. rewrite !prefix_cons, prefix_nil, !Ascii.eqb_refl.
    cbn [andb String.length Nat.sub Py.split_go app]. reflexivity.
  - rewrite append_cons. cbn [Py.split_go String.length] in *.
    destruct k as [|k]; [|apply IH; lia].
    assert (Hp : String.prefix
                   (String (ascii_of_N 13) (String (ascii_of_N 10) ""))
                   (String c (r ++ String (ascii_of_N 13)
                                     (String (ascii_of_N 10) "") ++ b))
                 = String.prefix
                     (String (ascii_of_N 13) (String (ascii_of_N 10) ""))
                     (String c r)).
    { rewrite !prefix_cons. destruct (Ascii.eqb (ascii_of_N 13) c);
        [|reflexivity].
      cbn [andb]. destruct r as [|d r'].
      - rewrite append_nil_l, !append_cons, prefix_cons. reflexivity.
      - rewrite append_cons, !prefix_cons, !prefix_nil. reflexivity. }
    rewrite Hp.
    destruct (String.prefix _ (String c r)) eqn:E.
    + cbn [app]. f_equal. apply IH.
      destruct r as [|d r']; [|cbn; lia].
      rewrite prefix_cons in E. apply andb_true_iff in E as [_ E].
      discriminate E.
    + apply IH. lia.
Qed.

Lemma split_crlf_app (a b : string) :
  Py.split Py.CRLF (a ++ Py.CRLF ++ b)
  = (Py.split Py.CRLF a ++ Py.split Py.CRLF b)%list.
Proof. unfold Py.split. apply split_go_crlf_app. lia. Qed.

(** The first occurrence of a character cuts a text in two. *)
Lemma contains_first (c0 : ascii) (s : string) :
  Py.contains s (String c0 "") = true ->
  exists seg rest,
    s = seg ++ String c0 rest /\ Py.contains seg (String c0 "") = false.
Proof.
  induction s as [|c r IH]; [discriminate|].
  cbn [Py.contains]. rewrite prefix_cons, prefix_nil, andb_true_r.
  destruct (Ascii.eqb c0 c) eqn:E.
  - intros _. apply Ascii.eqb_eq in E. subst c. now exists "", r.
  - cbn [orb]. intros H. destruct (IH H) as (seg & rest & -> & Hseg).
    exists (String c seg), rest. split; [reflexivity|].
    cbn [Py.contains]. rewrite prefix_cons, E, Hseg. reflexivity.
Qed.

(** A text splits in at least two fields exactly when it holds the
    separator. *)
Lemma split_two (c0 : ascii) (s : string) :
  Py.contains s (String c0 "") = true ->
  exists m p rest, Py.split (String c0 "") s = m :: p :: rest.
Proof.
  intros H. destruct (contains_first c0 s H) as (seg & rest & -> & Hseg).
  unfold Py.split. rewrite split_go_field by assumption.
  destruct (Py.split_go (String c0 "") rest 0 "") as [|p ps] eqn:E.
  - now apply split_go_nonempty in E.
  - now exists ("" ++ seg), p, ps.
Qed.

Lemma split_one (c0 : ascii) (s : string) :
  Py.contains s (String c0 "") = false -> Py.split (String c0 "") s = [s].
Proof. intros H. unfold Py.split. now rewrite split_go_single. Qed.

Lemma length_take (n : nat) (s : string) :
  (String.length (Py.take n s) <= n)%nat.
Proof.
  unfold Py.take. revert s. induction n as [|n IH]; intros s.
  - destruct s; cbn; lia.
  - destruct s as [|c s]; cbn; [lia|]. specialize (IH s). lia.
Qed.

End PyJoinSplit.
(* ===================================================================== *)
(** * HTTP: request parsing *)
(* ===================================================================== *)

Section HTTPParsing.

Lemma parse_headers_blank (hs rest : list string) :
  Forall (fun l => l <> "") hs ->
  forall i d,
    HTTP.parse_headers (hs ++ "" :: rest) i d
    = (fold_left Spec.add_header hs d, S (i + length hs)).
Proof.
  induction 1 as [|l hs Hl _ IH]; intros i d.
  - cbn. now rewrite Nat.add_0_r.
  - cbn [app HTTP.parse_headers fold_left length].
    apply String.eqb_neq in Hl. rewrite Hl, IH.
    f_equal. lia.
Qed.

Lemma parse_headers_no_blank (hs : list string) :
  Forall (fun l => l <> "") hs ->
  forall i d,
    HTTP.parse_headers hs i d = (fold_left Spec.add_header hs d, 0%nat).
Proof.
  induction 1 as [|l hs Hl _ IH]; intros i d; [reflexivity|].
  cbn [HTTP.parse_headers fold_left].
  apply String.eqb_neq in Hl. now rewrite Hl, IH.
Qed.

Lemma split_crlf_nil : Py.split Py.CRLF "" = [""].
Proof. reflexivity. Qed.

Lemma CRLF_nonempty : Py.CRLF <> "".
Proof. rewrite CRLF_eq. discriminate. Qed.

(** A request whose first line holds no space is rejected. *)
Lemma parse_request_no_space (data : string) :
  Py.contains (Spec.first_line data) " " = false ->
  HTTP.parse_request data = None.
Proof.
  unfold HTTP.parse_request, Spec.first_line.
  destruct (Py.split Py.CRLF data) as [|l0 others]; [reflexivity|].
  cbn [hd]. intros Hc. now rewrite (split_one " " l0 Hc).
Qed.

(** X6.  A request is rejected exactly when its first line holds no
    space: then [parse_request] returns nothing, and otherwise it
    returns a request whose method and target are the first two fields
    of that line. *)
Theorem http_parse_request_needs_two_fields (data : string) :
  (HTTP.parse_request data = None
   <-> Py.contains (Spec.first_line data) " " = false)
  /\ forall m p hdrs b,
       HTTP.parse_request data = Some (m, p, hdrs, b) ->
       exists rest, Py.split " " (Spec.first_line data) = m :: p :: rest.
Proof.
  destruct (Py.contains (Spec.first_line data) " ") eqn:Ec.
  - unfold HTTP.parse_request, Spec.first_line in *.
    destruct (Py.split Py.CRLF data) as [|l0 others] eqn:El.
    { now apply split_go_nonempty in El. }
    cbn [hd] in *.
    destruct (split_two " " l0 Ec) as (m & p & rest & ->).
    destruct (HTTP.parse_headers others 1 []) as [hdrs bs].
    split; [split; discriminate|].
    intros m' p' hdrs' b' [= <- <- _ _]. now exists rest.
  - rewrite (parse_request_no_space data Ec).
    split; [split; reflexivity|discriminate].
Qed.

(** X7.  A request whose header block ends with an empty line: the
    method and the target are the first two fields of the request line,
    the headers are those of the lines before the empty line, and the
    body is the text after it, unchanged, line ends and empty lines
    included. *)
Theorem http_parse_request_body (head body l0 m p : string)
  (hs rest : list string) :
  Py.split Py.CRLF head = l0 :: hs ->
  Forall (fun l => l <> "") hs ->
  Py.split " " l0 = m :: p :: rest ->
  HTTP.parse_request (head ++ Py.CRLF ++ Py.CRLF ++ body)
  = Some (m, p, Spec.header_fields hs, body).
Proof.
  intros Hhead Hhs Hl0. unfold HTTP.parse_request.
  rewrite split_crlf_app, Hhead.
  rewrite <- (append_nil_l (Py.CRLF ++ body)), split_crlf_app, split_crlf_nil.
  cbn [app]. rewrite Hl0.
  rewrite parse_headers_blank by assumption.
  cbn [length]. rewrite length_app. cbn [length].
  pose proof (split_go_nonempty Py.CRLF body 0 "") as Hne.
  fold (Py.split Py.CRLF body) in Hne.
  replace (S (1 + length hs) <? S (length hs + S (length (Py.split Py.CRLF body))))%nat
    with true.
  2:{ symmetry. apply Nat.ltb_lt.
      destruct (Py.split Py.CRLF body); [congruence|cbn; lia]. }
  cbn [skipn Nat.add].
  replace (S (length hs)) with (length (hs ++ [""]))
    by (rewrite length_app; cbn; lia).
  change (hs ++ "" :: Py.split Py.CRLF body)%list
    with (hs ++ [""] ++ Py.split Py.CRLF body)%list.
  rewrite app_assoc, drop_app_length.
  now rewrite join_split by apply CRLF_nonempty.
Qed.

(** A POST with two headers and a body that holds an empty line. *)
Lemma http_parse_request_body_witness :
  let head := "POST /login HTTP/1.1" ++ Py.CRLF ++ "Host: x" ++ Py.CRLF
              ++ "User-Agent: curl" in
  let body := "user=a" ++ Py.CRLF ++ Py.CRLF ++ "pass=b" in
  Py.split Py.CRLF head
  = "POST /login HTTP/1.1" :: ["Host: x"; "User-Agent: curl"]
  /\ Forall (fun l => l <> "") ["Host: x"; "User-Agent: curl"]
  /\ Py.split " " "POST /login HTTP/1.1" = "POST" :: "/login" :: ["HTTP/1.1"]
  /\ HTTP.parse_request (head ++ Py.CRLF ++ Py.CRLF ++ body)
     = Some ("POST", "/login",
             Spec.header_fields ["Host: x"; "User-Agent: curl"], body).
Proof.
  intros head body.
  assert (H1 : Py.split Py.CRLF head
               = "POST /login HTTP/1.1" :: ["Host: x"; "User-Agent: curl"])
    by (vm_compute; reflexivity).
  assert (H2 : Forall (fun l => l <> "") ["Host: x"; "User-Agent: curl"])
    by (repeat constructor; discriminate).
  assert (H3 : Py.split " " "POST /login HTTP/1.1"
               = "POST" :: "/login" :: ["HTTP/1.1"])
    by (vm_compute; reflexivity).
  do 3 (split; [assumption|]).
  exact (http_parse_request_body head body _ _ _ _ _ H1 H2 H3).
Defined.

(** X8.  A request without an empty line after its headers: no body
    start is found, and the body returned is the whole request text,
    request line and header lines included. *)
Theorem http_parse_request_unterminated (data l0 m p : string)
  (hs rest : list string) :
  Py.split Py.CRLF data = l0 :: hs ->
  Forall (fun l => l <> "") hs ->
  Py.split " " l0 = m :: p :: rest ->
  HTTP.parse_request data = Some (m, p, Spec.header_fields hs, data).
Proof.
  intros Hdata Hhs Hl0. unfold HTTP.parse_request.
  rewrite Hdata, Hl0. rewrite parse_headers_no_blank by assumption.
  cbn [length Nat.ltb Nat.leb skipn]. rewrite <- Hdata.
  now rewrite join_split by apply CRLF_nonempty.
Qed.

(** A request cut after its header line. *)
Lemma http_parse_request_unterminated_witness :
  let data := "GET /admin HTTP/1.1" ++ Py.CRLF ++ "Host: x" in
  Py.split Py.CRLF data = "GET /admin HTTP/1.1" :: ["Host: x"]
  /\ Forall (fun l => l <> "") ["Host: x"]
  /\ Py.split " " "GET /admin HTTP/1.1" = "GET" :: "/admin" :: ["HTTP/1.1"]
  /\ HTTP.parse_request data
     = Some ("GET", "/admin", Spec.header_fields ["Host: x"], data).
Proof.
  intros data.
  assert (H1 : Py.split Py.CRLF data = "GET /admin HTTP/1.1" :: ["Host: x"])
    by (vm_compute; reflexivity).
  assert (H2 : Forall (fun l => l <> "") ["Host: x"])
    by (repeat constructor; discriminate).
  assert (H3 : Py.split " " "GET /admin HTTP/1.1"
               = "GET" :: "/admin" :: ["HTTP/1.1"])
    by (vm_compute; reflexivity).
  do 3 (split; [assumption|]).
  exact (http_parse_request_unterminated data _ _ _ _ _ H1 H2 H3).
Defined.

End HTTPParsing.
(* ===================================================================== *)
(** * HTTP: what a connection leaves behind *)
(* ===================================================================== *)

Section HTTPConnections.

Local Open Scope Z_scope.

Variable urlparse_path : string -> option string.

(** The effect of one connection on the honeypot. *)
Lemma http_connection_trace (hp : HTTP.HTTPHoneypot) (c : HTTP.connection) :
  let o := HTTP.handle_connection urlparse_path hp c in
  exists evs (requests : Z),
    HTTP.events (HTTP.after o) = (HTTP.events hp ++ evs)%list
    /\ (length evs <= 1)%nat
    /\ (length (HTTP.sent o) <= length evs)%nat
    /\ Forall (fun ev => HTTP.event_type ev = "http_request"
                         /\ HTTP.source_ip ev = HTTP.client_ip c
                         /\ HTTP.source_port ev = HTTP.client_port c
                         /\ HTTP.session_id ev = HTTP.session c
                         /\ Py.len (HTTP.body ev) <= 1000) evs
    /\ HTTP.total_requests (HTTP.after o) = HTTP.total_requests hp + requests
    /\ Z.of_nat (length evs) <= requests <= 1
    /\ HTTP.attacks_detected (HTTP.after o)
       = HTTP.attacks_detected hp + Z.of_nat (Spec.tagged evs)
    /\ HTTP.active_connections (HTTP.after o) = HTTP.active_connections hp
    /\ HTTP.max_connections (HTTP.after o) = HTTP.max_connections hp
    /\ HTTP.sql_patterns (HTTP.after o) = HTTP.sql_patterns hp
    /\ HTTP.xss_patterns (HTTP.after o) = HTTP.xss_patterns hp
    /\ HTTP.path_patterns (HTTP.after o) = HTTP.path_patterns hp
    /\ HTTP.fake_services (HTTP.after o) = HTTP.fake_services hp
    /\ HTTP.closed o = true.
Proof.
  intros o. subst o. unfold HTTP.handle_connection.
  destruct (_ <=? _).
  { exists [], 0. cbn. rewrite app_nil_r.
    repeat split; first [now constructor | lia]. }
  unfold HTTP.serve.
  destruct (HTTP.request c) as [text| | |].
  2,3,4: exists [], 0; cbn; rewrite app_nil_r;
         repeat split; first [now constructor | lia].
  destruct (HTTP.parse_request text) as [[[[m p] hdrs] b]|].
  2: exists [], 0; cbn; rewrite app_nil_r;
     repeat split; first [now constructor | lia].
  destruct (HTTP.detect_attack _ _ _ _ _) as [attack|x].
  2: exists [], 1; cbn; rewrite app_nil_r;
     repeat split; first [now constructor | lia].
  match goal with
  | |- context [HTTP.record_event _ ?ev0] => set (ev := ev0)
  end.
  assert (Hev : Forall (fun ev => HTTP.event_type ev = "http_request"
                         /\ HTTP.source_ip ev = HTTP.client_ip c
                         /\ HTTP.source_port ev = HTTP.client_port c
                         /\ HTTP.session_id ev = HTTP.session c
                         /\ Py.len (HTTP.body ev) <= 1000) [ev]).
  { constructor; [|constructor]. repeat split.
    cbn [HTTP.body ev]. unfold Py.len.
    pose proof (length_take 1000 b). lia. }
  assert (Htag : Z.of_nat (Spec.tagged [ev])
                 = if Py.nonempty attack then 1 else 0).
  { unfold Spec.tagged. cbn [List.filter HTTP.attack_type ev].
    destruct (Py.nonempty attack); reflexivity. }
  exists [ev], 1.
  destruct (HTTP.get_response _ _ _) as [response|x];
    [destruct (HTTP.flushed c)|];
    cbn [HTTP.after HTTP.sent HTTP.closed HTTP.with_active
         HTTP.record_event HTTP.count_request HTTP.events
         HTTP.total_requests HTTP.attacks_detected HTTP.active_connections
         HTTP.max_connections HTTP.sql_patterns HTTP.xss_patterns
         HTTP.path_patterns HTTP.fake_services length];
    change (HTTP.attack_type ev) with attack;
    rewrite Htag;
    (repeat split; try assumption; try lia;
     destruct (Py.nonempty attack); lia).
Qed.

(** X9.  The counters of the HTTP honeypot.  After any number of
    connections handled one after the other by a fresh honeypot, no
    connection is counted as active, every event recorded is an
    http_request whose body holds at most 1000 characters,
    attacks_detected is the number of events that carry an attack tag,
    and there are at most as many events as requests counted, and at
    most as many requests as connections. *)
Theorem http_counters_consistent (max_conn : Z)
  (conns : list HTTP.connection) :
  let hp := Spec.http_run urlparse_path (Spec.http_honeypot max_conn) conns in
  HTTP.init max_conn = Some (Spec.http_honeypot max_conn)
  /\ HTTP.get_metrics hp
     = [("total_requests", HTTP.total_requests hp);
        ("active_connections", 0);
        ("attacks_detected", Z.of_nat (Spec.tagged (HTTP.events hp)))]
  /\ Z.of_nat (Spec.tagged (HTTP.events hp))
     <= Z.of_nat (length (HTTP.events hp))
     <= HTTP.total_requests hp
  /\ HTTP.total_requests hp <= Z.of_nat (length conns)
  /\ Forall (fun ev => HTTP.event_type ev = "http_request"
                       /\ Py.len (HTTP.body ev) <= 1000) (HTTP.events hp).
Proof.
  intros hp. split; [apply http_init|].
  assert (Inv : forall conns h,
    let h' := Spec.http_run urlparse_path h conns in
    HTTP.active_connections h' = HTTP.active_connections h
    /\ HTTP.attacks_detected h' - Z.of_nat (Spec.tagged (HTTP.events h'))
       = HTTP.attacks_detected h - Z.of_nat (Spec.tagged (HTTP.events h))
    /\ 0 <= HTTP.total_requests h' - Z.of_nat (length (HTTP.events h'))
            - (HTTP.total_requests h - Z.of_nat (length (HTTP.events h)))
    /\ HTTP.total_requests h' - HTTP.total_requests h
       <= Z.of_nat (length conns)
    /\ (Forall (fun ev => HTTP.event_type ev = "http_request"
                          /\ Py.len (HTTP.body ev) <= 1000) (HTTP.events h) ->
        Forall (fun ev => HTTP.event_type ev = "http_request"
                          /\ Py.len (HTTP.body ev) <= 1000)
          (HTTP.events h'))).
  { clear hp conns. intros conns.
    induction conns as [|c conns IH]; intros h.
    - cbn. repeat split; try lia. auto.
    - cbn [Spec.http_run fold_left].
      fold (Spec.http_run urlparse_path
              (HTTP.after (HTTP.handle_connection urlparse_path h c)) conns).
      destruct (http_connection_trace h c)
        as (evs & requests & He & Hn & _ & Hf & Hr & Hrq & Ha & Hact & _).
      destruct (IH (HTTP.after (HTTP.handle_connection urlparse_path h c)))
        as (I1 & I2 & I3 & I4 & I5).
      rewrite He in I2, I3, I5. rewrite Hr in I3, I4. rewrite Ha in I2.
      rewrite Hact in I1.
      unfold Spec.tagged in *.
      rewrite List.filter_app, !length_app in *.
      cbn [length]. repeat split; try lia.
      intros Hall. apply I5. apply Forall_app. split; [assumption|].
      eapply Forall_impl; [exact Hf|]. cbn. intros ev H. tauto. }
  destruct (Inv conns (Spec.http_honeypot max_conn))
    as (I1 & I2 & I3 & I4 & I5).
  fold hp in I1, I2, I3, I4, I5.
  cbn [Spec.http_honeypot HTTP.active_connections HTTP.attacks_detected
       HTTP.total_requests HTTP.events Spec.tagged List.filter length]
    in I1, I2, I3, I4, I5.
  assert (Htag : (Spec.tagged (HTTP.events hp) <= length (HTTP.events hp))%nat)
    by apply List.filter_length_le.
  unfold HTTP.get_metrics. rewrite I1.
  replace (HTTP.attacks_detected hp)
    with (Z.of_nat (Spec.tagged (HTTP.events hp))) by lia.
  repeat split; try lia. apply I5. constructor.
Qed.

(** X10.  Requests that are dropped in silence.  When the honeypot is
    at its connection cap, when the peer sends nothing before the
    deadline or closes, or when the first line of what it sends holds no
    space, the connection is closed without a response; no event is
    recorded, nothing is logged and no counter moves. *)
Theorem http_silent_drop (hp : HTTP.HTTPHoneypot) (c : HTTP.connection) :
  HTTP.max_connections hp <= HTTP.active_connections hp
  \/ HTTP.request c = HTTP.Eof
  \/ HTTP.request c = HTTP.TimedOut
  \/ (exists text,
        HTTP.request c = HTTP.Recv text
        /\ Py.contains (Spec.first_line text) " " = false) ->
  HTTP.handle_connection urlparse_path hp c
  = {| HTTP.after := hp; HTTP.sent := []; HTTP.logged := [];
       HTTP.closed := true |}.
Proof.
  intros H. unfold HTTP.handle_connection.
  destruct (Z.leb_spec (HTTP.max_connections hp) (HTTP.active_connections hp))
    as [Hcap|Hfree]; [reflexivity|].
  assert (Hserve : forall h, HTTP.serve urlparse_path h c = (h, [], [])).
  { intros h. unfold HTTP.serve.
    destruct H as [H|[->|[->|(text & -> & Ht)]]];
      [lia|reflexivity|reflexivity|].
    now rewrite (parse_request_no_space text Ht). }
  rewrite Hserve. f_equal. destruct hp. unfold HTTP.with_active. cbn.
  f_equal. lia.
Qed.

End HTTPConnections.

(** A request line without a space is dropped in silence. *)
Lemma http_silent_drop_witness :
  let hp := Spec.http_honeypot 10 in
  let c := {| HTTP.client_ip := "203.0.113.7"; HTTP.client_port := 40000;
              HTTP.session := "0123456789abcdef";
              HTTP.request := HTTP.Recv ("HELLO" ++ Py.CRLF ++ Py.CRLF);
              HTTP.flushed := true |} in
  ((HTTP.max_connections hp <= HTTP.active_connections hp)%Z
   \/ HTTP.request c = HTTP.Eof
   \/ HTTP.request c = HTTP.TimedOut
   \/ (exists text,
         HTTP.request c = HTTP.Recv text
         /\ Py.contains (Spec.first_line text) " " = false))
  /\ HTTP.handle_connection Urllib.urlparse_path hp c
     = {| HTTP.after := hp; HTTP.sent := []; HTTP.logged := [];
          HTTP.closed := true |}.
Proof.
  intros hp c.
  assert (H : (HTTP.max_connections hp <= HTTP.active_connections hp)%Z
              \/ HTTP.request c = HTTP.Eof
              \/ HTTP.request c = HTTP.TimedOut
              \/ (exists text,
                    HTTP.request c = HTTP.Recv text
                    /\ Py.contains (Spec.first_line text) " " = false)).
  { right. right. right. eexists. split; [reflexivity|].
    vm_compute. reflexivity. }
  split; [exact H|].
  exact (http_silent_drop Urllib.urlparse_path hp c H).
Defined.
(* ===================================================================== *)
(** * HTTP: the choice of the response *)
(* ===================================================================== *)

Section HTTPRouting.

Variable urlparse_path : string -> option string.

Lemma prefix_refl (s : string) : String.prefix s s = true.
Proof.
  induction s as [|c s IH]; [reflexivity|].
  now rewrite prefix_cons, Ascii.eqb_refl.
Qed.

Lemma dict_get_none {V} (p : string) (d : Dict.t V) :
  (forall k, In k (Dict.keys d) -> String.eqb p k = false) ->
  Dict.get p d = None.
Proof.
  induction d as [|[k v] d IH]; intros H; [reflexivity|].
  cbn [Dict.get]. rewrite (H k) by now left.
  apply IH. intros k' Hk'. apply H. now right.
Qed.

Lemma find_none {A} (f : A -> bool) (l : list A) :
  (forall x, In x l -> f x = false) -> List.find f l = None.
Proof.
  induction l as [|a l IH]; intros H; [reflexivity|].
  cbn [List.find]. rewrite (H a) by now left.
  apply IH. intros x Hx. apply H. now right.
Qed.

(** X11.  The choice of the response, for a honeypot that serves the
    built-in pages.  A path that starts with one of the service paths
    other than "/" is answered with the page of that service, whatever
    follows the service path; the index page is served for the path "/"
    alone; and every other path is answered with the 404 page. *)
Theorem http_prefix_routing (hp : HTTP.HTTPHoneypot) (path p : string) :
  HTTP.fake_services hp = HTTP._load_fake_services ->
  urlparse_path path = Some p ->
  (forall key page,
     In (key, page) HTTP._load_fake_services ->
     key <> "/" ->
     Py.startswith p key = true ->
     HTTP.get_response urlparse_path hp path = Ret page)
  /\ (p = "/" ->
      HTTP.get_response urlparse_path hp path
      = Ret (HTTP._build_response 200 "OK" HTTP._get_index_page))
  /\ (p <> "/" ->
      (forall key,
         In key (Dict.keys HTTP._load_fake_services) ->
         key <> "/" -> Py.startswith p key = false) ->
      HTTP.get_response urlparse_path hp path = Ret HTTP.not_found).
Proof.
  intros Hfs Hurl. unfold HTTP.get_response. rewrite Hurl, Hfs.
  split; [|split].
  - intros key page Hin Hkey Hpre.
    unfold Py.startswith in Hpre. apply prefix_drop in Hpre.
    revert Hpre. generalize (Py.drop (String.length key) p) as rest.
    intros rest ->. clear Hurl Hfs.
    unfold HTTP._load_fake_services in Hin. cbn [In] in Hin.
    repeat (destruct Hin as [[= <- <-]|Hin];
            [first [congruence
                   | vm_compute; destruct rest; reflexivity]|]).
    destruct Hin.
  - intros ->. vm_compute. reflexivity.
  - intros Hroot Hnone.
    assert (Hkeys : forall k,
              In k (Dict.keys HTTP._load_fake_services) ->
              String.eqb p k = false).
    { intros k Hk. apply String.eqb_neq. intros <-.
      destruct (String.eqb_spec p "/") as [->|Hne]; [congruence|].
      specialize (Hnone p Hk Hne). unfold Py.startswith in Hnone.
      rewrite prefix_refl in Hnone. discriminate. }
    rewrite (dict_get_none p _ Hkeys).
    rewrite find_none; [reflexivity|].
    intros [k v] Hin. cbn [fst].
    destruct (String.eqb_spec k "/") as [->|Hne].
    + cbn [negb]. apply andb_false_r.
    + rewrite Hnone; [reflexivity| |assumption].
      unfold Dict.keys. apply in_map_iff. now exists (k, v).
Qed.

End HTTPRouting.

(** Any path under /admin is answered with the login page and the
    status 401. *)
Lemma http_prefix_routing_witness :
  let hp := Spec.http_honeypot 100 in
  HTTP.fake_services hp = HTTP._load_fake_services
  /\ Urllib.urlparse_path "/administrator/index.php?x=1"
     = Some "/administrator/index.php"
  /\ In ("/admin", HTTP._build_response 401 "Unauthorized"
                     HTTP._get_login_page) HTTP._load_fake_services
  /\ "/admin" <> "/"
  /\ Py.startswith "/administrator/index.php" "/admin" = true
  /\ HTTP.get_response Urllib.urlparse_path hp "/administrator/index.php?x=1"
     = Ret (HTTP._build_response 401 "Unauthorized" HTTP._get_login_page).
Proof.
  intros hp.
  assert (H1 : HTTP.fake_services hp = HTTP._load_fake_services)
    by reflexivity.
  assert (H2 : Urllib.urlparse_path "/administrator/index.php?x=1"
               = Some "/administrator/index.php")
    by (vm_compute; reflexivity).
  assert (H3 : In ("/admin", HTTP._build_response 401 "Unauthorized"
                               HTTP._get_login_page)
                 HTTP._load_fake_services)
    by (unfold HTTP._load_fake_services; cbn [In]; tauto).
  assert (H4 : "/admin" <> "/") by discriminate.
  assert (H5 : Py.startswith "/administrator/index.php" "/admin" = true)
    by reflexivity.
  do 5 (split; [assumption|]).
  exact (proj1 (http_prefix_routing Urllib.urlparse_path hp _ _ H1 H2)
           _ _ H3 H4 H5).
Defined.
(* ===================================================================== *)
(** * More on the Python string operations: searching and trimming *)
(* ===================================================================== *)

Section PyFind.

Lemma contains_char_app (c0 : ascii) (a b : string) :
  Py.contains (a ++ b) (String c0 "")
  = Py.contains a (String c0 "") || Py.contains b (String c0 "").
Proof.
  induction a as [|c r IH]; [reflexivity|].
  rewrite append_cons. cbn [Py.contains].
  rewrite !prefix_cons, !prefix_nil, IH. now rewrite orb_assoc.
Qed.

Lemma contains_char_cons (c0 c : ascii) (r : string) :
  Py.contains (String c r) (String c0 "")
  = Ascii.eqb c0 c || Py.contains r (String c0 "").
Proof.
  cbn [Py.contains]. now rewrite prefix_cons, prefix_nil, andb_true_r.
Qed.

(** The first occurrence of a character is found after a text that
    does not hold it. *)
Lemma find_char_first (c0 : ascii) (seg rest : string) :
  Py.contains seg (String c0 "") = false ->
  Py.find (seg ++ String c0 rest) (String c0 "") = Some (String.length seg).
Proof.
  induction seg as [|c r IH]; intros H.
  - rewrite append_nil_l. cbn [Py.find].
    now rewrite prefix_cons, Ascii.eqb_refl, prefix_nil.
  - rewrite contains_char_cons in H. apply orb_false_iff in H as [Hc Hr].
    rewrite append_cons. cbn [Py.find].
    rewrite prefix_cons, Hc. cbn [andb]. now rewrite IH.
Qed.

Lemma find_char_none (c0 : ascii) (s : string) :
  Py.contains s (String c0 "") = false -> Py.find s (String c0 "") = None.
Proof.
  induction s as [|c r IH]; intros H; [reflexivity|].
  rewrite contains_char_cons in H. apply orb_false_iff in H as [Hc Hr].
  cbn [Py.find]. rewrite prefix_cons, Hc. cbn [andb]. now rewrite IH.
Qed.

Lemma substring_zero (n : nat) (s : string) : String.substring n 0 s = "".
Proof.
  revert n. induction s as [|c s IH]; intros [|n]; cbn; try reflexivity.
  apply IH.
Qed.

Lemma substring_prefix (b c : string) :
  String.substring 0 (String.length b) (b ++ c) = b.
Proof.
  induction b as [|x b IH].
  - cbn [String.length]. apply substring_zero.
  - rewrite append_cons. cbn [String.length String.substring]. now rewrite IH.
Qed.

(** The part of a text between two others. *)
Lemma substring_middle (a b c : string) :
  String.substring (String.length a) (String.length b) (a ++ b ++ c) = b.
Proof.
  induction a as [|x a IH].
  - rewrite append_nil_l. apply substring_prefix.
  - rewrite append_cons. cbn [String.length String.substring]. exact IH.
Qed.

(** Joining texts that do not hold the separator and splitting the
    result gives the texts back. *)
Lemma split_join_char (c0 : ascii) (lines : list string) :
  lines <> [] ->
  Forall (fun l => Py.contains l (String c0 "") = false) lines ->
  Py.split (String c0 "") (Py.join (String c0 "") lines) = lines.
Proof.
  intros Hne Hall. unfold Py.split, Py.join.
  induction Hall as [|l lines Hl Hall IH]; [congruence|].
  destruct lines as [|l' lines].
  - cbn [String.concat]. now rewrite split_go_single.
  - rewrite concat_cons by discriminate.
    rewrite append_cons, append_nil_l.
    rewrite split_go_field by assumption.
    rewrite append_nil_l. f_equal. apply IH. discriminate.
Qed.

End PyFind.

(* ===================================================================== *)
(** * SMTP: addresses and subjects *)
(* ===================================================================== *)

Section SMTPExtraction.

(** An address between the first opening bracket and the first closing
    one is returned as it stands. *)
Lemma extract_address_between (pre addr post : string) :
  Py.contains pre "<" = false ->
  Py.contains pre ">" = false ->
  Py.contains addr ">" = false ->
  SMTP.extract_address (pre ++ "<" ++ addr ++ ">" ++ post) = addr.
Proof.
  intros Hlt Hgt Haddr. unfold SMTP.extract_address.
  change (pre ++ "<" ++ addr ++ ">" ++ post)
    with (pre ++ String "<" (addr ++ String ">" post)).
  rewrite find_char_first by assumption.
  replace (pre ++ String "<" (addr ++ String ">" post))
    with ((pre ++ String "<" addr) ++ String ">" post)
    by (now rewrite append_assoc, append_cons).
  rewrite find_char_first.
  2:{ rewrite contains_char_app, contains_char_cons, Hgt, Haddr.
      reflexivity. }
  unfold Py.slice. rewrite length_append. cbn [String.length].
  replace (String.length pre + S (String.length addr)
           - (String.length pre + 1))%nat
    with (String.length addr) by lia.
  replace (String.length pre + 1)%nat
    with (String.length (pre ++ "<"))
    by (rewrite length_append; reflexivity).
  replace ((pre ++ String "<" addr) ++ String ">" post)
    with ((pre ++ "<") ++ addr ++ String ">" post).
  - apply substring_middle.
  - now rewrite !append_assoc, !append_cons, append_nil_l.
Qed.

(** X12.  An address written between angle brackets is returned as it
    stands, without trimming or validation, whatever precedes the
    opening bracket and follows the closing one.  When the first closing
    bracket comes before the first opening one, the address is empty. *)
Theorem smtp_extract_address_brackets (pre addr post : string) :
  Py.contains pre "<" = false ->
  Py.contains pre ">" = false ->
  Py.contains addr ">" = false ->
  SMTP.extract_address (pre ++ "<" ++ addr ++ ">" ++ post) = addr
  /\ (Py.contains addr "<" = false ->
      SMTP.extract_address (pre ++ ">" ++ addr ++ "<" ++ post) = "").
Proof.
  intros Hlt Hgt Haddr. split; [now apply extract_address_between|].
  intros Haddr'. unfold SMTP.extract_address.
  replace (pre ++ ">" ++ addr ++ "<" ++ post)
    with ((pre ++ String ">" addr) ++ String "<" post)
    by (now rewrite append_assoc, !append_cons, !append_nil_l).
  rewrite find_char_first.
  2:{ rewrite contains_char_app, contains_char_cons, Hlt, Haddr'.
      reflexivity. }
  replace ((pre ++ String ">" addr) ++ String "<" post)
    with (pre ++ String ">" (addr ++ String "<" post))
    by (now rewrite append_assoc, !append_cons).
  rewrite find_char_first by assumption.
  unfold Py.slice. rewrite length_append. cbn [String.length].
  replace (String.length pre
           - (String.length pre + S (String.length addr) + 1))%nat
    with 0%nat by lia.
  apply substring_zero.
Qed.

(** The sender of a MAIL command with a parameter after the address. *)
Lemma smtp_extract_address_brackets_witness :
  Py.contains "MAIL FROM:" "<" = false
  /\ Py.contains "MAIL FROM:" ">" = false
  /\ Py.contains " bob@example.com " ">" = false
  /\ SMTP.extract_address
       ("MAIL FROM:" ++ "<" ++ " bob@example.com " ++ ">" ++ " SIZE=100")
     = " bob@example.com "
  /\ (Py.contains " bob@example.com " "<" = false ->
      SMTP.extract_address
        ("MAIL FROM:" ++ ">" ++ " bob@example.com " ++ "<" ++ " SIZE=100")
      = "").
Proof.
  assert (H1 : Py.contains "MAIL FROM:" "<" = false) by reflexivity.
  assert (H2 : Py.contains "MAIL FROM:" ">" = false) by reflexivity.
  assert (H3 : Py.contains " bob@example.com " ">" = false) by reflexivity.
  do 3 (split; [assumption|]).
  exact (smtp_extract_address_brackets "MAIL FROM:" " bob@example.com "
           " SIZE=100" H1 H2 H3).
Defined.

(** X13.  The subject of a message is taken from the first of its lines
    that starts with "subject:", letter case ignored: it is what follows
    these eight characters, trimmed.  The search does not stop at the
    end of the headers, and a message none of whose lines starts so has
    the empty subject. *)
Theorem smtp_extract_subject_first_line (lines : list string) :
  Forall (fun l => Py.contains l Py.LF = false) lines ->
  (forall pre line post,
     lines = (pre ++ line :: post)%list ->
     Forall (fun l => Py.startswith (Py.lower l) "subject:" = false) pre ->
     Py.startswith (Py.lower line) "subject:" = true ->
     SMTP.extract_subject (Py.join Py.LF lines) = Py.strip (Py.drop 8 line))
  /\ (Forall (fun l => Py.startswith (Py.lower l) "subject:" = false) lines ->
      SMTP.extract_subject (Py.join Py.LF lines) = "").
Proof.
  intros Hlf. unfold SMTP.extract_subject. unfold Py.LF in *.
  assert (Hfind : forall pre line post,
    Forall (fun l => Py.startswith (Py.lower l) "subject:" = false) pre ->
    Py.startswith (Py.lower line) "subject:" = true ->
    List.find (fun l => Py.startswith (Py.lower l) "subject:")
      (pre ++ line :: post) = Some line).
  { intros pre line post Hpre Hline.
    induction Hpre as [|l pre Hl _ IH]; cbn [app List.find].
    - now rewrite Hline.
    - now rewrite Hl. }
  split.
  - intros pre line post -> Hpre Hline.
    rewrite split_join_char; [|now destruct pre|exact Hlf].
    now rewrite Hfind.
  - intros Hnone. destruct lines as [|l lines]; [vm_compute; reflexivity|].
    rewrite split_join_char; [|discriminate|exact Hlf].
    rewrite find_none; [reflexivity|].
    intros x Hx. exact (proj1 (List.Forall_forall _ _) Hnone x Hx).
Qed.

(** A message whose subject line comes after another header. *)
Lemma smtp_extract_subject_first_line_witness :
  let lines := ["From: a@example.com"; "SUBJECT:  Hello there "; "";
                "subject: not this one"] in
  Forall (fun l => Py.contains l Py.LF = false) lines
  /\ SMTP.extract_subject (Py.join Py.LF lines) = "Hello there".
Proof.
  intros lines.
  assert (H : Forall (fun l => Py.contains l Py.LF = false) lines)
    by (repeat constructor).
  split; [exact H|].
  exact (proj1 (smtp_extract_subject_first_line lines H)
           ["From: a@example.com"] "SUBJECT:  Hello there "
           [""; "subject: not this one"] eq_refl
           ltac:(repeat constructor) eq_refl).
Defined.

End SMTPExtraction.
(* ===================================================================== *)
(** * SMTP: what a session leaves behind *)
(* ===================================================================== *)

Section SMTPSessions.

Local Open Scope Z_scope.

Variable c : SMTP.peer.

(** One turn of the dialog on a command line: one response is written,
    the honeypot is left alone, and the text gathered is kept or
    dropped.  [stop] tells that the command was QUIT. *)
Lemma dialog_command (w : SMTP.world) (v : SMTP.vars) (raw : string)
  (fl : bool) (rest : list SMTP.read_result) :
  SMTP.in_data v = false ->
  exists W V (stop : bool) reply ls,
    SMTP.dialog c w v (SMTP.Line raw fl :: rest)
    = (if fl && negb stop then SMTP.dialog c W V rest
       else (W, V, if fl then SMTP.Normal
                   else SMTP.Raised ConnectionResetError))
    /\ SMTP.hp W = SMTP.hp w
    /\ SMTP.sent W = (SMTP.sent w ++ [reply])%list
    /\ SMTP.logged W = (SMTP.logged w ++ ls)%list
    /\ (SMTP.message_data V = SMTP.message_data v
        \/ SMTP.message_data V = []).
Proof.
  intros Hd. cbn [SMTP.dialog]. rewrite Hd. cbv zeta.
  repeat match goal with
         | |- context [if String.eqb ?a ?b || String.eqb ?a ?b' then _ else _] =>
             destruct (String.eqb a b || String.eqb a b')
         | |- context [if String.eqb ?a ?b then _ else _] =>
             destruct (String.eqb a b)
         end;
    try (destruct (SMTP.alloc w) as [w1 r] eqn:Ea;
         injection Ea as <- <-);
    first
      [ (* QUIT *)
        do 2 eexists; exists true; do 2 eexists;
        split; [destruct fl; reflexivity|];
        cbn [SMTP.hp SMTP.sent SMTP.logged SMTP.send_response SMTP.log
             SMTP.alloc SMTP.append_to SMTP.message_data];
        split; [reflexivity|]; split; [reflexivity|];
        split; [rewrite app_nil_r; reflexivity|]; auto; fail
      | do 2 eexists; exists false; do 2 eexists;
        split; [destruct fl; reflexivity|];
        cbn [SMTP.hp SMTP.sent SMTP.logged SMTP.send_response SMTP.log
             SMTP.alloc SMTP.append_to SMTP.message_data];
        split; [reflexivity|]; split; [reflexivity|];
        split; [first [rewrite app_nil_r; reflexivity | reflexivity]|];
        auto ].
Qed.

(** What the dialog does to the world: it records the messages
    completed, counts them, and leaves the configuration and the
    connection counters alone.  The size of a message recorded stays
    within the cap plus the longest line. *)
Lemma dialog_trace (reads : list SMTP.read_result) :
  forall w v,
    exists evs replies lines,
      let '(w', _, _) := SMTP.dialog c w v reads in
      SMTP.events (SMTP.hp w') = (SMTP.events (SMTP.hp w) ++ evs)%list
      /\ SMTP.total_messages (SMTP.hp w')
         = SMTP.total_messages (SMTP.hp w) + Z.of_nat (length evs)
      /\ Forall (fun ev => SMTP.event_type ev = "smtp_message"
                           /\ SMTP.source_ip ev = SMTP.client_ip c
                           /\ SMTP.source_port ev = SMTP.client_port c
                           /\ SMTP.session_id ev = SMTP.session c) evs
      /\ SMTP.max_message_size (SMTP.hp w') = SMTP.max_message_size (SMTP.hp w)
      /\ SMTP.hostname (SMTP.hp w') = SMTP.hostname (SMTP.hp w)
      /\ SMTP.active_connections (SMTP.hp w')
         = SMTP.active_connections (SMTP.hp w)
      /\ SMTP.total_connections (SMTP.hp w')
         = SMTP.total_connections (SMTP.hp w)
      /\ SMTP.sent w' = (SMTP.sent w ++ replies)%list
      /\ SMTP.logged w' = (SMTP.logged w ++ lines)%list
      /\ (forall L,
            Forall (Spec.line_within L) reads ->
            Py.len (Py.join Py.LF (SMTP.message_data v))
            <= Z.max 0 (SMTP.max_message_size (SMTP.hp w) + L) ->
            Forall (fun ev => SMTP.message_size ev
                              <= Z.max 0 (SMTP.max_message_size (SMTP.hp w)
                                          + L)) evs).
Proof.
  induction reads as [|r reads IH]; intros w v.
  { exists [], [], []. cbn. rewrite !app_nil_r.
    repeat split; first [now constructor | lia]. }
  destruct r as [raw fl| | |x].
  2,3,4: exists [], [], []; cbn; rewrite !app_nil_r;
         repeat split; first [now constructor | lia].
  destruct (SMTP.in_data v) eqn:Hd.
  - destruct (String.eqb (Py.strip raw) ".") eqn:Hdot.
    + (* the end of a message *)
      cbn [SMTP.dialog]. rewrite Hd, Hdot.
      set (message := Py.join Py.LF (SMTP.message_data v)).
      match goal with
      | |- context [SMTP.record_message _ ?ev0] => set (ev := ev0)
      end.
      destruct fl.
      * match goal with
        | |- context [SMTP.dialog c ?W ?V reads] =>
            destruct (IH W V) as (evs & replies & lines & IHw);
            destruct (SMTP.dialog c W V reads) as [[w' v'] how]
        end.
        destruct IHw as (E & T & F & M & H & A & C & S & L & B).
        cbn [SMTP.hp SMTP.set_hp SMTP.log SMTP.send_response
             SMTP.record_message SMTP.events SMTP.total_messages
             SMTP.max_message_size SMTP.hostname SMTP.active_connections
             SMTP.total_connections SMTP.sent SMTP.logged
             SMTP.message_data] in E, T, M, H, A, C, S, L, B.
        exists (ev :: evs). do 2 eexists.
        rewrite E, T, S, L, <- !app_assoc. cbn [app length].
        repeat split; try assumption; try reflexivity; try lia.
        -- constructor; [repeat split|assumption].
        -- intros Lmax Hw Hmd. inversion Hw; subst.
           constructor; [exact Hmd|]. apply B; [assumption|].
           change (Py.len (Py.join Py.LF [])) with 0. lia.
      * exists [ev]. do 2 eexists.
        cbn [SMTP.hp SMTP.set_hp SMTP.log SMTP.send_response
             SMTP.record_message SMTP.events SMTP.total_messages
             SMTP.max_message_size SMTP.hostname SMTP.active_connections
             SMTP.total_connections SMTP.sent SMTP.logged length].
        repeat split; try reflexivity; try lia.
        -- constructor; [repeat split|constructor].
        -- intros Lmax Hw Hmd. constructor; [exact Hmd|constructor].
    + (* a line of the message *)
      rewrite dialog_data_line by assumption.
      match goal with
      | |- context [SMTP.dialog c w ?V reads] =>
          destruct (IH w V) as (evs & replies & lines & IHw);
          destruct (SMTP.dialog c w V reads) as [[w' v'] how]
      end.
      destruct IHw as (E & T & F & M & H & A & C & S & L & B).
      exists evs, replies, lines.
      repeat split; try assumption.
      intros Lmax Hw Hmd. inversion Hw as [|? ? Hr Hrest]; subst.
      apply B; [assumption|]. cbn [SMTP.message_data].
      cbn [Spec.line_within] in Hr.
      pose proof (gather_bound (SMTP.hp w) (SMTP.message_data v)
                    (Py.strip raw) _ Hmd).
      lia.
  - destruct (dialog_command w v raw fl reads Hd)
      as (W & V & stop & reply & ls & -> & Hh & Hs & Hl & Hm).
    destruct (fl && negb stop) eqn:Hgo.
    + destruct (IH W V) as (evs & replies & lines & IHw).
      destruct (SMTP.dialog c W V reads) as [[w' v'] how].
      destruct IHw as (E & T & F & M & H & A & C & S & L & B).
      rewrite Hh in *. rewrite Hs in S. rewrite Hl in L.
      exists evs. do 2 eexists. rewrite S, L, <- !app_assoc.
      repeat split; try assumption; try reflexivity.
      intros Lmax Hw Hmd. inversion Hw; subst.
      apply B; [assumption|].
      destruct Hm as [->| ->]; [assumption|].
      change (Py.len (Py.join Py.LF [])) with 0. lia.
    + exists []. do 2 eexists. rewrite Hh, Hs, Hl, app_nil_r.
      cbn [length]. repeat split; first [reflexivity | now constructor | lia].
Qed.


Variable h : SMTP.SMTPHoneypot.
Variable lists : list (list string).

Lemma smtp_session_trace (reads : list SMTP.read_result) :
  let o := SMTP.handle_connection h lists c reads in
  exists evs replies lines,
    SMTP.events (SMTP.hp (SMTP.final o)) = (SMTP.events h ++ evs)%list
    /\ SMTP.total_messages (SMTP.hp (SMTP.final o))
       = SMTP.total_messages h + Z.of_nat (length evs)
    /\ Forall (fun ev => SMTP.event_type ev = "smtp_message"
                         /\ SMTP.source_ip ev = SMTP.client_ip c
                         /\ SMTP.source_port ev = SMTP.client_port c
                         /\ SMTP.session_id ev = SMTP.session c) evs
    /\ SMTP.total_connections (SMTP.hp (SMTP.final o))
       = SMTP.total_connections h + 1
    /\ SMTP.active_connections (SMTP.hp (SMTP.final o))
       = SMTP.active_connections h
    /\ SMTP.sent (SMTP.final o)
       = (("220 " ++ SMTP.hostname h ++ " ESMTP ready") ++ Py.CRLF)%string
         :: replies
    /\ SMTP.logged (SMTP.final o)
       = (SMTP.ConnectionOpened (SMTP.session c) (SMTP.client_ip c)
            :: lines ++ [SMTP.ConnectionClosed (SMTP.session c)])%list
    /\ (forall L,
          Forall (Spec.line_within L) reads ->
          Forall (fun ev => SMTP.message_size ev
                            <= Z.max 0 (SMTP.max_message_size h + L)) evs).
Proof.
  intros o. subst o. unfold SMTP.handle_connection.
  cbn [SMTP.alloc SMTP.log SMTP.send_response SMTP.hp SMTP.store SMTP.sent
       SMTP.logged SMTP.count_connection SMTP.hostname].
  destruct (SMTP.greeting_flushed c).
  - match goal with
    | |- context [SMTP.dialog c ?W ?V reads] =>
        destruct (dialog_trace reads W V) as (evs & replies & lines & Hw);
        destruct (SMTP.dialog c W V reads) as [[w' v'] how]
    end.
    destruct Hw as (E & T & F & M & H & A & C & S & L & B).
    cbn [SMTP.hp SMTP.events SMTP.total_messages SMTP.max_message_size
         SMTP.hostname SMTP.active_connections SMTP.total_connections
         SMTP.sent SMTP.logged SMTP.message_data SMTP.count_connection
         SMTP.send_response SMTP.log app]
      in E, T, M, H, A, C, S, L, B.
    exists evs, replies.
    exists (lines ++ match how with
                     | SMTP.Normal => []
                     | SMTP.Raised x => [SMTP.Error x]
                     end)%list.
    destruct how as [|x];
      cbn [SMTP.final SMTP.hp SMTP.set_hp SMTP.log SMTP.set_active
           SMTP.events SMTP.total_messages SMTP.active_connections
           SMTP.total_connections SMTP.sent SMTP.logged];
      rewrite E, T, S, L, ?app_nil_r, <- ?app_assoc; cbn [app];
      (repeat split; try assumption; try reflexivity; try lia;
       intros Lmax Hreads; apply B; [assumption|];
       change (Py.len (Py.join Py.LF [])) with 0; lia).
  - exists [], [], [SMTP.Error ConnectionResetError].
    cbn. rewrite app_nil_r.
    repeat split; first [now constructor | lia | intros; constructor].
Qed.

(** X14.  Accounting of messages.  The SMTP honeypot accepts every
    connection: it has no connection cap.  Whatever the peer sends, the
    greeting "220 <hostname> ESMTP ready" is written first, the session
    is logged as opened first and as closed last, total_connections
    grows by one and active_connections is back to its value; the
    events appended are the smtp_message events of this peer and
    session, and total_messages grows by their number. *)
Theorem smtp_session_accounting (reads : list SMTP.read_result) :
  let o := SMTP.handle_connection h lists c reads in
  exists evs replies lines,
    SMTP.events (SMTP.hp (SMTP.final o)) = (SMTP.events h ++ evs)%list
    /\ Forall (fun ev => SMTP.event_type ev = "smtp_message"
                         /\ SMTP.source_ip ev = SMTP.client_ip c
                         /\ SMTP.source_port ev = SMTP.client_port c
                         /\ SMTP.session_id ev = SMTP.session c) evs
    /\ SMTP.get_metrics (SMTP.hp (SMTP.final o))
       = [("total_connections", SMTP.total_connections h + 1);
          ("active_connections", SMTP.active_connections h);
          ("total_messages",
            SMTP.total_messages h + Z.of_nat (length evs))]
    /\ SMTP.sent (SMTP.final o)
       = (("220 " ++ SMTP.hostname h ++ " ESMTP ready") ++ Py.CRLF)%string
         :: replies
    /\ SMTP.logged (SMTP.final o)
       = (SMTP.ConnectionOpened (SMTP.session c) (SMTP.client_ip c)
            :: lines ++ [SMTP.ConnectionClosed (SMTP.session c)])%list
    /\ SMTP.closed o = true.
Proof.
  intros o.
  destruct (smtp_session_trace reads)
    as (evs & replies & lines & E & T & F & C & A & S & L & _).
  fold o in E, T, C, A, S, L.
  exists evs, replies, lines. unfold SMTP.get_metrics.
  rewrite E, T, C, A, S, L. repeat split; try assumption.
  subst o. unfold SMTP.handle_connection.
  cbn [SMTP.alloc]. destruct (SMTP.greeting_flushed c);
    [destruct (SMTP.dialog _ _ _ _) as [[w' v'] how]|]; reflexivity.
Qed.

(** X15.  What the size guard does ensure.  When every line of a
    session is at most [L] characters long once trimmed, every message
    recorded is at most max_message_size + L characters long: the cap is
    exceeded by one line at most. *)
Theorem smtp_message_size_bounded (reads : list SMTP.read_result) (L : Z) :
  Forall (Spec.line_within L) reads ->
  let o := SMTP.handle_connection h lists c reads in
  exists evs,
    SMTP.events (SMTP.hp (SMTP.final o)) = (SMTP.events h ++ evs)%list
    /\ Forall (fun ev => SMTP.message_size ev
                         <= Z.max 0 (SMTP.max_message_size h + L)) evs.
Proof.
  intros Hreads o.
  destruct (smtp_session_trace reads)
    as (evs & replies & lines & E & _ & _ & _ & _ & _ & _ & B).
  exists evs. split; [exact E|]. now apply B.
Qed.

(** X16.  The list of recipients is shared.  The event of a message
    holds the very list that RCPT commands extend: a recipient named
    after the message was completed is added to the recipients of the
    event already recorded. *)
Theorem smtp_recipients_shared (w : SMTP.world) (v : SMTP.vars)
  (raw : string) (old : list string) :
  SMTP.in_data v = false ->
  SMTP.store w !! SMTP.v_rcpt_to v = Some old ->
  SMTP.command_of (Py.strip raw) = "RCPT" ->
  exists w' v' how ev,
    SMTP.dialog c w v
      [Spec.sent_line "DATA"; Spec.sent_line "."; SMTP.Line raw true]
    = (w', v', how)
    /\ SMTP.events (SMTP.hp w') = (SMTP.events (SMTP.hp w) ++ [ev])%list
    /\ SMTP.rcpt_to ev = SMTP.v_rcpt_to v
    /\ SMTP.store w' !! SMTP.rcpt_to ev
       = Some (old ++ [SMTP.extract_address (Py.strip raw)])%list.
Proof.
  intros Hd Hold Hcmd.
  rewrite dialog_data_command by assumption.
  unfold Spec.sent_line. cbn [SMTP.dialog SMTP.in_data].
  change (String.eqb (Py.strip ("." ++ Py.CRLF)) ".") with true.
  cbv iota zeta. rewrite Hcmd.
  change (String.eqb "RCPT" "HELO" || String.eqb "RCPT" "EHLO") with false.
  change (String.eqb "RCPT" "MAIL") with false.
  change (String.eqb "RCPT" "RCPT") with true.
  cbv iota. do 4 eexists. split; [reflexivity|].
  cbn [SMTP.hp SMTP.store SMTP.events SMTP.set_hp SMTP.log
       SMTP.send_response SMTP.append_to SMTP.record_message SMTP.rcpt_to
       SMTP.v_rcpt_to].
  split; [reflexivity|]. split; [reflexivity|].
  cbn [SMTP.rcpt_to]. rewrite list_lookup_alter.
  destruct (decide _) as [_|Hne]; [|congruence].
  exact (f_equal (fmap (fun l => l ++ [SMTP.extract_address (Py.strip raw)])%list)
           Hold).
Qed.

End SMTPSessions.
(* ===================================================================== *)
(** * SMTP: a mail transaction *)
(* ===================================================================== *)

Section PyTrim.

Variable p : ascii -> bool.

Lemma rstrip_all (t : string) :
  Py.forallb_str p t = true -> Py.rstrip_with p t = "".
Proof.
  induction t as [|c r IH]; [reflexivity|].
  cbn [Py.forallb_str Py.rstrip_with]. intros H.
  apply andb_true_iff in H as [Hc Hr]. now rewrite IH, Hc.
Qed.

(** Trimming ignores what is trimmed at the end. *)
Lemma rstrip_app_trimmed (s t : string) :
  Py.forallb_str p t = true ->
  Py.rstrip_with p (s ++ t) = Py.rstrip_with p s.
Proof.
  intros Ht. induction s as [|c r IH].
  - rewrite append_nil_l. now apply rstrip_all.
  - rewrite append_cons. cbn [Py.rstrip_with]. now rewrite IH.
Qed.

(** A text that ends with a character that is not trimmed is kept. *)
Lemma rstrip_kept (s : string) (c : ascii) :
  p c = false -> Py.rstrip_with p (s ++ String c "") = s ++ String c "".
Proof.
  intros Hc. induction s as [|d r IH].
  - rewrite append_nil_l. cbn [Py.rstrip_with]. now rewrite Hc.
  - rewrite append_cons. cbn [Py.rstrip_with]. rewrite IH.
    destruct r; reflexivity.
Qed.

Lemma lstrip_app (l t : string) :
  Py.lstrip_with p (l ++ t)
  = if Py.forallb_str p l then Py.lstrip_with p t
    else Py.lstrip_with p l ++ t.
Proof.
  induction l as [|c r IH]; [reflexivity|].
  rewrite append_cons. cbn [Py.lstrip_with Py.forallb_str].
  destruct (p c); [exact IH|reflexivity].
Qed.

Lemma lstrip_all (l : string) :
  Py.forallb_str p l = true -> Py.lstrip_with p l = "".
Proof.
  induction l as [|c r IH]; [reflexivity|].
  cbn [Py.forallb_str Py.lstrip_with]. intros H.
  apply andb_true_iff in H as [-> Hr]. now apply IH.
Qed.

End PyTrim.

Section PyLines.

Lemma CRLF_space : Py.forallb_str Py.isspace Py.CRLF = true.
Proof. rewrite CRLF_eq. reflexivity. Qed.

(** The line end is trimmed with the rest of the white space. *)
Lemma strip_crlf (l : string) : Py.strip (l ++ Py.CRLF) = Py.strip l.
Proof.
  unfold Py.strip, Py.strip_with. rewrite lstrip_app.
  destruct (Py.forallb_str Py.isspace l) eqn:E.
  - rewrite (lstrip_all _ _ CRLF_space), (lstrip_all _ _ E). reflexivity.
  - apply rstrip_app_trimmed, CRLF_space.
Qed.

(** A line that starts and ends with characters other than white space
    is read as it was sent. *)
Lemma strip_framed (c0 cl : ascii) (mid : string) :
  Py.isspace c0 = false -> Py.isspace cl = false ->
  Py.strip (String c0 (mid ++ String cl "") ++ Py.CRLF)
  = String c0 (mid ++ String cl "").
Proof.
  intros H0 Hl. rewrite strip_crlf. unfold Py.strip, Py.strip_with.
  cbn [Py.lstrip_with]. rewrite H0.
  rewrite <- append_cons. now apply rstrip_kept.
Qed.

Lemma upper_app (a b : string) : Py.upper (a ++ b) = Py.upper a ++ Py.upper b.
Proof.
  induction a as [|c r IH]; [reflexivity|].
  rewrite append_cons. cbn [Py.upper]. now rewrite IH, append_assoc.
Qed.

(** The first word of a text. *)
Lemma split_ws_go_word (w rest acc : string) :
  Py.forallb_str (fun c => negb (Py.isspace c)) w = true ->
  acc ++ w <> "" ->
  Py.split_ws_go (w ++ String " " rest) acc
  = (acc ++ w) :: Py.split_ws_go rest "".
Proof.
  revert acc. induction w as [|c r IH]; intros acc Hw Hne.
  - rewrite append_nil_l, append_nil_r in *. cbn [Py.split_ws_go].
    change (Py.isspace " ") with true. cbv iota.
    destruct acc; [congruence|reflexivity].
  - cbn [Py.forallb_str] in Hw. apply andb_true_iff in Hw as [Hc Hr].
    apply negb_true_iff in Hc.
    rewrite append_cons. cbn [Py.split_ws_go]. rewrite Hc.
    rewrite IH; [now rewrite append_assoc|assumption|].
    rewrite append_assoc, append_cons, append_nil_l.
    intros H. apply append_eq_nil in H as [_ H]. discriminate H.
Qed.

(** The command word of a line is its first word in capitals. *)
Lemma command_of_word (w rest : string) :
  w <> "" ->
  Py.forallb_str (fun c => negb (Py.isspace c)) (Py.upper w) = true ->
  Py.upper w <> "" ->
  SMTP.command_of (w ++ String " " rest) = Py.upper w.
Proof.
  intros Hw Hup Hne. unfold SMTP.command_of.
  destruct (w ++ String " " rest) eqn:E.
  { apply append_eq_nil in E as [_ E]. discriminate. }
  rewrite <- E. clear E. unfold Py.split_ws.
  rewrite upper_app. cbn [Py.upper].
  change (Py.upper_char " ") with " ".
  rewrite append_cons, append_nil_l.
  rewrite split_ws_go_word by (rewrite ?append_nil_l; assumption).
  reflexivity.
Qed.

Lemma len_join_app_le (md more : list string) :
  (Py.len (Py.join Py.LF md) <= Py.len (Py.join Py.LF (md ++ more)))%Z.
Proof.
  unfold Py.len, Py.join. apply Nat2Z.inj_le.
  induction md as [|a md IH]; [cbn; lia|].
  destruct md as [|b md].
  - cbn [app]. destruct more as [|x more].
    + cbn. lia.
    + rewrite (concat_cons _ a (x :: more)) by discriminate.
      rewrite length_append. cbn [String.concat]. lia.
  - change ((a :: b :: md) ++ more)%list with (a :: (b :: md) ++ more)%list.
    rewrite (concat_cons _ a (b :: md)) by discriminate.
    rewrite (concat_cons _ a ((b :: md) ++ more)) by discriminate.
    rewrite !length_append. lia.
Qed.

End PyLines.

Section SMTPTransaction.

Local Open Scope Z_scope.

Variable c : SMTP.peer.

(** Lines of a message below the cap are gathered, trimmed. *)
Lemma dialog_data_lines (body : list string) (rest : list SMTP.read_result) :
  forall w v,
    SMTP.in_data v = true ->
    Forall (fun l => Py.strip l <> ".") body ->
    Py.len (Py.join Py.LF (SMTP.message_data v ++ map Py.strip body))
    < SMTP.max_message_size (SMTP.hp w) ->
    SMTP.dialog c w v (map Spec.sent_line body ++ rest)
    = SMTP.dialog c w
        {| SMTP.v_mail_from := SMTP.v_mail_from v;
           SMTP.v_rcpt_to := SMTP.v_rcpt_to v;
           SMTP.in_data := true;
           SMTP.message_data := SMTP.message_data v ++ map Py.strip body |}
        rest.
Proof.
  induction body as [|l body IH]; intros w v Hd Hdot Hcap.
  - cbn [map app]. rewrite app_nil_r. destruct v; cbn in *. now subst.
  - inversion Hdot as [|? ? Hl Hrest]; subst.
    cbn [map app]. unfold Spec.sent_line at 1.
    rewrite dialog_data_line;
      [|assumption|rewrite strip_crlf; now apply String.eqb_neq].
    rewrite strip_crlf.
    assert (Hg : SMTP.gather (SMTP.hp w) (SMTP.message_data v) (Py.strip l)
                 = (SMTP.message_data v ++ [Py.strip l])%list).
    { unfold SMTP.gather.
      replace (Py.len (Py.join Py.LF (SMTP.message_data v))
               <? SMTP.max_message_size (SMTP.hp w)) with true; [reflexivity|].
      symmetry. apply Z.ltb_lt.
      pose proof (len_join_app_le (SMTP.message_data v)
                    (map Py.strip (l :: body))).
      lia. }
    rewrite Hg, IH; cbn [SMTP.in_data SMTP.message_data SMTP.v_mail_from
                         SMTP.v_rcpt_to];
      [now rewrite <- app_assoc|reflexivity|assumption|].
    now rewrite <- app_assoc.
Qed.


(** The MAIL command with the sender between angle brackets. *)
Lemma dialog_mail (w : SMTP.world) (v : SMTP.vars) (sender : string)
  (rest : list SMTP.read_result) :
  SMTP.in_data v = false ->
  Py.contains sender ">" = false ->
  SMTP.dialog c w v (Spec.sent_line ("MAIL FROM:<" ++ sender ++ ">") :: rest)
  = SMTP.dialog c
      (SMTP.send_response
         (SMTP.log w (SMTP.MailFrom (SMTP.session c) sender)) "250 OK")
      {| SMTP.v_mail_from := sender;
         SMTP.v_rcpt_to := SMTP.v_rcpt_to v;
         SMTP.in_data := false;
         SMTP.message_data := SMTP.message_data v |}
      rest.
Proof.
  intros Hd Hs. unfold Spec.sent_line. cbn [SMTP.dialog]. rewrite Hd.
  change ("MAIL FROM:<" ++ sender ++ ">")
    with (String "M" (("AIL FROM:<" ++ sender) ++ String ">" "")).
  rewrite strip_framed by reflexivity.
  change (String "M" (("AIL FROM:<" ++ sender) ++ String ">" ""))
    with ("MAIL" ++ String " " ("FROM:<" ++ sender ++ ">")) at 1.
  rewrite command_of_word by (vm_compute; first [reflexivity|discriminate]).
  change (Py.upper "MAIL") with "MAIL".
  change (String.eqb "MAIL" "HELO" || String.eqb "MAIL" "EHLO") with false.
  change (String.eqb "MAIL" "MAIL") with true. cbv iota zeta.
  change (String "M" (("AIL FROM:<" ++ sender) ++ String ">" ""))
    with ("MAIL FROM:" ++ "<" ++ sender ++ ">" ++ "").
  rewrite extract_address_between by (reflexivity || assumption).
  reflexivity.
Qed.

(** The RCPT command with the recipient between angle brackets. *)
Lemma dialog_rcpt (w : SMTP.world) (v : SMTP.vars) (rcpt : string)
  (rest : list SMTP.read_result) :
  SMTP.in_data v = false ->
  Py.contains rcpt ">" = false ->
  SMTP.dialog c w v (Spec.sent_line ("RCPT TO:<" ++ rcpt ++ ">") :: rest)
  = SMTP.dialog c
      (SMTP.send_response
         (SMTP.log (SMTP.append_to w (SMTP.v_rcpt_to v) rcpt)
            (SMTP.RcptTo (SMTP.session c) rcpt)) "250 OK")
      v rest.
Proof.
  intros Hd Hs. unfold Spec.sent_line. cbn [SMTP.dialog]. rewrite Hd.
  change ("RCPT TO:<" ++ rcpt ++ ">")
    with (String "R" (("CPT TO:<" ++ rcpt) ++ String ">" "")).
  rewrite strip_framed by reflexivity.
  change (String "R" (("CPT TO:<" ++ rcpt) ++ String ">" ""))
    with ("RCPT" ++ String " " ("TO:<" ++ rcpt ++ ">")) at 1.
  rewrite command_of_word by (vm_compute; first [reflexivity|discriminate]).
  change (Py.upper "RCPT") with "RCPT".
  change (String.eqb "RCPT" "HELO" || String.eqb "RCPT" "EHLO") with false.
  change (String.eqb "RCPT" "MAIL") with false.
  change (String.eqb "RCPT" "RCPT") with true. cbv iota zeta.
  change (String "R" (("CPT TO:<" ++ rcpt) ++ String ">" ""))
    with ("RCPT TO:" ++ "<" ++ rcpt ++ ">" ++ "").
  rewrite extract_address_between by (reflexivity || assumption).
  reflexivity.
Qed.

(** X17.  A mail transaction.  For a session made of MAIL with the
    sender between angle brackets, RCPT with the recipient between angle
    brackets, DATA, the lines of a message below the cap, the line "."
    and QUIT, one smtp_message event is recorded: its sender is the
    sender named, its recipients are the recipient named, its subject is
    that of the message and its size the length of the message, which is
    the lines trimmed and joined by line feeds.  Each command is
    answered once, the lines of the message are not answered, and
    nothing is read after QUIT. *)
Theorem smtp_mail_transaction (h : SMTP.SMTPHoneypot)
  (lists : list (list string)) (sender rcpt : string) (body : list string)
  (more : list SMTP.read_result) :
  SMTP.greeting_flushed c = true ->
  Py.contains sender ">" = false ->
  Py.contains rcpt ">" = false ->
  Forall (fun l => Py.strip l <> ".") body ->
  Py.len (Py.join Py.LF (map Py.strip body)) < SMTP.max_message_size h ->
  let o := SMTP.handle_connection h lists c
             (Spec.mail_transaction sender rcpt body ++ more) in
  let message := Py.join Py.LF (map Py.strip body) in
  SMTP.events (SMTP.hp (SMTP.final o))
  = (SMTP.events h
     ++ [{| SMTP.event_type := "smtp_message";
            SMTP.source_ip := SMTP.client_ip c;
            SMTP.source_port := SMTP.client_port c;
            SMTP.mail_from := sender;
            SMTP.rcpt_to := length lists;
            SMTP.subject := SMTP.extract_subject message;
            SMTP.message_size := Py.len message;
            SMTP.session_id := SMTP.session c |}])%list
  /\ SMTP.store (SMTP.final o) !! length lists = Some [rcpt]
  /\ SMTP.total_messages (SMTP.hp (SMTP.final o)) = SMTP.total_messages h + 1
  /\ SMTP.sent (SMTP.final o)
     = map (fun s => (s ++ Py.CRLF)%string)
         [("220 " ++ SMTP.hostname h ++ " ESMTP ready")%string;
          "250 OK"; "250 OK";
          "354 Start mail input; end with <CRLF>.<CRLF>";
          "250 OK: Message queued"; "221 Bye"].
Proof.
  intros Hg Hs Hr Hdot Hcap o message. subst o.
  unfold SMTP.handle_connection, Spec.mail_transaction.
  cbn [SMTP.alloc SMTP.log SMTP.send_response SMTP.hp SMTP.store SMTP.sent
       SMTP.logged]. rewrite Hg.
  cbn [app]. rewrite dialog_mail by (reflexivity || assumption).
  rewrite dialog_rcpt by (reflexivity || assumption).
  rewrite dialog_data_command by reflexivity.
  rewrite <- app_assoc.
  rewrite dialog_data_lines;
    [|reflexivity|assumption|
     cbn [SMTP.message_data SMTP.hp SMTP.send_response SMTP.log
          SMTP.append_to SMTP.count_connection SMTP.max_message_size app];
     exact Hcap].
  cbn [SMTP.message_data SMTP.v_mail_from SMTP.v_rcpt_to app].
  unfold Spec.sent_line. cbn [SMTP.dialog SMTP.in_data].
  change (String.eqb (Py.strip ("." ++ Py.CRLF)) ".") with true.
  cbv iota zeta.
  change (SMTP.command_of (Py.strip ("QUIT" ++ Py.CRLF))) with "QUIT".
  change (String.eqb "QUIT" "HELO" || String.eqb "QUIT" "EHLO") with false.
  change (String.eqb "QUIT" "MAIL") with false.
  change (String.eqb "QUIT" "RCPT") with false.
  change (String.eqb "QUIT" "DATA") with false.
  change (String.eqb "QUIT" "RSET") with false.
  change (String.eqb "QUIT" "NOOP") with false.
  change (String.eqb "QUIT" "QUIT") with true.
  cbv iota.
  cbn [SMTP.final SMTP.hp SMTP.store SMTP.sent SMTP.events SMTP.set_hp
       SMTP.log SMTP.send_response SMTP.append_to SMTP.record_message
       SMTP.set_active SMTP.count_connection SMTP.total_messages
       SMTP.message_data SMTP.v_mail_from SMTP.v_rcpt_to SMTP.hostname
       app map].
  fold message. repeat split.
  rewrite list_lookup_alter. destruct (decide _) as [_|Hne]; [|congruence].
  now rewrite list_lookup_middle.
Qed.

End SMTPTransaction.

(** ** The SMTP honeypot on concrete sessions *)

Section SMTPRuns.

Local Open Scope Z_scope.

(** Under a cap of 8 characters and with lines of at most 7, no message
    recorded exceeds 15 characters. *)
Lemma smtp_message_size_bounded_witness :
  let h := SMTP.init 8 "mail.example.com" in
  let reads := Spec.oversize_script 8 in
  Forall (Spec.line_within 7) reads
  /\ exists evs,
       SMTP.events
         (SMTP.hp (SMTP.final (SMTP.handle_connection h [] Spec.smtp_peer
                                 reads)))
       = (SMTP.events h ++ evs)%list
       /\ Forall (fun ev => SMTP.message_size ev
                            <= Z.max 0 (SMTP.max_message_size h + 7)) evs.
Proof.
  intros h reads.
  assert (H : Forall (Spec.line_within 7) reads).
  { repeat constructor; vm_compute; discriminate. }
  split; [exact H|].
  exact (smtp_message_size_bounded Spec.smtp_peer h [] reads 7 H).
Defined.

(** A recipient named after the first message of a session. *)
Lemma smtp_recipients_shared_witness :
  let w := {| SMTP.hp := SMTP.init 1024 "mail.example.com";
              SMTP.store := [["a@example.com"]];
              SMTP.sent := []; SMTP.logged := [] |} in
  let v := {| SMTP.v_mail_from := "x@example.com"; SMTP.v_rcpt_to := 0%nat;
              SMTP.in_data := false; SMTP.message_data := [] |} in
  let raw := "rcpt to:<b@example.com>" ++ Py.CRLF in
  SMTP.in_data v = false
  /\ SMTP.store w !! SMTP.v_rcpt_to v = Some ["a@example.com"]
  /\ SMTP.command_of (Py.strip raw) = "RCPT"
  /\ exists w' v' how ev,
       SMTP.dialog Spec.smtp_peer w v
         [Spec.sent_line "DATA"; Spec.sent_line "."; SMTP.Line raw true]
       = (w', v', how)
       /\ SMTP.events (SMTP.hp w') = (SMTP.events (SMTP.hp w) ++ [ev])%list
       /\ SMTP.rcpt_to ev = SMTP.v_rcpt_to v
       /\ SMTP.store w' !! SMTP.rcpt_to ev
          = Some (["a@example.com"]
                  ++ [SMTP.extract_address (Py.strip raw)])%list.
Proof.
  intros w v raw.
  assert (H1 : SMTP.in_data v = false) by reflexivity.
  assert (H2 : SMTP.store w !! SMTP.v_rcpt_to v = Some ["a@example.com"])
    by reflexivity.
  assert (H3 : SMTP.command_of (Py.strip raw) = "RCPT")
    by (vm_compute; reflexivity).
  do 3 (split; [assumption|]).
  exact (smtp_recipients_shared Spec.smtp_peer w v raw _ H1 H2 H3).
Defined.

(** A message of three lines with a subject. *)
Lemma smtp_mail_transaction_witness :
  let h := SMTP.init 1024 "mail.example.com" in
  let body := ["Subject: hi"; ""; " hello "] in
  let o := SMTP.handle_connection h [] Spec.smtp_peer
             (Spec.mail_transaction "a@example.com" "b@example.com" body
              ++ [Spec.sent_line "NOOP"]) in
  SMTP.greeting_flushed Spec.smtp_peer = true
  /\ Py.contains "a@example.com" ">" = false
  /\ Py.contains "b@example.com" ">" = false
  /\ Forall (fun l => Py.strip l <> ".") body
  /\ Py.len (Py.join Py.LF (map Py.strip body)) < SMTP.max_message_size h
  /\ SMTP.events (SMTP.hp (SMTP.final o))
     = (SMTP.events h
        ++ [{| SMTP.event_type := "smtp_message";
               SMTP.source_ip := SMTP.client_ip Spec.smtp_peer;
               SMTP.source_port := SMTP.client_port Spec.smtp_peer;
               SMTP.mail_from := "a@example.com";
               SMTP.rcpt_to := length (@nil (list string));
               SMTP.subject :=
                 SMTP.extract_subject (Py.join Py.LF (map Py.strip body));
               SMTP.message_size :=
                 Py.len (Py.join Py.LF (map Py.strip body));
               SMTP.session_id := SMTP.session Spec.smtp_peer |}])%list
  /\ SMTP.store (SMTP.final o) !! length (@nil (list string))
     = Some ["b@example.com"]
  /\ SMTP.total_messages (SMTP.hp (SMTP.final o)) = SMTP.total_messages h + 1
  /\ SMTP.sent (SMTP.final o)
     = map (fun s => (s ++ Py.CRLF)%string)
         [("220 " ++ SMTP.hostname h ++ " ESMTP ready")%string;
          "250 OK"; "250 OK";
          "354 Start mail input; end with <CRLF>.<CRLF>";
          "250 OK: Message queued"; "221 Bye"].
Proof.
  intros h body o.
  assert (H1 : SMTP.greeting_flushed Spec.smtp_peer = true) by reflexivity.
  assert (H2 : Py.contains "a@example.com" ">" = false) by reflexivity.
  assert (H3 : Py.contains "b@example.com" ">" = false) by reflexivity.
  assert (H4 : Forall (fun l => Py.strip l <> ".") body)
    by (repeat constructor; vm_compute; discriminate).
  assert (H5 : Py.len (Py.join Py.LF (map Py.strip body))
               < SMTP.max_message_size h) by (vm_compute; reflexivity).
  do 5 (split; [assumption|]).
  exact (smtp_mail_transaction Spec.smtp_peer h [] "a@example.com"
           "b@example.com" body [Spec.sent_line "NOOP"] H1 H2 H3 H4 H5).
Defined.

End SMTPRuns.

(** * MySQL: the greeting, the handshake response and the session *)

Section MySQLBytes.

Local Open Scope Z_scope.

Lemma Z_of_byte_of_Z (n : Z) :
  MySQL.Z_of_byte (MySQL.byte_of_Z n) = n mod 256.
Proof.
  unfold MySQL.Z_of_byte, MySQL.byte_of_Z.
  assert (Hr : 0 <= n mod 256 < 256) by (apply Z.mod_pos_bound; lia).
  destruct (Byte.of_N (Z.to_N (n mod 256))) as [b|] eqn:E.
  - apply Byte.to_of_N in E. rewrite E. lia.
  - apply Byte.of_N_None_iff in E. lia.
Qed.

Lemma read_le_pack_le32 (n : Z) :
  0 <= n < 4294967296 -> Spec.read_le (MySQL.pack_le32 n) = n.
Proof.
  intros Hn. unfold Spec.read_le, MySQL.pack_le32. cbn [fold_right].
  rewrite !Z_of_byte_of_Z.
  replace (n / 65536) with (n / 256 / 256)
    by (rewrite Z.div_div by lia; reflexivity).
  replace (n / 16777216) with (n / 256 / 256 / 256)
    by (rewrite !Z.div_div by lia; reflexivity).
  assert (H3 : n / 256 / 256 / 256 < 256).
  { apply Z.div_lt_upper_bound; [lia|].
    apply Z.div_lt_upper_bound; [lia|].
    apply Z.div_lt_upper_bound; lia. }
  assert (H3' : 0 <= n / 256 / 256 / 256).
  { repeat apply Z.div_pos; lia. }
  rewrite (Z.mod_small (n / 256 / 256 / 256)) by lia.
  pose proof (Z.div_mod n 256 ltac:(lia)).
  pose proof (Z.div_mod (n / 256) 256 ltac:(lia)).
  pose proof (Z.div_mod (n / 256 / 256) 256 ltac:(lia)).
  lia.
Qed.

End MySQLBytes.

Section MySQLGreeting.

Local Open Scope Z_scope.

(** The bytes of the greeting, in order. *)
Lemma greeting_layout (id : Z) (e : MySQL.entropy) :
  fst (MySQL.build_greeting_packet id e)
  = ([x5b; x00; x00; x00; x0a] ++ MySQL.MYSQL_SERVER_VERSION ++ [x00]
     ++ MySQL.pack_le32 id ++ map e (seq 0 8)
     ++ [x00; xff; xf7; x21; x02; x00; x81; x00; x15] ++ repeat x00 10
     ++ map e (seq 8 12) ++ [x00]
     ++ list_byte_of_string "mysql_native_password" ++ [x00])%list.
Proof. reflexivity. Qed.

(** What a client reads from these bytes, whatever the four bytes of the
    connection id and the random bytes are. *)
Lemma greeting_decoded (b0 b1 b2 b3 : byte) (e : nat -> byte) :
  let buf :=
    ([x5b; x00; x00; x00; x0a] ++ MySQL.MYSQL_SERVER_VERSION ++ [x00]
     ++ [b0; b1; b2; b3] ++ map e (seq 0 8)
     ++ [x00; xff; xf7; x21; x02; x00; x81; x00; x15] ++ repeat x00 10
     ++ map e (seq 8 12) ++ [x00]
     ++ list_byte_of_string "mysql_native_password" ++ [x00])%list in
  MySQL.read_packets 1 buf
  = Some [{| MySQL.sequence_id := 0; MySQL.payload := skipn 4 buf |}]
  /\ Spec.read_greeting (skipn 4 buf)
     = Some {| Spec.protocol_version := MySQL.MYSQL_PROTOCOL_VERSION;
               Spec.server_version := MySQL.MYSQL_SERVER_VERSION;
               Spec.thread_id := Spec.read_le [b0; b1; b2; b3];
               Spec.auth_plugin_data := map e (seq 0 20) ++ [x00];
               Spec.capabilities := 8517631;
               Spec.character_set := 33;
               Spec.status_flags := 2;
               Spec.auth_plugin_name :=
                 list_byte_of_string "mysql_native_password" |}.
Proof.
  intros buf. subst buf. split.
  - vm_compute. reflexivity.
  - cbv -[Spec.read_le]. reflexivity.
Qed.

(** X18.  The greeting read back.  For a connection id of 32 bits, the
    buffer of the greeting is one packet with sequence number 0 whose
    payload a client reads as a handshake of protocol version 10: the
    advertised server version, the connection id, 20 fresh random bytes
    closed by a NUL as plugin data, the capability flags 0x0081F7FF,
    character set 33, status 2 and the plugin mysql_native_password.
    The random source is advanced by the 20 bytes drawn. *)
Theorem mysql_greeting_read_back (id : Z) (e : MySQL.entropy) :
  0 <= id < 4294967296 ->
  exists p,
    MySQL.read_packets 1 (fst (MySQL.build_greeting_packet id e))
    = Some [{| MySQL.sequence_id := 0; MySQL.payload := p |}]
    /\ Spec.read_greeting p
       = Some {| Spec.protocol_version := MySQL.MYSQL_PROTOCOL_VERSION;
                 Spec.server_version := MySQL.MYSQL_SERVER_VERSION;
                 Spec.thread_id := id;
                 Spec.auth_plugin_data := map e (seq 0 20) ++ [x00];
                 Spec.capabilities := 8517631;
                 Spec.character_set := 33;
                 Spec.status_flags := 2;
                 Spec.auth_plugin_name :=
                   list_byte_of_string "mysql_native_password" |}
    /\ forall i, snd (MySQL.build_greeting_packet id e) i = e (20 + i)%nat.
Proof.
  intros Hid. apply read_le_pack_le32 in Hid.
  exists (skipn 4 (fst (MySQL.build_greeting_packet id e))).
  rewrite greeting_layout.
  destruct (greeting_decoded (MySQL.byte_of_Z id)
              (MySQL.byte_of_Z (id / 256)) (MySQL.byte_of_Z (id / 65536))
              (MySQL.byte_of_Z (id / 16777216)) e) as [Hp Hg].
  split; [exact Hp|]. split; [|intros i; reflexivity].
  rewrite <- Hid at 2. exact Hg.
Qed.

(** The greeting of connection 7. *)
Lemma mysql_greeting_read_back_witness :
  0 <= 7 < 4294967296
  /\ exists p,
       MySQL.read_packets 1
         (fst (MySQL.build_greeting_packet 7 (fun _ => x2a)))
       = Some [{| MySQL.sequence_id := 0; MySQL.payload := p |}]
       /\ Spec.read_greeting p
          = Some {| Spec.protocol_version := MySQL.MYSQL_PROTOCOL_VERSION;
                    Spec.server_version := MySQL.MYSQL_SERVER_VERSION;
                    Spec.thread_id := 7;
                    Spec.auth_plugin_data :=
                      map (fun _ => x2a) (seq 0 20) ++ [x00];
                    Spec.capabilities := 8517631;
                    Spec.character_set := 33;
                    Spec.status_flags := 2;
                    Spec.auth_plugin_name :=
                      list_byte_of_string "mysql_native_password" |}
       /\ forall i,
            snd (MySQL.build_greeting_packet 7 (fun _ => x2a)) i
            = (fun _ : nat => x2a) (20 + i)%nat.
Proof.
  assert (H : 0 <= 7 < 4294967296) by lia.
  split; [exact H|].
  exact (mysql_greeting_read_back 7 (fun _ => x2a) H).
Defined.

End MySQLGreeting.

Section MySQLAuthPacket.

Variable decode : list byte -> string.

Lemma index_of_app (b : byte) (l1 l2 : list byte) :
  ~ In b l1 -> MySQL.index_of b (l1 ++ b :: l2) = Some (length l1).
Proof.
  induction l1 as [|x l1 IH]; intros Hn; cbn [app MySQL.index_of length].
  - now rewrite (Byte.byte_dec_lb eq_refl).
  - destruct (Byte.eqb x b) eqn:E.
    + apply Byte.byte_dec_bl in E. subst. exfalso. apply Hn. now left.
    + rewrite IH; [reflexivity|]. intros H. apply Hn. now right.
Qed.

Lemma index_of_none (b : byte) (l : list byte) :
  ~ In b l -> MySQL.index_of b l = None.
Proof.
  induction l as [|x l IH]; intros Hn; cbn [MySQL.index_of]; [reflexivity|].
  destruct (Byte.eqb x b) eqn:E.
  - apply Byte.byte_dec_bl in E. subst. exfalso. apply Hn. now left.
  - rewrite IH; [reflexivity|]. intros H. apply Hn. now right.
Qed.

Lemma find_from_app (b : byte) (pre l1 l2 : list byte) :
  ~ In b l1 ->
  MySQL.find_from b (pre ++ l1 ++ b :: l2) (length pre)
  = Some (length pre + length l1)%nat.
Proof.
  intros Hn. unfold MySQL.find_from.
  rewrite drop_app_length, index_of_app by assumption. reflexivity.
Qed.

Lemma bslice_app (pre l1 l2 : list byte) :
  MySQL.bslice (length pre) (length pre + length l1) (pre ++ l1 ++ l2) = l1.
Proof.
  unfold MySQL.bslice. rewrite drop_app_length.
  replace (length pre + length l1 - length pre)%nat with (length l1) by lia.
  apply take_app_length.
Qed.

Lemma nth_error_middle (pre : list byte) (x : byte) (l : list byte) :
  nth_error (pre ++ x :: l) (length pre) = Some x.
Proof.
  rewrite nth_error_app2 by lia. now rewrite Nat.sub_diag.
Qed.

Lemma auth_length (auth : list byte) :
  (length auth < 256)%nat ->
  Z.to_nat (MySQL.Z_of_byte (MySQL.byte_of_Z (MySQL.blen auth)))
  = length auth.
Proof.
  intros H. rewrite Z_of_byte_of_Z. unfold MySQL.blen.
  rewrite Z.mod_small by lia. lia.
Qed.

(** X19.  The handshake response read back.  From a response laid out
    as 36 bytes of fixed fields, the user name and a NUL, the length of
    the authentication data and that data, and possibly a database name
    and a NUL, the parser returns the decoded user name and the decoded
    database name, or the empty string when no database is named.  The
    names hold no NUL and the authentication data is shorter than 256
    bytes. *)
Theorem mysql_parse_auth_packet_round_trip (fixed user auth : list byte)
  (db : option (list byte)) :
  length fixed = 36%nat ->
  ~ In x00 user ->
  (length auth < 256)%nat ->
  match db with Some name => ~ In x00 name | None => True end ->
  MySQL.parse_auth_packet decode (Spec.handshake_response fixed user auth db)
  = (decode user,
     match db with Some name => decode name | None => ""%string end).
Proof.
  intros Hfixed Huser Hauth Hdb.
  unfold Spec.handshake_response, MySQL.parse_auth_packet.
  set (tail := match db with
               | Some name => (name ++ [x00])%list
               | None => []
               end).
  set (len := MySQL.byte_of_Z (MySQL.blen auth)).
  cbn [app].
  assert (Hlen : (length (fixed ++ user ++ x00 :: len :: auth ++ tail)
                  = 36 + length user + 2 + length auth + length tail)%nat).
  { rewrite !length_app. cbn [length]. rewrite length_app. lia. }
  destruct (Nat.ltb_spec (length (fixed ++ user ++ x00 :: len :: auth ++ tail))
              36) as [Hlt|_]; [lia|].
  rewrite <- Hfixed at 1. rewrite find_from_app by assumption.
  rewrite <- Hfixed at 1. rewrite bslice_app.
  (* the length byte *)
  replace (fixed ++ user ++ x00 :: len :: auth ++ tail)%list
    with ((fixed ++ user ++ [x00]) ++ len :: auth ++ tail)%list
    by (now rewrite <- !app_assoc).
  replace (S (length fixed + length user))
    with (length (fixed ++ user ++ [x00]))
    by (rewrite !length_app; cbn [length]; lia).
  rewrite nth_error_middle.
  replace (Z.to_nat (MySQL.Z_of_byte len)) with (length auth)
    by (symmetry; apply auth_length; assumption).
  replace (length (fixed ++ user ++ [x00]) + length auth + 1)%nat
    with (length ((fixed ++ user ++ [x00]) ++ len :: auth))
    by (rewrite !length_app; cbn [length]; lia).
  replace ((fixed ++ user ++ [x00]) ++ len :: auth ++ tail)%list
    with (((fixed ++ user ++ [x00]) ++ len :: auth) ++ tail)%list
    by (rewrite <- !app_assoc; reflexivity).
  set (pre := ((fixed ++ user ++ [x00]) ++ len :: auth)%list).
  f_equal. subst tail. destruct db as [name|].
  - destruct (Nat.ltb_spec (length pre) (length (pre ++ name ++ [x00])))
      as [_|Hge]; [|rewrite !length_app in Hge; cbn [length] in Hge; lia].
    rewrite (find_from_app x00 pre name []) by assumption.
    now rewrite bslice_app.
  - rewrite app_nil_r. now rewrite Nat.ltb_irrefl.
Qed.

(** X20.  Responses without a user name.  A buffer shorter than 36
    bytes, or one that holds no NUL from offset 36 on, is reported as
    the user unknown with no database, whatever else it holds. *)
Theorem mysql_parse_auth_packet_unknown (data : list byte) :
  (length data < 36)%nat \/ ~ In x00 (skipn 36 data) ->
  MySQL.parse_auth_packet decode data = ("unknown", "")%string.
Proof.
  intros H. unfold MySQL.parse_auth_packet.
  destruct (Nat.ltb_spec (length data) 36) as [Hlt|Hge]; [reflexivity|].
  destruct H as [H|H]; [lia|].
  unfold MySQL.find_from. now rewrite index_of_none.
Qed.

End MySQLAuthPacket.

Section MySQLAuthRuns.

(** The response of the user root, with a scramble of three bytes, to the
    database shop. *)
Lemma mysql_parse_auth_packet_round_trip_witness :
  let fixed := repeat x01 36 in
  let user := list_byte_of_string "root" in
  let auth := [x0a; x0b; x0c] in
  let db := Some (list_byte_of_string "shop") in
  length fixed = 36%nat
  /\ ~ In x00 user
  /\ (length auth < 256)%nat
  /\ match db with Some name => ~ In x00 name | None => True end
  /\ MySQL.parse_auth_packet MySQL.decode_ascii
       (Spec.handshake_response fixed user auth db)
     = (MySQL.decode_ascii user,
        match db with
        | Some name => MySQL.decode_ascii name
        | None => ""%string
        end).
Proof.
  intros fixed user auth db.
  assert (H1 : length fixed = 36%nat) by reflexivity.
  assert (H2 : ~ In x00 user).
  { cbn. intros H. repeat (destruct H as [H|H]; [discriminate H|]).
    exact H. }
  assert (H3 : (length auth < 256)%nat) by (cbn; lia).
  assert (H4 : match db with
               | Some name => ~ In x00 name
               | None => True
               end).
  { cbn. intros H. repeat (destruct H as [H|H]; [discriminate H|]).
    exact H. }
  do 4 (split; [assumption|]).
  exact (mysql_parse_auth_packet_round_trip MySQL.decode_ascii fixed user
           auth db H1 H2 H3 H4).
Defined.

(** A response cut off inside the user name. *)
Lemma mysql_parse_auth_packet_unknown_witness :
  let data := (repeat x01 36 ++ list_byte_of_string "root")%list in
  ((length data < 36)%nat \/ ~ In x00 (skipn 36 data))
  /\ MySQL.parse_auth_packet MySQL.decode_ascii data
     = ("unknown", "")%string.
Proof.
  intros data.
  assert (H : (length data < 36)%nat \/ ~ In x00 (skipn 36 data)).
  { right. cbn. intros H. repeat (destruct H as [H|H]; [discriminate H|]).
    exact H. }
  split; [exact H|].
  exact (mysql_parse_auth_packet_unknown MySQL.decode_ascii data H).
Defined.

End MySQLAuthRuns.

(** * Regular expressions anchored at the end of the text *)

Section ReAnchored.

Variable ic : bool.

Lemma full_match_spec (r : Re.regex) (s : string) :
  Re.full_match ic r s = true <-> Re.matches ic r s.
Proof.
  revert r. induction s as [|x s IH]; intros r; cbn [Re.full_match].
  - apply nullable_spec.
  - rewrite <- deriv_spec.
    destruct (Re.is_void (Re.deriv ic x r)) eqn:E; [|apply IH].
    split; [discriminate|]. intros H. now apply is_void_spec in H.
Qed.

Lemma match_suffix_spec (r : Re.regex) (s : string) :
  Re.match_suffix ic r s = true
  <-> exists before hit, s = (before ++ hit)%string /\ Re.matches ic r hit.
Proof.
  induction s as [|x s IH]; cbn [Re.match_suffix].
  - rewrite orb_false_r, full_match_spec. split.
    + intros H. now exists ""%string, ""%string.
    + intros (before & hit & E & H). symmetry in E.
      apply append_eq_nil in E as [_ ->]. exact H.
  - rewrite orb_true_iff, full_match_spec, IH. split.
    + intros [H|(before & hit & -> & H)].
      * exists ""%string, (String x s). now rewrite append_nil_l.
      * exists (String x before), hit. now rewrite append_cons.
    + intros (before & hit & E & H). destruct before as [|y before].
      * rewrite append_nil_l in E. subst hit. now left.
      * rewrite append_cons in E. injection E as -> ->. right.
        now exists before, hit.
Qed.

Lemma is_code_eq (n : N) (c : ascii) :
  (n < 256)%N -> Py.is_code n c = true <-> c = ascii_of_N n.
Proof.
  intros Hn. unfold Py.is_code, Py.code. rewrite N.eqb_eq. split.
  - intros <-. now rewrite ascii_N_embedding.
  - intros ->. now apply N_ascii_embedding.
Qed.

Lemma chop_newline_app (s : string) :
  Re.chop_newline (s ++ Py.LF) = Some s.
Proof.
  induction s as [|y s IH].
  - reflexivity.
  - rewrite append_cons. cbn [Re.chop_newline].
    destruct (s ++ Py.LF)%string as [|c r] eqn:E.
    + apply append_eq_nil in E as [_ E]. discriminate E.
    + now rewrite IH.
Qed.

Lemma chop_newline_spec (s s' : string) :
  Re.chop_newline s = Some s' <-> s = (s' ++ Py.LF)%string.
Proof.
  split; [|intros ->; apply chop_newline_app].
  revert s'. induction s as [|c s IH]; intros s' H; [discriminate H|].
  cbn [Re.chop_newline] in H. destruct s as [|d s].
  - destruct (Py.is_code 10 c) eqn:Ec; [|discriminate H].
    injection H as <-. apply is_code_eq in Ec; [|reflexivity].
    subst c. reflexivity.
  - destruct (Re.chop_newline (String d s)) as [t|] eqn:Et;
      [|discriminate H].
    cbn [option_map] in H. injection H as <-.
    rewrite append_cons. f_equal. now apply IH.
Qed.

End ReAnchored.

(** [search_anchored] decides whether some part of the text is in the
    language of the pattern and ends where the anchor holds. *)
Lemma search_anchored_spec (p : Re.anchored) (s : string) :
  Re.search_anchored p s = true <-> Re.found_anchored p s.
Proof.
  unfold Re.search_anchored, Re.found_anchored.
  destruct (Re.at_end p); [|apply search_spec].
  rewrite orb_true_iff, match_suffix_spec. split.
  - intros [(before & hit & E & H)|H].
    + exists before, hit. split; [now left|exact H].
    + destruct (Re.chop_newline s) as [s'|] eqn:Ec; [|discriminate H].
      apply chop_newline_spec in Ec.
      apply match_suffix_spec in H as (before & hit & E & H).
      exists before, hit. split; [|exact H]. right.
      now rewrite Ec, E, append_assoc.
  - intros (before & hit & [E|E] & H).
    + left. now exists before, hit.
    + right. rewrite <- append_assoc in E.
      apply chop_newline_spec in E. rewrite E.
      apply match_suffix_spec. now exists before, hit.
Qed.

Lemma found_anchored_padded (p : Re.anchored) (a s : string) :
  Re.found_anchored p s -> Re.found_anchored p (a ++ s).
Proof.
  unfold Re.found_anchored, Re.found. destruct (Re.at_end p).
  - intros (before & hit & E & H). exists (a ++ before)%string, hit.
    split; [|exact H].
    destruct E as [->| ->]; [left|right]; now rewrite append_assoc.
  - intros (before & hit & after & -> & H).
    exists (a ++ before)%string, hit, after.
    split; [now rewrite append_assoc|exact H].
Qed.

Section MySQLDetection.

(** X21.  Padding in front does not hide an injection.  A query that is
    flagged stays flagged when any text is put before it. *)
Theorem mysql_detect_injection_padding (h : MySQL.MySQLHoneypot)
  (a q : string) :
  MySQL.detect_injection h q = true ->
  MySQL.detect_injection h (a ++ q) = true.
Proof.
  unfold MySQL.detect_injection. rewrite !existsb_exists.
  intros (p & Hin & Hp). exists p. split; [exact Hin|].
  apply search_anchored_spec. apply found_anchored_padded.
  now apply search_anchored_spec.
Qed.

Lemma spaces_match (ic : bool) (ws : string) :
  Py.forallb_str Py.isspace ws = true ->
  Re.matches ic (Re.Star (Re.Cls Re.CSpace)) ws.
Proof.
  induction ws as [|c ws IH]; cbn [Py.forallb_str]; intros H.
  - constructor.
  - apply andb_true_iff in H as [Hc Hws].
    change (String c ws) with (String c "" ++ ws)%string.
    constructor; [|now apply IH]. now constructor.
Qed.

(** X22.  A trailing comment is flagged.  With the patterns of the
    source, a query that ends in two dashes followed by white space only
    is flagged, whatever precedes the dashes; so is one in which a line
    feed follows. *)
Theorem mysql_trailing_comment_flagged (max_conn : Z)
  (h : MySQL.MySQLHoneypot) (a ws : string) :
  MySQL.init max_conn = Some h ->
  Py.forallb_str Py.isspace ws = true ->
  MySQL.detect_injection h (a ++ "--" ++ ws) = true
  /\ MySQL.detect_injection h (a ++ "--" ++ ws ++ Py.LF) = true.
Proof.
  intros Hinit Hws. unfold MySQL.init in Hinit.
  destruct (mapM (Re.compile_anchored true) MySQL.SQL_INJECTION_PATTERNS)
    as [ps|] eqn:E; [|discriminate Hinit].
  cbn in Hinit. injection Hinit as <-.
  vm_compute in E. injection E as <-.
  unfold MySQL.detect_injection. cbn [MySQL.injection_patterns].
  set (p := {| Re.body :=
                 {| Re.expr :=
                      Re.Cat (Re.Lit "-")
                        (Re.Cat (Re.Lit "-") (Re.Star (Re.Cls Re.CSpace)));
                    Re.ignorecase := true |};
               Re.at_end := true |}).
  assert (Hm : Re.matches true (Re.expr (Re.body p)) ("--" ++ ws)).
  { cbn [p Re.expr Re.body].
    change ("--" ++ ws)%string with ("-" ++ ("-" ++ ws))%string.
    constructor; [now constructor|].
    constructor; [now constructor|]. now apply spaces_match. }
  split; apply existsb_exists; exists p;
    (split; [cbn; tauto|]); apply search_anchored_spec;
    unfold Re.found_anchored; cbn [p Re.at_end]; exists a, ("--" ++ ws)%string;
    (split; [|exact Hm]).
  - now left.
  - right. now rewrite !append_assoc.
Qed.

(** The honeypot of the source, a comment and the padding in front. *)
Lemma mysql_detect_injection_padding_witness :
  exists h,
    MySQL.init 25 = Some h
    /\ MySQL.detect_injection h "1 OR 1=1" = true
    /\ MySQL.detect_injection h
         ("SELECT name FROM users WHERE id = " ++ "1 OR 1=1") = true.
Proof.
  destruct (MySQL.init 25) as [h|] eqn:E; [|vm_compute in E; discriminate E].
  exists h. split; [reflexivity|].
  assert (H : MySQL.detect_injection h "1 OR 1=1" = true).
  { vm_compute in E. injection E as <-. vm_compute. reflexivity. }
  split; [exact H|].
  exact (mysql_detect_injection_padding h
           "SELECT name FROM users WHERE id = " "1 OR 1=1" H).
Defined.

(** A comment that closes the statement. *)
Lemma mysql_trailing_comment_flagged_witness :
  exists h,
    MySQL.init 25 = Some h
    /\ Py.forallb_str Py.isspace " " = true
    /\ MySQL.detect_injection h ("admin'" ++ "--" ++ " ") = true
    /\ MySQL.detect_injection h ("admin'" ++ "--" ++ " " ++ Py.LF) = true.
Proof.
  destruct (MySQL.init 25) as [h|] eqn:E; [|vm_compute in E; discriminate E].
  exists h. split; [reflexivity|].
  assert (H : Py.forallb_str Py.isspace " " = true) by reflexivity.
  split; [exact H|].
  exact (mysql_trailing_comment_flagged 25 h "admin'" " " E H).
Defined.

End MySQLDetection.

Section MySQLSessions.

Local Open Scope Z_scope.

Variable decode : list byte -> string.
Variable c : MySQL.peer.

(** What the query loop leaves behind: one event, one log line and one
    response for each non-empty query read, and the two counters moved
    by as much. *)
Lemma handle_queries_trace (reads : list MySQL.read_result) (w : MySQL.world) :
  let r := MySQL.handle_queries decode c w reads in
  exists qs,
    MySQL.events (MySQL.hp (fst r)) = (MySQL.events (MySQL.hp w) ++ qs)%list
    /\ MySQL.sent (fst r) = (MySQL.sent w ++ map Spec.answer qs)%list
    /\ Forall (fun ev =>
                 exists q,
                   Py.nonempty q = true
                   /\ ev = MySQL.query_event c q
                             (MySQL.detect_injection (MySQL.hp w) q)) qs
    /\ MySQL.total_queries (MySQL.hp (fst r))
       = MySQL.total_queries (MySQL.hp w) + Z.of_nat (length qs)
    /\ MySQL.injections_detected (MySQL.hp (fst r))
       = MySQL.injections_detected (MySQL.hp w) + Z.of_nat (Spec.flagged qs)
    /\ MySQL.max_connections (MySQL.hp (fst r))
       = MySQL.max_connections (MySQL.hp w)
    /\ MySQL.active_connections (MySQL.hp (fst r))
       = MySQL.active_connections (MySQL.hp w)
    /\ MySQL.connection_id (MySQL.hp (fst r))
       = MySQL.connection_id (MySQL.hp w)
    /\ MySQL.total_connections (MySQL.hp (fst r))
       = MySQL.total_connections (MySQL.hp w)
    /\ MySQL.injection_patterns (MySQL.hp (fst r))
       = MySQL.injection_patterns (MySQL.hp w).
Proof.
  revert w. induction reads as [|rd reads IH]; intros w r.
  - exists []. subst r. cbn. rewrite !app_nil_r.
    repeat split; first [lia | now constructor].
  - subst r. cbn [MySQL.handle_queries].
    assert (Hstop : exists qs : list MySQL.DBEvent,
      MySQL.events (MySQL.hp w) = (MySQL.events (MySQL.hp w) ++ qs)%list
      /\ MySQL.sent w = (MySQL.sent w ++ map Spec.answer qs)%list
      /\ Forall (fun ev =>
                   exists q,
                     Py.nonempty q = true
                     /\ ev = MySQL.query_event c q
                               (MySQL.detect_injection (MySQL.hp w) q)) qs
      /\ MySQL.total_queries (MySQL.hp w)
         = MySQL.total_queries (MySQL.hp w) + Z.of_nat (length qs)
      /\ MySQL.injections_detected (MySQL.hp w)
         = MySQL.injections_detected (MySQL.hp w)
           + Z.of_nat (Spec.flagged qs)
      /\ MySQL.max_connections (MySQL.hp w)
         = MySQL.max_connections (MySQL.hp w)
      /\ MySQL.active_connections (MySQL.hp w)
         = MySQL.active_connections (MySQL.hp w)
      /\ MySQL.connection_id (MySQL.hp w) = MySQL.connection_id (MySQL.hp w)
      /\ MySQL.total_connections (MySQL.hp w)
         = MySQL.total_connections (MySQL.hp w)
      /\ MySQL.injection_patterns (MySQL.hp w)
         = MySQL.injection_patterns (MySQL.hp w)).
    { exists []. cbn. rewrite !app_nil_r.
      repeat split; first [lia | now constructor]. }
    destruct rd as [data flushed| | |]; try exact Hstop.
    destruct data as [|b data]; [exact Hstop|].
    destruct (MySQL.parse_query_packet decode (b :: data)) as [q|];
      [|apply IH].
    destruct (Py.nonempty q) eqn:Eq; [|apply IH].
    cbv zeta. cbn [MySQL.hp MySQL.set_hp].
    set (attack := MySQL.detect_injection (MySQL.count_query (MySQL.hp w)) q).
    assert (Ha : attack = MySQL.detect_injection (MySQL.hp w) q)
      by reflexivity.
    clearbody attack. set (w1 := MySQL.write _ _).
    assert (H1 :
      MySQL.events (MySQL.hp w1)
      = (MySQL.events (MySQL.hp w) ++ [MySQL.query_event c q attack])%list
      /\ MySQL.sent w1
         = (MySQL.sent w ++ [MySQL.build_query_response q])%list
      /\ MySQL.total_queries (MySQL.hp w1)
         = MySQL.total_queries (MySQL.hp w) + 1
      /\ MySQL.injections_detected (MySQL.hp w1)
         = MySQL.injections_detected (MySQL.hp w)
           + (if attack then 1 else 0)
      /\ MySQL.max_connections (MySQL.hp w1)
         = MySQL.max_connections (MySQL.hp w)
      /\ MySQL.active_connections (MySQL.hp w1)
         = MySQL.active_connections (MySQL.hp w)
      /\ MySQL.connection_id (MySQL.hp w1)
         = MySQL.connection_id (MySQL.hp w)
      /\ MySQL.total_connections (MySQL.hp w1)
         = MySQL.total_connections (MySQL.hp w)
      /\ MySQL.injection_patterns (MySQL.hp w1)
         = MySQL.injection_patterns (MySQL.hp w)).
    { subst w1.
      destruct attack; cbn; repeat split; first [reflexivity | lia]. }
    destruct H1 as (E1 & E2 & E3 & E4 & E5 & E6 & E7 & E8 & E9).
    assert (Hone :
      Spec.flagged [MySQL.query_event c q attack]
      = (if attack then 1 else 0)%nat).
    { unfold Spec.flagged. cbn. now destruct attack. }
    assert (Hev : exists q0,
      Py.nonempty q0 = true
      /\ MySQL.query_event c q attack
         = MySQL.query_event c q0 (MySQL.detect_injection (MySQL.hp w) q0)).
    { exists q. split; [exact Eq|]. now rewrite Ha. }
    destruct flushed.
    + destruct (IH w1) as (qs & I1 & I2 & I3 & I4 & I5 & I6 & I7 & I8 & I9
                           & I10).
      exists (MySQL.query_event c q attack :: qs).
      rewrite I1, I2, I4, I5, I6, I7, I8, I9, I10.
      rewrite E1, E2, E3, E4, E5, E6, E7, E8, E9.
      rewrite <- !app_assoc. cbn [app map length].
      unfold Spec.flagged in *. cbn [List.filter MySQL.is_injection
        MySQL.query_event].
      repeat split; try reflexivity.
      * constructor; [exact Hev|].
        eapply Forall_impl; [exact I3|]. cbn beta.
        intros ev (q0 & Hq0 & ->). exists q0. split; [exact Hq0|].
        unfold MySQL.detect_injection. now rewrite E9.
      * lia.
      * destruct attack; cbn [length]; lia.
    + exists [MySQL.query_event c q attack]. cbn [fst].
      rewrite E1, E2, E3, E4, E5, E6, E7, E8, E9, Hone. cbn [map length].
      repeat split; try reflexivity.
      * constructor; [exact Hev|constructor].
      * destruct attack; lia.
Qed.

(** The dialog of a connection: the greeting, then at most one
    authentication event, then the queries. *)
Lemma converse_trace (reads : list MySQL.read_result) (w : MySQL.world) :
  let r := MySQL.converse decode c w reads in
  exists auths qs,
    MySQL.events (MySQL.hp (fst r))
    = (MySQL.events (MySQL.hp w) ++ auths ++ qs)%list
    /\ MySQL.sent (fst r)
       = (MySQL.sent w
          ++ fst (MySQL.build_greeting_packet
                    (MySQL.connection_id (MySQL.hp w)) (MySQL.rng w))
          :: map Spec.answer (auths ++ qs))%list
    /\ (auths = [] /\ qs = []
        \/ exists data flushed,
             MySQL.auth c = MySQL.Recv data flushed
             /\ data <> []
             /\ auths
                = [MySQL.auth_event c
                     (fst (MySQL.parse_auth_packet decode data))
                     (snd (MySQL.parse_auth_packet decode data))])
    /\ Forall (fun ev =>
                 exists q,
                   Py.nonempty q = true
                   /\ ev = MySQL.query_event c q
                             (MySQL.detect_injection (MySQL.hp w) q)) qs
    /\ MySQL.total_queries (MySQL.hp (fst r))
       = MySQL.total_queries (MySQL.hp w) + Z.of_nat (length qs)
    /\ MySQL.injections_detected (MySQL.hp (fst r))
       = MySQL.injections_detected (MySQL.hp w) + Z.of_nat (Spec.flagged qs)
    /\ MySQL.max_connections (MySQL.hp (fst r))
       = MySQL.max_connections (MySQL.hp w)
    /\ MySQL.active_connections (MySQL.hp (fst r))
       = MySQL.active_connections (MySQL.hp w)
    /\ MySQL.connection_id (MySQL.hp (fst r))
       = MySQL.connection_id (MySQL.hp w)
    /\ MySQL.total_connections (MySQL.hp (fst r))
       = MySQL.total_connections (MySQL.hp w)
    /\ MySQL.injection_patterns (MySQL.hp (fst r))
       = MySQL.injection_patterns (MySQL.hp w).
Proof.
  intros r. subst r. unfold MySQL.converse.
  destruct (MySQL.build_greeting_packet (MySQL.connection_id (MySQL.hp w))
              (MySQL.rng w)) as [greeting e'] eqn:Eg.
  cbn [fst].
  assert (Hnone : forall how,
    let r := (MySQL.write {| MySQL.hp := MySQL.hp w; MySQL.rng := e';
                             MySQL.sent := MySQL.sent w;
                             MySQL.logged := MySQL.logged w |} greeting,
              how : MySQL.exit) in
    exists auths qs,
      MySQL.events (MySQL.hp (fst r))
      = (MySQL.events (MySQL.hp w) ++ auths ++ qs)%list
      /\ MySQL.sent (fst r)
         = (MySQL.sent w ++ greeting :: map Spec.answer (auths ++ qs))%list
      /\ (auths = [] /\ qs = []
          \/ exists data flushed,
               MySQL.auth c = MySQL.Recv data flushed
               /\ data <> []
               /\ auths
                  = [MySQL.auth_event c
                       (fst (MySQL.parse_auth_packet decode data))
                       (snd (MySQL.parse_auth_packet decode data))])
      /\ Forall (fun ev =>
                   exists q,
                     Py.nonempty q = true
                     /\ ev = MySQL.query_event c q
                               (MySQL.detect_injection (MySQL.hp w) q)) qs
      /\ MySQL.total_queries (MySQL.hp (fst r))
         = MySQL.total_queries (MySQL.hp w) + Z.of_nat (length qs)
      /\ MySQL.injections_detected (MySQL.hp (fst r))
         = MySQL.injections_detected (MySQL.hp w)
           + Z.of_nat (Spec.flagged qs)
      /\ MySQL.max_connections (MySQL.hp (fst r))
         = MySQL.max_connections (MySQL.hp w)
      /\ MySQL.active_connections (MySQL.hp (fst r))
         = MySQL.active_connections (MySQL.hp w)
      /\ MySQL.connection_id (MySQL.hp (fst r))
         = MySQL.connection_id (MySQL.hp w)
      /\ MySQL.total_connections (MySQL.hp (fst r))
         = MySQL.total_connections (MySQL.hp w)
      /\ MySQL.injection_patterns (MySQL.hp (fst r))
         = MySQL.injection_patterns (MySQL.hp w)).
  { intros how r. exists [], []. subst r. cbn. rewrite !app_nil_r.
    repeat split; first [reflexivity | lia | now constructor | now left]. }
  destruct (MySQL.greeting_flushed c); cbn [negb]; [|apply Hnone].
  destruct (MySQL.auth c) as [data flushed| | |] eqn:Ea; try apply Hnone.
  destruct data as [|b data]; [apply Hnone|].
  destruct (MySQL.parse_auth_packet decode (b :: data)) as [user db] eqn:Ep.
  set (ev := MySQL.auth_event c user db).
  set (w1 := MySQL.write _ MySQL.build_ok_packet).
  assert (Hshape : exists data0 flushed0,
    MySQL.Recv (b :: data) flushed = MySQL.Recv data0 flushed0
    /\ data0 <> []
    /\ [ev] = [MySQL.auth_event c
                 (fst (MySQL.parse_auth_packet decode data0))
                 (snd (MySQL.parse_auth_packet decode data0))]).
  { exists (b :: data), flushed. rewrite Ep.
    split; [reflexivity|]. split; [discriminate|reflexivity]. }
  destruct flushed.
  - destruct (handle_queries_trace reads w1)
      as (qs & I1 & I2 & I3 & I4 & I5 & I6 & I7 & I8 & I9 & I10).
    exists [ev], qs. rewrite I1, I2, I4, I5, I6, I7, I8, I9, I10.
    subst w1. cbn [MySQL.write MySQL.set_hp MySQL.log MySQL.hp MySQL.sent
      MySQL.record_event MySQL.events MySQL.total_queries
      MySQL.injections_detected MySQL.max_connections
      MySQL.active_connections MySQL.connection_id MySQL.total_connections
      MySQL.injection_patterns].
    rewrite <- !app_assoc. cbn [app map].
    repeat split; try reflexivity.
    + right. exact Hshape.
    + exact I3.
  - exists [ev], []. cbn [fst]. subst w1.
    cbn [MySQL.write MySQL.set_hp MySQL.log MySQL.hp MySQL.sent
      MySQL.record_event MySQL.events MySQL.total_queries
      MySQL.injections_detected MySQL.max_connections
      MySQL.active_connections MySQL.connection_id MySQL.total_connections
      MySQL.injection_patterns].
    rewrite <- !app_assoc. cbn [app map length Spec.flagged List.filter].
    repeat split;
      first [reflexivity | lia | right; exact Hshape | now constructor].
Qed.

(** X23.  One connection after the other.  A connection is served when
    the honeypot is below its cap, and is closed in every case; the
    number of active connections is the same after it as before.  A
    refused connection leaves nothing behind.  A served one counts as
    one connection and draws the next connection id, which its greeting
    carries; after the greeting, every event recorded was answered by
    exactly one buffer, in order: the authentication, if a packet came,
    by an OK packet, and each non-empty query by its response.  The
    query counter moves by the number of query events and the injection
    counter by the number of those that are flagged.  The connection id
    is in the range in which the next one fits the 32 bits of the
    greeting. *)
Theorem mysql_session_accounting (h : MySQL.MySQLHoneypot)
  (e : MySQL.entropy) (reads : list MySQL.read_result) :
  0 <= MySQL.connection_id h < 4294967295 ->
  let o := MySQL.handle_connection decode h e c reads in
  let h' := MySQL.hp (MySQL.final o) in
  MySQL.closed o = true
  /\ MySQL.accepted o
     = (MySQL.active_connections h <? MySQL.max_connections h)
  /\ MySQL.active_connections h' = MySQL.active_connections h
  /\ (MySQL.accepted o = false ->
      MySQL.final o = {| MySQL.hp := h; MySQL.rng := e;
                         MySQL.sent := []; MySQL.logged := [] |})
  /\ (MySQL.accepted o = true ->
      MySQL.total_connections h' = MySQL.total_connections h + 1
      /\ MySQL.connection_id h' = MySQL.connection_id h + 1
      /\ exists auths qs,
           MySQL.events h' = (MySQL.events h ++ auths ++ qs)%list
           /\ MySQL.sent (MySQL.final o)
              = fst (MySQL.build_greeting_packet
                       (MySQL.connection_id h + 1) e)
                :: map Spec.answer (auths ++ qs)
           /\ (auths = [] /\ qs = []
               \/ exists data flushed,
                    MySQL.auth c = MySQL.Recv data flushed
                    /\ data <> []
                    /\ auths
                       = [MySQL.auth_event c
                            (fst (MySQL.parse_auth_packet decode data))
                            (snd (MySQL.parse_auth_packet decode data))])
           /\ Forall (fun ev =>
                        exists q,
                          Py.nonempty q = true
                          /\ ev = MySQL.query_event c q
                                    (MySQL.detect_injection h q)) qs
           /\ MySQL.total_queries h'
              = MySQL.total_queries h + Z.of_nat (length qs)
           /\ MySQL.injections_detected h'
              = MySQL.injections_detected h + Z.of_nat (Spec.flagged qs)).
Proof.
  intros _ o h'. subst h' o. unfold MySQL.handle_connection.
  destruct (Z.leb_spec (MySQL.max_connections h) (MySQL.active_connections h))
    as [Hcap|Hfree].
  - cbn. repeat split; try discriminate.
    symmetry. apply Z.ltb_ge. exact Hcap.
  - set (w0 := MySQL.log _ _).
    destruct (converse_trace reads w0)
      as (auths & qs & I1 & I2 & I3 & I4 & I5 & I6 & I7 & I8 & I9 & I10
          & _).
    destruct (MySQL.converse decode c w0 reads) as [w how].
    cbn [fst] in I1, I2, I5, I6, I7, I8, I9, I10.
    assert (Hhp : forall w' : MySQL.world,
      MySQL.hp w' = MySQL.hp w -> MySQL.sent w' = MySQL.sent w ->
      let f := MySQL.set_hp w'
                 (MySQL.set_active (MySQL.hp w')
                    (MySQL.active_connections (MySQL.hp w') - 1)) in
      MySQL.active_connections (MySQL.hp f) = MySQL.active_connections h
      /\ MySQL.total_connections (MySQL.hp f) = MySQL.total_connections h + 1
      /\ MySQL.connection_id (MySQL.hp f) = MySQL.connection_id h + 1
      /\ MySQL.events (MySQL.hp f) = (MySQL.events h ++ auths ++ qs)%list
      /\ MySQL.sent f
         = fst (MySQL.build_greeting_packet (MySQL.connection_id h + 1) e)
           :: map Spec.answer (auths ++ qs)
      /\ MySQL.total_queries (MySQL.hp f)
         = MySQL.total_queries h + Z.of_nat (length qs)
      /\ MySQL.injections_detected (MySQL.hp f)
         = MySQL.injections_detected h + Z.of_nat (Spec.flagged qs)).
    { intros w' Eh Es f. subst f.
      cbn [MySQL.set_hp MySQL.hp MySQL.sent MySQL.set_active
           MySQL.active_connections MySQL.total_connections
           MySQL.connection_id MySQL.events MySQL.total_queries
           MySQL.injections_detected].
      rewrite Eh, Es, I1, I2, I5, I6, I8, I9, I10. subst w0. cbn.
      repeat split; first [reflexivity | lia]. }
    assert (Hfinal :
      let w' := match how with
                | MySQL.Normal | MySQL.Raised TimeoutError => w
                | MySQL.Raised e0 => MySQL.log w (MySQL.Error e0)
                end in
      MySQL.hp w' = MySQL.hp w /\ MySQL.sent w' = MySQL.sent w).
    { destruct how as [|[]]; now split. }
    destruct Hfinal as [Eh Es].
    destruct (Hhp _ Eh Es) as (F1 & F2 & F3 & F4 & F5 & F6 & F7).
    cbn [MySQL.closed MySQL.accepted MySQL.final].
    split; [reflexivity|]. split; [symmetry; apply Z.ltb_lt; exact Hfree|].
    split; [exact F1|]. split; [discriminate|]. intros _.
    split; [exact F2|]. split; [exact F3|].
    exists auths, qs. repeat split; try assumption.
Qed.

End MySQLSessions.

Section MySQLRuns.

Local Open Scope Z_scope.

Variable decode : list byte -> string.

Lemma flagged_app (a b : list MySQL.DBEvent) :
  Spec.flagged (a ++ b) = (Spec.flagged a + Spec.flagged b)%nat.
Proof. unfold Spec.flagged. now rewrite List.filter_app, length_app. Qed.

Lemma queries_app (a b : list MySQL.DBEvent) :
  Spec.queries (a ++ b) = (Spec.queries a + Spec.queries b)%nat.
Proof. unfold Spec.queries. now rewrite List.filter_app, length_app. Qed.

Lemma queries_all (c : MySQL.peer) (h : MySQL.MySQLHoneypot)
  (qs : list MySQL.DBEvent) :
  Forall (fun ev =>
            exists q,
              Py.nonempty q = true
              /\ ev = MySQL.query_event c q (MySQL.detect_injection h q)) qs ->
  Spec.queries qs = length qs.
Proof.
  unfold Spec.queries. induction 1 as [|ev qs (q & _ & ->) _ IH];
    [reflexivity|].
  cbn [List.filter MySQL.query_event MySQL.event_type]. cbn. now rewrite IH.
Qed.

(** One connection keeps the counters in agreement with the events. *)
Lemma step_consistent (h0 h : MySQL.MySQLHoneypot) (e : MySQL.entropy)
  (c : MySQL.peer) (reads : list MySQL.read_result) :
  Spec.mysql_consistent h0 h ->
  let h' := MySQL.hp (MySQL.final (MySQL.handle_connection decode h e c
                                     reads)) in
  Spec.mysql_consistent h0 h'
  /\ MySQL.connection_id h <= MySQL.connection_id h'
     <= MySQL.connection_id h + 1.
Proof.
  intros (C1 & C2 & C3 & C4 & C5 & C6) h'. subst h'.
  unfold MySQL.handle_connection.
  destruct (MySQL.max_connections h <=? MySQL.active_connections h).
  - cbn [MySQL.final MySQL.hp]. split; [|lia].
    repeat split; assumption.
  - set (w0 := MySQL.log _ _).
    destruct (converse_trace decode c reads w0)
      as (auths & qs & I1 & _ & I3 & I4 & I5 & I6 & _ & I8 & I9 & I10 & I11).
    destruct (MySQL.converse decode c w0 reads) as [w how].
    cbn [fst] in I1, I5, I6, I8, I9, I10, I11.
    assert (Eh :
      MySQL.hp match how with
               | MySQL.Normal | MySQL.Raised TimeoutError => w
               | MySQL.Raised e0 => MySQL.log w (MySQL.Error e0)
               end = MySQL.hp w) by now destruct how as [|[]].
    cbn [MySQL.final MySQL.set_hp MySQL.hp]. rewrite Eh. clear Eh.
    subst w0.
    cbn [MySQL.log MySQL.set_hp MySQL.hp MySQL.count_connection
         MySQL.events MySQL.total_queries MySQL.injections_detected
         MySQL.active_connections MySQL.connection_id
         MySQL.total_connections MySQL.injection_patterns] in *.
    assert (Hq : Spec.queries qs = length qs) by exact (queries_all _ _ _ I4).
    assert (Ha : Spec.queries auths = 0%nat /\ Spec.flagged auths = 0%nat
                 /\ Forall (fun ev =>
                              MySQL.is_injection ev
                              = String.eqb (MySQL.event_type ev) "sql_query"
                                && MySQL.detect_injection h0 (MySQL.query ev))
                      auths).
    { destruct I3 as [[-> _]|(data & fl & _ & _ & ->)].
      - repeat split. constructor.
      - repeat split. constructor; [reflexivity|constructor]. }
    destruct Ha as (Ha1 & Ha2 & Ha3).
    unfold Spec.mysql_consistent.
    cbn [MySQL.set_active MySQL.active_connections MySQL.total_connections
         MySQL.connection_id MySQL.total_queries MySQL.injections_detected
         MySQL.injection_patterns MySQL.events].
    rewrite I1, I5, I6, I8, I9, I10, I11.
    rewrite !queries_app, !flagged_app, Ha1, Ha2, Hq.
    split; [|lia].
    split; [lia|]. split; [lia|]. split; [lia|]. split; [lia|].
    split; [exact C5|].
    apply Forall_app. split; [exact C6|].
    apply Forall_app. split; [exact Ha3|].
    eapply Forall_impl; [exact I4|]. cbn beta.
    intros ev (q & _ & ->).
    cbn [MySQL.query_event MySQL.is_injection MySQL.event_type MySQL.query].
    unfold MySQL.detect_injection.
    cbn [MySQL.count_connection MySQL.injection_patterns].
    now rewrite C5.
Qed.

(** X24.  The counters of the MySQL honeypot.  After fewer than 2^32
    connections handled one after the other by a fresh honeypot, no
    connection is counted as active, the connections counted are the
    connection ids drawn and at most the connections received,
    total_queries is the number of query events and injections_detected
    the number of flagged events; an event is flagged exactly when it is
    a query that one of the patterns matches. *)
Theorem mysql_counters_consistent (max_conn : Z) (h0 : MySQL.MySQLHoneypot)
  (e : MySQL.entropy)
  (conns : list (MySQL.peer * list MySQL.read_result)) :
  MySQL.init max_conn = Some h0 ->
  Z.of_nat (length conns) < 4294967296 ->
  let h := fst (Spec.mysql_run decode h0 e conns) in
  MySQL.get_metrics h
  = [("total_connections", MySQL.connection_id h);
     ("active_connections", 0);
     ("total_queries", Z.of_nat (Spec.queries (MySQL.events h)));
     ("injections_detected", Z.of_nat (Spec.flagged (MySQL.events h)))]
  /\ 0 <= MySQL.connection_id h <= Z.of_nat (length conns)
  /\ (Spec.flagged (MySQL.events h) <= Spec.queries (MySQL.events h)
      <= length (MySQL.events h))%nat
  /\ Forall (fun ev =>
               MySQL.is_injection ev
               = String.eqb (MySQL.event_type ev) "sql_query"
                 && MySQL.detect_injection h0 (MySQL.query ev))
       (MySQL.events h).
Proof.
  intros Hinit _ h.
  assert (H0 : Spec.mysql_consistent h0 h0 /\ MySQL.connection_id h0 = 0).
  { unfold MySQL.init in Hinit.
    destruct (mapM _ MySQL.SQL_INJECTION_PATTERNS) as [ps|];
      [|discriminate Hinit].
    cbn in Hinit. injection Hinit as <-.
    split; [|reflexivity]. repeat split. constructor. }
  destruct H0 as [H0 Hid0].
  assert (Inv : forall conns h1 e1,
    Spec.mysql_consistent h0 h1 ->
    let h2 := fst (Spec.mysql_run decode h1 e1 conns) in
    Spec.mysql_consistent h0 h2
    /\ MySQL.connection_id h1 <= MySQL.connection_id h2
       <= MySQL.connection_id h1 + Z.of_nat (length conns)).
  { clear. unfold Spec.mysql_run.
    induction conns as [|[c reads] conns IH]; intros h1 e1 H1.
    - cbn. split; [exact H1|lia].
    - cbn [fold_left fst snd length].
      destruct (step_consistent h0 h1 e1 c reads H1) as [H2 Hid].
      destruct (IH _ (MySQL.rng (MySQL.final
                        (MySQL.handle_connection decode h1 e1 c reads))) H2)
        as [H3 Hid3].
      split; [exact H3|]. lia. }
  destruct (Inv conns h0 e H0) as [(C1 & C2 & C3 & C4 & C5 & C6) Hid].
  fold h in C1, C2, C3, C4, C5, C6, Hid.
  unfold MySQL.get_metrics. rewrite C1, C2, C3, C4.
  split; [reflexivity|]. split; [lia|]. split; [|exact C6].
  unfold Spec.queries, Spec.flagged. split; [|apply List.filter_length_le].
  clear -C6. induction C6 as [|ev evs Hev _ IH]; [reflexivity|].
  cbn [List.filter]. rewrite Hev.
  destruct (String.eqb (MySQL.event_type ev) "sql_query");
    cbn [andb]; [|exact IH].
  destruct (MySQL.detect_injection h0 (MySQL.query ev)); cbn [length]; lia.
Qed.

End MySQLRuns.

(** ** The MySQL honeypot on a concrete session *)

Section MySQLSessionRuns.

Local Open Scope Z_scope.

(** A client that logs in as root and sends a harmless query and an
    injection. *)
Lemma mysql_session_accounting_witness :
  exists h,
    MySQL.init 25 = Some h
    /\ let c := {| MySQL.client_ip := "203.0.113.9";
                   MySQL.client_port := 51000;
                   MySQL.session := "0123456789abcdef";
                   MySQL.greeting_flushed := true;
                   MySQL.auth :=
                     MySQL.Recv
                       (Spec.handshake_response (repeat x01 36)
                          (list_byte_of_string "root") [x0a; x0b; x0c]
                          (Some (list_byte_of_string "shop")))
                       true |} in
       let reads := [MySQL.Recv (MySQL.com_query 0 "SELECT 1") true;
                     MySQL.Recv (MySQL.com_query 0 "x' OR 1=1 --") true;
                     MySQL.Eof] in
       let e : MySQL.entropy := fun _ => x2a in
       0 <= MySQL.connection_id h < 4294967295
       /\ let o := MySQL.handle_connection MySQL.decode_ascii h e c reads in
          let h' := MySQL.hp (MySQL.final o) in
          MySQL.closed o = true
          /\ MySQL.accepted o
             = (MySQL.active_connections h <? MySQL.max_connections h)
          /\ MySQL.active_connections h' = MySQL.active_connections h
          /\ (MySQL.accepted o = false ->
              MySQL.final o = {| MySQL.hp := h; MySQL.rng := e;
                                 MySQL.sent := []; MySQL.logged := [] |})
          /\ (MySQL.accepted o = true ->
              MySQL.total_connections h' = MySQL.total_connections h + 1
              /\ MySQL.connection_id h' = MySQL.connection_id h + 1
              /\ exists auths qs,
                   MySQL.events h' = (MySQL.events h ++ auths ++ qs)%list
                   /\ MySQL.sent (MySQL.final o)
                      = fst (MySQL.build_greeting_packet
                               (MySQL.connection_id h + 1) e)
                        :: map Spec.answer (auths ++ qs)
                   /\ (auths = [] /\ qs = []
                       \/ exists data flushed,
                            MySQL.auth c = MySQL.Recv data flushed
                            /\ data <> []
                            /\ auths
                               = [MySQL.auth_event c
                                    (fst (MySQL.parse_auth_packet
                                            MySQL.decode_ascii data))
                                    (snd (MySQL.parse_auth_packet
                                            MySQL.decode_ascii data))])
                   /\ Forall (fun ev =>
                                exists q,
                                  Py.nonempty q = true
                                  /\ ev = MySQL.query_event c q
                                            (MySQL.detect_injection h q)) qs
                   /\ MySQL.total_queries h'
                      = MySQL.total_queries h + Z.of_nat (length qs)
                   /\ MySQL.injections_detected h'
                      = MySQL.injections_detected h
                        + Z.of_nat (Spec.flagged qs)).
Proof.
  destruct (MySQL.init 25) as [h|] eqn:E; [|vm_compute in E; discriminate E].
  exists h. split; [reflexivity|]. intros c reads e.
  assert (H : 0 <= MySQL.connection_id h < 4294967295).
  { unfold MySQL.init in E.
    destruct (mapM _ MySQL.SQL_INJECTION_PATTERNS) as [ps|];
      [|discriminate E].
    cbn in E. injection E as <-. cbn. lia. }
  split; [exact H|].
  exact (mysql_session_accounting MySQL.decode_ascii c h e reads H).
Defined.

(** Two connections to the honeypot of the source. *)
Lemma mysql_counters_consistent_witness :
  exists h0,
    MySQL.init 25 = Some h0
    /\ let c := {| MySQL.client_ip := "203.0.113.9";
                   MySQL.client_port := 51000;
                   MySQL.session := "0123456789abcdef";
                   MySQL.greeting_flushed := true;
                   MySQL.auth :=
                     MySQL.Recv
                       (Spec.handshake_response (repeat x01 36)
                          (list_byte_of_string "root") [x0a; x0b; x0c]
                          None)
                       true |} in
       let conns :=
         [(c, [MySQL.Recv (MySQL.com_query 0 "SELECT 1") true]);
          (c, [MySQL.Recv (MySQL.com_query 0 "x' OR 1=1 --") true;
               MySQL.Reset])] in
       let e : MySQL.entropy := fun _ => x2a in
       Z.of_nat (length conns) < 4294967296
       /\ let h := fst (Spec.mysql_run MySQL.decode_ascii h0 e conns) in
          MySQL.get_metrics h
          = [("total_connections", MySQL.connection_id h);
             ("active_connections", 0);
             ("total_queries", Z.of_nat (Spec.queries (MySQL.events h)));
             ("injections_detected",
              Z.of_nat (Spec.flagged (MySQL.events h)))]
          /\ 0 <= MySQL.connection_id h <= Z.of_nat (length conns)
          /\ (Spec.flagged (MySQL.events h) <= Spec.queries (MySQL.events h)
              <= length (MySQL.events h))%nat
          /\ Forall (fun ev =>
                       MySQL.is_injection ev
                       = String.eqb (MySQL.event_type ev) "sql_query"
                         && MySQL.detect_injection h0 (MySQL.query ev))
               (MySQL.events h).
Proof.
  destruct (MySQL.init 25) as [h0|] eqn:E; [|vm_compute in E; discriminate E].
  exists h0. split; [reflexivity|]. intros c conns e.
  assert (H : Z.of_nat (length conns) < 4294967296) by (cbn; lia).
  split; [exact H|].
  exact (mysql_counters_consistent MySQL.decode_ascii 25 h0 e conns E H).
Defined.

End MySQLSessionRuns.

(** * Decoy API: form bodies *)

Section APIForms.

Lemma str_drop_app (a b : string) :
  Py.drop (String.length a) (a ++ b) = b.
Proof.
  induction a as [|c a IH]; [now rewrite append_nil_l|].
  rewrite append_cons. exact IH.
Qed.

(** Splitting once at a character that the text before it does not
    hold. *)
Lemma split_once_char (c0 : ascii) (k v : string) :
  Py.contains k (String c0 "") = false ->
  Py.split_once (String c0 "") (k ++ String c0 v) = Some (k, v).
Proof.
  intros Hk. unfold Py.split_once. rewrite find_char_first by assumption.
  unfold Py.take. rewrite substring_prefix. f_equal. f_equal.
  change (String c0 v) with (String c0 "" ++ v)%string.
  rewrite <- append_assoc.
  replace (String.length k + String.length (String c0 ""))%nat
    with (String.length (k ++ String c0 "")).
  - apply str_drop_app.
  - clear. induction k as [|c k IH]; [reflexivity|].
    rewrite append_cons. cbn [String.length]. now rewrite IH.
Qed.



(** X27.  Form bodies.  From a body made of fields k=v joined by an
    ampersand, where no key holds an ampersand or an equals sign and no
    value an ampersand, the form parser builds the dictionary that
    assigning the fields in order gives: a value may hold equals signs,
    and of two fields with the same key the later one stays. *)
Theorem api_parse_form_fields (fields : list (string * string)) :
  Forall (fun kv => Py.contains (fst kv) "&" = false
                    /\ Py.contains (fst kv) "=" = false
                    /\ Py.contains (snd kv) "&" = false) fields ->
  API.parse_form (Spec.form_body fields) = Spec.assigned fields.
Proof.
  intros Hall. unfold API.parse_form, Spec.form_body, Spec.assigned.
  destruct fields as [|kv fields]; [reflexivity|].
  rewrite (split_join_char "&"); [|discriminate|].
  - generalize (@nil (string * pyval)).
    induction Hall as [|[k v] more (_ & Hk & _) _ IH]; intros d;
      [reflexivity|].
    cbn [map fold_left fst snd].
    change ("=" ++ v)%string with (String "=" v).
    rewrite split_once_char by assumption. apply IH.
  - apply Forall_map. eapply Forall_impl; [exact Hall|].
    intros [k v] (Hk & _ & Hv). cbn [fst snd] in *.
    rewrite !contains_char_app, Hk, Hv. reflexivity.
Qed.

(** A login form in which the user name comes twice and the password
    holds an equals sign. *)
Lemma api_parse_form_fields_witness :
  let fields := [("username", "admin"); ("password", "a=b");
                 ("username", "root")]%string in
  Forall (fun kv => Py.contains (fst kv) "&" = false
                    /\ Py.contains (fst kv) "=" = false
                    /\ Py.contains (snd kv) "&" = false) fields
  /\ API.parse_form (Spec.form_body fields) = Spec.assigned fields.
Proof.
  intros fields.
  assert (H : Forall (fun kv => Py.contains (fst kv) "&" = false
                                /\ Py.contains (fst kv) "=" = false
                                /\ Py.contains (snd kv) "&" = false) fields).
  { repeat constructor. }
  split; [exact H|].
  exact (api_parse_form_fields fields H).
Defined.

End APIForms.

(* ===================================================================== *)
(** * Decoy API: product lookup, login, search *)
(* ===================================================================== *)

Section APIFacts.

Local Open Scope Z_scope.

Variable urlparse_path : string -> option string.
Variable json_loads : string -> option pyval.
Variable int_of_str : string -> option Z.
Variable decode : list byte -> option string.






Lemma startswith_nonempty (s p : string) :
  Py.startswith s p = true -> Py.nonempty p = true -> Py.nonempty s = true.
Proof.
  unfold Py.startswith. destruct p as [|a p]; [discriminate|].
  destruct s; [discriminate|reflexivity].
Qed.







End APIFacts.

(** ** The decoy API on concrete requests *)

Section APIRuns.

Local Open Scope Z_scope.






End APIRuns.

(* ===================================================================== *)
(** * Decoy API: the replies to GET and POST *)
(* ===================================================================== *)

Section APIReplies.

Local Open Scope Z_scope.

Variable urlparse_path : string -> option string.
Variable json_loads : string -> option pyval.
Variable int_of_str : string -> option Z.
Variable decode : list byte -> option string.




(** X26.  The replies to a GET.  The status is 200, 400 or 404, and 400
    only under /api/products/.  The suspicious_access warning is logged
    for the path /api/config, which is answered 200 with the decoy
    configuration, and for no other path; the request line is logged
    after it.  The only exception that leaves the handler is that of the
    URL parser. *)
Theorem api_get_replies (r : API.request) :
  match urlparse_path (API.target r) with
  | None => API.do_GET urlparse_path int_of_str r = Raise ValueError
  | Some path =>
      exists resp,
        API.do_GET urlparse_path int_of_str r
        = Ret (resp,
               ((if String.eqb path "/api/config"
                 then [API.SuspiciousAccess path (API.client r)]
                 else []) ++ [Spec.request_line r])%list)
        /\ In (API.status resp) [200; 400; 404]
        /\ (API.status resp = 400 ->
            Py.startswith path "/api/products/" = true)
        /\ (String.eqb path "/api/config" = true ->
            resp = Spec.reply 200 (API.Json Spec.decoy_config))
  end.
Proof.
  unfold API.do_GET.
  destruct (urlparse_path (API.target r)) as [path|]; [|reflexivity].
  destruct (String.eqb path "/api/config") eqn:Ec.
  - apply String.eqb_eq in Ec. subst path. cbn.
    eexists. split; [reflexivity|]. cbn.
    repeat split; first [discriminate | tauto | reflexivity].
  - destruct (String.eqb path "/api/products").
    { eexists. split; [reflexivity|]. cbn.
      repeat split; first [discriminate | tauto]. }
    destruct (Py.startswith path "/api/products/") eqn:Es.
    { destruct (int_of_str _) as [n|].
      - destruct (List.find (API.has_id n) API.PRODUCTS) as [p|].
        + destruct (truthy p); eexists; (split; [reflexivity|]); cbn;
            repeat split; first [discriminate | tauto].
        + eexists. split; [reflexivity|]. cbn.
          repeat split; first [discriminate | tauto].
      - eexists. split; [reflexivity|]. cbn.
        repeat split; first [discriminate | tauto]. }
    destruct (String.eqb path "/api/health");
      eexists; (split; [reflexivity|]); cbn;
      repeat split; first [discriminate | tauto].
Qed.

End APIReplies.
